(** * Negotiation-and-settlement engine of the trading agent competition

    A shallow embedding of [tac/platform/game.py] (the ledger: [Game],
    [AgentState], [GoodState], [WorldState]) and of
    [tac/agents/v2/base/behaviours.py] (the FIPA negotiation handlers),
    with the properties of the specification stated and proved over it.

    Conventions of the embedding

    - Python [int] is [Z].  Python [float] money amounts, fees, prices and
      scores are exact rationals [Qc]: every statement below is about the
      arithmetic the program denotes, not about binary rounding error.
      The only rounding that is modelled is the explicit [round(x, n)] of
      the source ([py_round]).
    - A Python exception is a value of [exn]; a method that mutates an
      object is a function in a state-and-exception monad that returns the
      state reached when the exception was raised (Python does not roll
      anything back).
    - A [dict] keyed by public key is a [gmap string _] where only lookups
      and in-place updates of the values are used, and an association list
      where the iteration order of the dictionary is observable
      ([enumerate(d.values())], [zip(d.keys(), range(n))]). *)

From Stdlib Require Import QArith Qcanon.
From stdpp Require Import base numbers option list strings gmap fin_maps.

Local Open Scope Z_scope.

(** ** Python exceptions and results *)

Inductive exn : Type :=
| AssertionError
| KeyError
| IndexError
| ZeroDivisionError
| AttributeError
| TypeError
| DuplicateLockError
| NotFoundError.

Definition result (A : Type) : Type := exn + A.

Abbreviation Ok := (@inr exn _).
Abbreviation Raise := (@inl exn _).

Global Instance exn_eq_dec : EqDecision exn.
Proof. solve_decision. Defined.

(** [l[i]] for a non-negative index: [IndexError] when out of range. *)
Definition list_getitem {A} (l : list A) (i : nat) : result A :=
  match l !! i with
  | Some x => Ok x
  | None => Raise IndexError
  end.

(** [d[k]] on a dictionary: [KeyError] when the key is absent. *)
Definition dict_getitem {A} (d : gmap string A) (k : string) : result A :=
  match d !! k with
  | Some x => Ok x
  | None => Raise KeyError
  end.

(** ** Numbers *)

Definition Qc_of_Z (z : Z) : Qc := Q2Qc (inject_Z z).

(** Rounding to the nearest integer, ties to the even neighbour: what
    Python 3 [round] does on the exact value of its argument. *)
Definition round_half_even (x : Qc) : Z :=
  let n := Qnum (this x) in
  let d := Z.pos (Qden (this x)) in
  let fl := n `div` d in
  match (2 * (n `mod` d)) ?= d with
  | Lt => fl
  | Gt => fl + 1
  | Eq => if Z.even fl then fl else fl + 1
  end.

(** [round(x, ndigits)]. *)
Definition py_round (x : Qc) (ndigits : nat) : Qc :=
  let scale := Qc_of_Z (10 ^ Z.of_nat ndigits) in
  (Qc_of_Z (round_half_even (x * scale)) / scale)%Qc.

(** [x / y] (true division): [ZeroDivisionError] on a zero divisor. *)
Definition py_truediv (x y : Qc) : result Qc :=
  if decide (y = 0%Qc) then Raise ZeroDivisionError else Ok (x / y)%Qc.

(** [share_of_tx_fee = round(tx_fee / 2.0, 2)], the expression shared by
    [Game.is_transaction_valid], [Game.settle_transaction],
    [AgentState.check_transaction_is_consistent] and [AgentState.update]. *)
Definition share_of_tx_fee (tx_fee : Qc) : Qc :=
  py_round (tx_fee / Qc_of_Z 2)%Qc 2.

(** ** The state-and-exception monad

    [M S A]: a computation over a mutable state [S] that returns an [A]
    or raises; the state component of the outcome is the state at the
    point where the computation stopped. *)

Definition M (S A : Type) : Type := S → S * result A.

Global Instance M_ret {S} : MRet (M S) := λ A a s, (s, Ok a).
Global Instance M_bind {S} : MBind (M S) := λ A B f m s,
  match m s with
  | (s', inr a) => f a s'
  | (s', inl e) => (s', inl e)
  end.

Definition get_state {S} : M S S := λ s, (s, Ok s).
Definition put_state {S} (s : S) : M S unit := λ _, (s, Ok tt).
Definition raise {S A} (e : exn) : M S A := λ s, (s, Raise e).
Definition lift {S A} (r : result A) : M S A := λ s, (s, r).

(** The [assert] statement. *)
Definition py_assert {S} (b : bool) : M S unit :=
  if b then mret tt else raise AssertionError.

(** ** Data model of the ledger *)

(** Modelled from the spec: the class [Transaction] of
    [tac/platform/protocol.py] is not part of the sources at hand; its
    fields are those of the wire form of the specification
    ([transaction_id], [is_sender_buyer], [counterparty], [amount],
    [quantities_by_good_pbk], [sender]; the signature belongs to the
    cryptographic layer, which is out of scope).  The quantities are a
    dictionary in insertion order, since the ledger enumerates it. *)
Record Transaction : Type := {
  transaction_id : string;
  is_sender_buyer : bool;
  counterparty : string;
  amount : Qc;
  quantities_by_good_pbk : list (string * Z);
  sender : string;
}.

(** Modelled from the spec: the direction flag says whether the sender is
    the buyer (the doctest of [Game.settle_transaction] fixes the
    orientation: with [is_sender_buyer = True] the sender pays). *)
Definition buyer_pbk (tx : Transaction) : string :=
  if is_sender_buyer tx then sender tx else counterparty tx.

Definition seller_pbk (tx : Transaction) : string :=
  if is_sender_buyer tx then counterparty tx else sender tx.

(** [tx.quantities_by_good_pbk.values()]. *)
Definition quantities (tx : Transaction) : list Z :=
  (quantities_by_good_pbk tx).*2.

Global Instance Transaction_eq_dec : EqDecision Transaction.
Proof. solve_decision. Defined.

Record GameConfiguration : Type := {
  nb_agents : Z;
  nb_goods : Z;
  tx_fee : Qc;
  agent_pbk_to_name : list (string * string);
  good_pbk_to_name : list (string * string);
}.

Definition agent_pbks (c : GameConfiguration) : list string := (agent_pbk_to_name c).*1.
Definition agent_names (c : GameConfiguration) : list string := (agent_pbk_to_name c).*2.
Definition good_pbks (c : GameConfiguration) : list string := (good_pbk_to_name c).*1.
Definition good_names (c : GameConfiguration) : list string := (good_pbk_to_name c).*2.

Record GameInitialization : Type := {
  initial_money_amounts : list Z;
  endowments : list (list Z);
  utility_params : list (list Qc);
  eq_prices : list Qc;
  eq_good_holdings : list (list Qc);
  eq_money_holdings : list Qc;
}.

(** [AgentState]: the attributes [balance], [_utility_params] and
    [_current_holdings]. *)
Record AgentState : Type := {
  balance : Qc;
  _utility_params : list Qc;
  _current_holdings : list Z;
}.

Record GoodState : Type := { price : Qc }.

Definition DEFAULT_PRICE : Qc := 0%Qc.

(** [Game]: the live objects are identified by their dictionary key; the
    constructor of [AgentState] copies the lists it is given, so no two
    agent states share a holdings list. *)
Record Game : Type := {
  configuration : GameConfiguration;
  initialization : GameInitialization;
  transactions : list Transaction;
  initial_agent_states : gmap string AgentState;
  agent_states : gmap string AgentState;
  good_states : gmap string GoodState;
}.

Definition set_transactions (f : list Transaction → list Transaction) (g : Game) : Game :=
  {| configuration := configuration g; initialization := initialization g;
     transactions := f (transactions g);
     initial_agent_states := initial_agent_states g;
     agent_states := agent_states g; good_states := good_states g |}.

Definition set_agent_states (f : gmap string AgentState → gmap string AgentState) (g : Game) : Game :=
  {| configuration := configuration g; initialization := initialization g;
     transactions := transactions g;
     initial_agent_states := initial_agent_states g;
     agent_states := f (agent_states g); good_states := good_states g |}.

Definition set_good_states (f : gmap string GoodState → gmap string GoodState) (g : Game) : Game :=
  {| configuration := configuration g; initialization := initialization g;
     transactions := transactions g;
     initial_agent_states := initial_agent_states g;
     agent_states := agent_states g; good_states := f (good_states g) |}.

Definition set_balance (f : Qc → Qc) (st : AgentState) : AgentState :=
  {| balance := f (balance st); _utility_params := _utility_params st;
     _current_holdings := _current_holdings st |}.

Definition set_current_holdings (f : list Z → list Z) (st : AgentState) : AgentState :=
  {| balance := balance st; _utility_params := _utility_params st;
     _current_holdings := f (_current_holdings st) |}.

(** The property [current_holdings] returns a copy of the list: a value. *)
Definition current_holdings (st : AgentState) : list Z := _current_holdings st.

(** ** [Game.is_transaction_valid] *)

(** The loop over [enumerate(tx.quantities_by_good_pbk.values())]. *)
Fixpoint enough_holdings (seller_holdings : list Z) (good_id : nat)
    (bought : list Z) : result bool :=
  match bought with
  | [] => Ok true
  | bought_quantity :: rest =>
      match list_getitem seller_holdings good_id with
      | inl e => Raise e
      | inr held =>
          if bool_decide (held < bought_quantity) then Ok false
          else enough_holdings seller_holdings (S good_id) rest
      end
  end.

Definition is_transaction_valid (tx : Transaction) : M Game bool :=
  g ← get_state;
  let share := share_of_tx_fee (tx_fee (configuration g)) in
  buyer_state ← lift (dict_getitem (agent_states g) (buyer_pbk tx));
  if bool_decide (balance buyer_state < amount tx + share)%Qc then mret false
  else
    seller_state ← lift (dict_getitem (agent_states g) (seller_pbk tx));
    let seller_holdings := current_holdings seller_state in
    lift (enough_holdings seller_holdings 0 (quantities tx)).

(** ** [Game.settle_transaction] *)

(** [state._current_holdings[good_id] += delta] on the agent state stored
    under [pbk]. *)
Definition holdings_iadd (pbk : string) (good_id : nat) (delta : Z) : M Game unit :=
  g ← get_state;
  st ← lift (dict_getitem (agent_states g) pbk);
  held ← lift (list_getitem (_current_holdings st) good_id);
  put_state (set_agent_states
    (insert pbk (set_current_holdings (insert good_id (held + delta)) st)) g).

(** [state.balance += delta] on the agent state stored under [pbk]. *)
Definition balance_iadd (pbk : string) (delta : Qc) : M Game unit :=
  g ← get_state;
  st ← lift (dict_getitem (agent_states g) pbk);
  put_state (set_agent_states (insert pbk (set_balance (λ b, b + delta)%Qc st)) g).

(** [good_state = self.good_states[good_pbk]; good_state.price = price]. *)
Definition set_good_price (good_pbk : string) (p : Qc) : M Game unit :=
  g ← get_state;
  _ ← lift (dict_getitem (good_states g) good_pbk);
  put_state (set_good_states (insert good_pbk {| price := p |}) g).

(** The loop "update holdings and prices" over
    [enumerate(tx.quantities_by_good_pbk.items())]. *)
Fixpoint settle_goods (tx : Transaction) (nb_instances_traded : Z)
    (good_id : nat) (items : list (string * Z)) : M Game unit :=
  match items with
  | [] => mret tt
  | (good_pbk, quantity) :: rest =>
      holdings_iadd (buyer_pbk tx) good_id quantity ;;
      holdings_iadd (seller_pbk tx) good_id (- quantity) ;;
      (if bool_decide (0 < quantity) then
         p ← lift (py_truediv (amount tx) (Qc_of_Z nb_instances_traded));
         set_good_price good_pbk p
       else mret tt) ;;
      settle_goods tx nb_instances_traded (S good_id) rest
  end.

(** [sum(tx.quantities_by_good_pbk.values())]. *)
Definition sum_list (l : list Z) : Z := foldr Z.add 0 l.

Definition settle_transaction (tx : Transaction) : M Game unit :=
  valid ← is_transaction_valid tx;
  py_assert valid ;;
  g ← get_state;
  put_state (set_transactions (λ log, log ++ [tx]) g) ;;
  _ ← lift (dict_getitem (agent_states g) (buyer_pbk tx));
  _ ← lift (dict_getitem (agent_states g) (seller_pbk tx));
  let nb_instances_traded := sum_list (quantities tx) in
  settle_goods tx nb_instances_traded 0 (quantities_by_good_pbk tx) ;;
  let share := share_of_tx_fee (tx_fee (configuration g)) in
  balance_iadd (buyer_pbk tx) (- (amount tx + share))%Qc ;;
  balance_iadd (seller_pbk tx) (amount tx - share)%Qc.

(** ** Construction of the ledger *)

Global Instance result_ret : MRet result := λ A a, Ok a.
Global Instance result_bind : MBind result := λ A B f r,
  match r with
  | inr a => f a
  | inl e => inl e
  end.

(** The assertions of [GameConfiguration._check_consistency]. *)
Definition GameConfiguration_check_consistency (c : GameConfiguration) : bool :=
  bool_decide (0 ≤ tx_fee c)%Qc
  && bool_decide (1 < nb_agents c)
  && bool_decide (1 < nb_goods c)
  && bool_decide (Z.of_nat (length (agent_pbks c)) = nb_agents c)
  && bool_decide (Z.of_nat (length (remove_dups (agent_names c))) = nb_agents c)
  && bool_decide (Z.of_nat (length (good_pbks c)) = nb_goods c)
  && bool_decide (Z.of_nat (length (remove_dups (good_names c))) = nb_goods c).

(** [GameConfiguration(...)]: store the arguments, then check them. *)
Definition GameConfiguration_init (nb_agents nb_goods : Z) (tx_fee : Qc)
    (agent_pbk_to_name good_pbk_to_name : list (string * string))
    : result GameConfiguration :=
  let c := {| nb_agents := nb_agents; nb_goods := nb_goods; tx_fee := tx_fee;
              agent_pbk_to_name := agent_pbk_to_name;
              good_pbk_to_name := good_pbk_to_name |} in
  if GameConfiguration_check_consistency c then Ok c else Raise AssertionError.

(** The assertions of [GameInitialization._check_consistency], in the
    order of the source; [self.eq_good_holdings[0]] raises [IndexError]
    on an empty matrix. *)
Definition GameInitialization_check_consistency (i : GameInitialization) : result unit :=
  if negb (forallb (λ money, bool_decide (0 ≤ money)) (initial_money_amounts i)) then Raise AssertionError
  else if negb (forallb (forallb (λ e, bool_decide (0 < e))) (endowments i)) then Raise AssertionError
  else if negb (forallb (forallb (λ e, bool_decide (0 < e)%Qc)) (utility_params i)) then Raise AssertionError
  else if negb (bool_decide (length (endowments i) = length (initial_money_amounts i))) then Raise AssertionError
  else if negb (bool_decide (length (endowments i) = length (utility_params i))) then Raise AssertionError
  else
    first_row ← list_getitem (eq_good_holdings i) 0;
    if negb (bool_decide (length (eq_prices i) = length first_row)) then Raise AssertionError
    else if negb (bool_decide (length (eq_good_holdings i) = length (eq_money_holdings i))) then Raise AssertionError
    else if negb (forallb (λ rows, bool_decide (length rows.1 = length rows.2))
                    (zip (endowments i) (utility_params i))) then Raise AssertionError
    else Ok tt.

Definition GameInitialization_init (initial_money_amounts : list Z)
    (endowments : list (list Z)) (utility_params : list (list Qc))
    (eq_prices : list Qc) (eq_good_holdings : list (list Qc))
    (eq_money_holdings : list Qc) : result GameInitialization :=
  let i := {| initial_money_amounts := initial_money_amounts;
              endowments := endowments; utility_params := utility_params;
              eq_prices := eq_prices; eq_good_holdings := eq_good_holdings;
              eq_money_holdings := eq_money_holdings |} in
  GameInitialization_check_consistency i ;; Ok i.

(** [AgentState(money, endowment, utility_params)]; the two lists are
    copied. *)
Definition AgentState_init (money : Qc) (endowment : list Z)
    (utility_params : list Qc) : result AgentState :=
  if bool_decide (length endowment = length utility_params)
  then Ok {| balance := money; _utility_params := utility_params;
             _current_holdings := endowment |}
  else Raise AssertionError.

(** [range(n)]. *)
Definition py_range (n : Z) : list nat := seq 0 (Z.to_nat n).

(** [dict((agent_pbk, AgentState(money[i], endowments[i], utility_params[i]))
          for agent_pbk, i in zip(agent_pbks, range(nb_agents)))]:
    the pairs are produced one after the other, a later key overrides. *)
Fixpoint build_agent_states (i : GameInitialization) (pairs : list (string * nat))
    (acc : gmap string AgentState) : result (gmap string AgentState) :=
  match pairs with
  | [] => Ok acc
  | (agent_pbk, k) :: rest =>
      money ← list_getitem (initial_money_amounts i) k;
      endowment ← list_getitem (endowments i) k;
      params ← list_getitem (utility_params i) k;
      st ← AgentState_init (Qc_of_Z money) endowment params;
      build_agent_states i rest (<[agent_pbk := st]> acc)
  end.

(** [Game(configuration, initialization)]. *)
Definition Game_init (c : GameConfiguration) (i : GameInitialization) : result Game :=
  let pairs := zip (agent_pbks c) (py_range (nb_agents c)) in
  initial_states ← build_agent_states i pairs ∅;
  states ← build_agent_states i pairs ∅;
  Ok {| configuration := c; initialization := i; transactions := [];
        initial_agent_states := initial_states;
        agent_states := states;
        good_states := foldl (λ acc good_pbk, <[good_pbk := {| price := DEFAULT_PRICE |}]> acc)
                             ∅ (good_pbks c) |}.

(** *** The game of the docstrings of [game.py] *)

Module Doctest.

Definition game_configuration : GameConfiguration :=
  {| nb_agents := 3; nb_goods := 3; tx_fee := Qc_of_Z 1;
     agent_pbk_to_name := [("tac_agent_0_pbk", "tac_agent_0"); ("tac_agent_1_pbk", "tac_agent_1");
                           ("tac_agent_2_pbk", "tac_agent_2")]%string;
     good_pbk_to_name := [("tac_good_0", "Good 0"); ("tac_good_1", "Good 1");
                          ("tac_good_2", "Good 2")]%string |}.

Definition game_initialization : GameInitialization :=
  {| initial_money_amounts := [20; 20; 20];
     endowments := [[1; 1; 1]; [2; 1; 1]; [1; 1; 2]];
     utility_params := map (map Qc_of_Z) [[20; 40; 40]; [10; 50; 40]; [40; 30; 30]];
     eq_prices := map Qc_of_Z [1; 2; 2];
     eq_good_holdings := map (map Qc_of_Z) [[1; 1; 1]; [2; 1; 1]; [1; 1; 2]];
     eq_money_holdings := map Qc_of_Z [20; 20; 20] |}.

Definition game : Game :=
  match Game_init game_configuration game_initialization with
  | inr g => g
  | inl _ => {| configuration := game_configuration; initialization := game_initialization;
                transactions := []; initial_agent_states := ∅; agent_states := ∅;
                good_states := ∅ |}
  end.

(** [Transaction('some_tx_id', True, 'tac_agent_1_pbk', 15,
      {'tac_good_0': 1, 'tac_good_1': 0, 'tac_good_2': 0}, 'tac_agent_0_pbk', Crypto())] *)
Definition tx : Transaction :=
  {| transaction_id := "some_tx_id"; is_sender_buyer := true;
     counterparty := "tac_agent_1_pbk"; amount := Qc_of_Z 15;
     quantities_by_good_pbk := [("tac_good_0", 1); ("tac_good_1", 0); ("tac_good_2", 0)]%string;
     sender := "tac_agent_0_pbk" |}.

(** What an observer reads off an agent: balance (numerator and
    denominator) and holdings. *)
Definition observe (g : Game) (pbk : string) : option (Q * list Z) :=
  (λ st, (this (balance st), _current_holdings st)) <$> agent_states g !! pbk.

Definition game_after : Game := (settle_transaction tx game).1.

(** The same trade for more money than the buyer has. *)
Definition tx_too_expensive : Transaction :=
  {| transaction_id := "some_tx_id"; is_sender_buyer := true;
     counterparty := "tac_agent_1_pbk"; amount := Qc_of_Z 20;
     quantities_by_good_pbk := [("tac_good_0", 1); ("tac_good_1", 0); ("tac_good_2", 0)]%string;
     sender := "tac_agent_0_pbk" |}.



(** The same trade, for a good that the game does not know. *)
Definition tx_unknown_good : Transaction :=
  {| transaction_id := "some_tx_id"; is_sender_buyer := true;
     counterparty := "tac_agent_1_pbk"; amount := Qc_of_Z 15;
     quantities_by_good_pbk := [("tac_good_9", 1); ("tac_good_1", 0); ("tac_good_2", 0)]%string;
     sender := "tac_agent_0_pbk" |}.


Definition agent_state_1 : AgentState :=
  {| balance := Qc_of_Z 20; _utility_params := map Qc_of_Z [10; 50; 40];
     _current_holdings := [2; 1; 1] |}.

End Doctest.

(** ** Serialisation: [to_dict] and [from_dict]

    A dictionary with a fixed set of keys is a record with one field per
    key. *)

Record GameConfigurationDict : Type := {
  d_nb_agents : Z;
  d_nb_goods : Z;
  d_tx_fee : Qc;
  d_agent_pbk_to_name : list (string * string);
  d_good_pbk_to_name : list (string * string);
}.

Definition GameConfiguration_to_dict (c : GameConfiguration) : GameConfigurationDict :=
  {| d_nb_agents := nb_agents c; d_nb_goods := nb_goods c; d_tx_fee := tx_fee c;
     d_agent_pbk_to_name := agent_pbk_to_name c;
     d_good_pbk_to_name := good_pbk_to_name c |}.

Definition GameConfiguration_from_dict (d : GameConfigurationDict) : result GameConfiguration :=
  GameConfiguration_init (d_nb_agents d) (d_nb_goods d) (d_tx_fee d)
    (d_agent_pbk_to_name d) (d_good_pbk_to_name d).

Record GameInitializationDict : Type := {
  d_initial_money_amounts : list Z;
  d_endowments : list (list Z);
  d_utility_params : list (list Qc);
  d_eq_prices : list Qc;
  d_eq_good_holdings : list (list Qc);
  d_eq_money_holdings : list Qc;
}.

Definition GameInitialization_to_dict (i : GameInitialization) : GameInitializationDict :=
  {| d_initial_money_amounts := initial_money_amounts i;
     d_endowments := endowments i; d_utility_params := utility_params i;
     d_eq_prices := eq_prices i; d_eq_good_holdings := eq_good_holdings i;
     d_eq_money_holdings := eq_money_holdings i |}.

Definition GameInitialization_from_dict (d : GameInitializationDict) : result GameInitialization :=
  GameInitialization_init (d_initial_money_amounts d) (d_endowments d)
    (d_utility_params d) (d_eq_prices d) (d_eq_good_holdings d)
    (d_eq_money_holdings d).

(** Modelled from the spec: [Transaction.to_dict] and
    [Transaction.from_dict] belong to [tac/platform/protocol.py], which is
    not part of the sources at hand; the dictionary is the wire form of
    the specification, [{transaction_id, is_sender_buyer, counterparty,
    amount, quantities_by_good_pbk, sender, signature}], without the
    signature (computed from the other fields by the cryptographic layer,
    which is out of scope). *)
Record TransactionDict : Type := {
  d_transaction_id : string;
  d_is_sender_buyer : bool;
  d_counterparty : string;
  d_amount : Qc;
  d_quantities_by_good_pbk : list (string * Z);
  d_sender : string;
}.

Definition Transaction_to_dict (tx : Transaction) : TransactionDict :=
  {| d_transaction_id := transaction_id tx; d_is_sender_buyer := is_sender_buyer tx;
     d_counterparty := counterparty tx; d_amount := amount tx;
     d_quantities_by_good_pbk := quantities_by_good_pbk tx; d_sender := sender tx |}.

Definition Transaction_from_dict (d : TransactionDict) : Transaction :=
  {| transaction_id := d_transaction_id d; is_sender_buyer := d_is_sender_buyer d;
     counterparty := d_counterparty d; amount := d_amount d;
     quantities_by_good_pbk := d_quantities_by_good_pbk d; sender := d_sender d |}.

Record GameDict : Type := {
  d_configuration : GameConfigurationDict;
  d_initialization : GameInitializationDict;
  d_transactions : list TransactionDict;
}.

(** [Game.to_dict]. *)
Definition Game_to_dict (g : Game) : GameDict :=
  {| d_configuration := GameConfiguration_to_dict (configuration g);
     d_initialization := GameInitialization_to_dict (initialization g);
     d_transactions := Transaction_to_dict <$> transactions g |}.

(** The loop of [Game.from_dict]: every logged transaction is rebuilt
    and settled on the new game, in the order of the log; an exception
    aborts the reconstruction. *)
Fixpoint replay (ds : list TransactionDict) (game : Game) : result Game :=
  match ds with
  | [] => Ok game
  | tx_dict :: rest =>
      let tx := Transaction_from_dict tx_dict in
      match settle_transaction tx game with
      | (game', inr _) => replay rest game'
      | (_, inl e) => Raise e
      end
  end.

(** [Game.from_dict]. *)
Definition Game_from_dict (d : GameDict) : result Game :=
  configuration ← GameConfiguration_from_dict (d_configuration d);
  initialization ← GameInitialization_from_dict (d_initialization d);
  game ← Game_init configuration initialization;
  replay (d_transactions d) game.

(** [==] on two dictionaries: the same keys with the same values, in any
    order. *)
Definition dict_eq (d1 d2 : list (string * string)) : bool :=
  bool_decide (foldl (λ acc kv, <[kv.1 := kv.2]> acc) (∅ : gmap string string) d1
               = foldl (λ acc kv, <[kv.1 := kv.2]> acc) ∅ d2).

(** [GameConfiguration.__eq__]. *)
Definition GameConfiguration_eq (c1 c2 : GameConfiguration) : bool :=
  bool_decide (nb_agents c1 = nb_agents c2)
  && bool_decide (nb_goods c1 = nb_goods c2)
  && bool_decide (tx_fee c1 = tx_fee c2)
  && dict_eq (agent_pbk_to_name c1) (agent_pbk_to_name c2)
  && dict_eq (good_pbk_to_name c1) (good_pbk_to_name c2).

(** Modelled from the spec: [Transaction.__eq__] is not part of the
    sources at hand; two transactions are equal when all their fields
    are. *)
Definition Transaction_eq (t1 t2 : Transaction) : bool := bool_decide (t1 = t2).

Fixpoint list_eq_with {A} (eqb : A → A → bool) (l1 l2 : list A) : bool :=
  match l1, l2 with
  | [], [] => true
  | x :: l1, y :: l2 => eqb x y && list_eq_with eqb l1 l2
  | _, _ => false
  end.

(** [Game.__eq__]: the configurations and the transaction logs are
    compared. *)
Definition Game_eq (g1 g2 : Game) : bool :=
  GameConfiguration_eq (configuration g1) (configuration g2)
  && list_eq_with Transaction_eq (transactions g1) (transactions g2).

(** The games the ledger produces: a new game built from a consistent
    configuration and initialization, and any game obtained from one of
    them by a settlement that ran to its end. *)
Inductive played : Game → Prop :=
| played_new c i g :
    GameConfiguration_check_consistency c = true →
    GameInitialization_check_consistency i = Ok tt →
    Game_init c i = Ok g →
    played g
| played_settle g tx g' :
    played g →
    settle_transaction tx g = (g', Ok tt) →
    played g'.

(** ** The belief state: [WorldState] of [game.py] *)

(** Modelled from the spec: [GoodPriceModel] belongs to
    [tac/helpers/price_model.py], which is not part of the sources at
    hand; a price model "accumulates accepted/declined price
    observations", so it is the list of the observations it was fed, the
    oldest first. *)
Definition GoodPriceModel : Type := list (bool * Qc).

Definition GoodPriceModel_update (is_accepted : bool) (p : Qc)
    (model : GoodPriceModel) : GoodPriceModel :=
  model ++ [(is_accepted, p)].

Record WorldState : Type := {
  opponent_states : gmap string AgentState;
  good_price_models : gmap string GoodPriceModel;
}.

Definition set_good_price_models
    (f : gmap string GoodPriceModel → gmap string GoodPriceModel)
    (ws : WorldState) : WorldState :=
  {| opponent_states := opponent_states ws;
     good_price_models := f (good_price_models ws) |}.

(** [WorldState._update_price]. *)
Definition _update_price (good_pbk : string) (p : Qc) (is_accepted : bool)
    : M WorldState unit :=
  let p := py_round p 1 in
  ws ← get_state;
  good_price_model ← lift (dict_getitem (good_price_models ws) good_pbk);
  put_state (set_good_price_models
    (insert good_pbk (GoodPriceModel_update is_accepted p good_price_model)) ws).

(** The list [good_pbks] built by the first loop of
    [_from_transaction_update_price]: every good with a positive
    quantity, repeated as many times as units are traded. *)
Fixpoint traded_units (items : list (string * Z)) : list string :=
  match items with
  | [] => []
  | (good_pbk, quantity) :: rest =>
      (if bool_decide (0 < quantity) then replicate (Z.to_nat quantity) good_pbk else [])
      ++ traded_units rest
  end.

Fixpoint update_prices (good_pbks : list string) (p : Qc) (is_accepted : bool)
    : M WorldState unit :=
  match good_pbks with
  | [] => mret tt
  | good_pbk :: rest =>
      _update_price good_pbk p is_accepted ;; update_prices rest p is_accepted
  end.

(** [WorldState._from_transaction_update_price].  The second loop runs
    over [list(set(good_pbks))]: every good once, in an order that Python
    does not fix; the order of [remove_dups] is taken here. *)
Definition _from_transaction_update_price (transaction : Transaction)
    (is_accepted : bool) : M WorldState unit :=
  let good_pbks := traded_units (quantities_by_good_pbk transaction) in
  let p := amount transaction in
  p ← lift (py_truediv p (Qc_of_Z (Z.of_nat (length good_pbks))));
  update_prices (remove_dups good_pbks) p is_accepted.

(** [WorldState.update_on_declined_propose]. *)
Definition update_on_declined_propose (transaction : Transaction) : M WorldState unit :=
  _from_transaction_update_price transaction false.

(** [WorldState.update_on_initial_accept]. *)
Definition update_on_initial_accept (transaction : Transaction) : M WorldState unit :=
  _from_transaction_update_price transaction true.

(** [WorldState.update_on_cfp] and [WorldState.update_on_proposal]:
    [pass]. *)
Definition update_on_cfp {A} (query : A) : M WorldState unit := mret tt.
Definition update_on_proposal {A} (proposal : A) : M WorldState unit := mret tt.

(** The call [world_state.<name>(transaction)] on an instance of
    [WorldState]: Python looks the attribute up by name when the call is
    executed.  The class of [game.py] defines the methods listed here
    (and no [__getattr__]); those that take other arguments than one
    positional argument fail with [TypeError], a name that the class
    does not define fails with [AttributeError].  The three
    [_expected_*] methods return their argument and write nothing. *)
Definition WorldState_call (name : string) (transaction : Transaction)
    : M WorldState unit :=
  if decide (name = "update_on_cfp") then update_on_cfp transaction
  else if decide (name = "update_on_proposal") then update_on_proposal transaction
  else if decide (name = "update_on_declined_propose") then update_on_declined_propose transaction
  else if decide (name = "update_on_initial_accept") then update_on_initial_accept transaction
  else if decide (name = "_expected_initial_money_amount") then mret tt
  else if decide (name = "_expected_good_endowments") then mret tt
  else if decide (name = "_expected_utility_params") then mret tt
  else if decide (name = "_from_transaction_update_price") then raise TypeError
  else if decide (name = "expected_price") then raise TypeError
  else if decide (name = "_update_price") then raise TypeError
  else raise AttributeError.

(** What an observer reads off the price model of a good: the outcome
    flags and the prices (as fractions) it was fed. *)
Definition observations (ws : WorldState) (good_pbk : string) : option (list (bool * Q)) :=
  option_map (map (λ o : bool * Qc, (o.1, this o.2)))
    (good_price_models ws !! good_pbk).

Module DoctestBeliefs.

(** A transaction that trades nothing. *)
Definition tx_nothing_traded : Transaction :=
  {| transaction_id := "some_tx_id"; is_sender_buyer := true;
     counterparty := "tac_agent_1_pbk"; amount := Qc_of_Z 15;
     quantities_by_good_pbk := [("tac_good_0", 0); ("tac_good_1", 0); ("tac_good_2", 0)]%string;
     sender := "tac_agent_0_pbk" |}.

(** The world state of an agent of the game of the docstrings: a price
    model without observations for every good. *)
Definition world_state : WorldState :=
  {| opponent_states := ∅;
     good_price_models :=
       list_to_map [("tac_good_0", []); ("tac_good_1", []); ("tac_good_2", [])]%string |}.

End DoctestBeliefs.

(** ** Agent states as objects

    The negotiation handlers copy [AgentState] objects and update the
    copies in place, so on the agent's side the objects live in a store:
    a reference is an index into the list of the objects allocated so
    far, and allocation appends.  An [AgentState] object holds a balance
    and references to its two lists. *)

Inductive pyobj : Type :=
| PyListInt (l : list Z)
| PyListFloat (l : list Qc)
| PyAgentState (balance : Qc) (utility_params current_holdings : nat).

Abbreviation ref := nat (only parsing).
Abbreviation heap := (list pyobj) (only parsing).

Definition alloc (o : pyobj) : M heap ref := λ h, (h ++ [o], Ok (length h)).

Definition write (r : ref) (o : pyobj) : M heap unit := λ h, (<[r := o]> h, Ok tt).

(** Reading an object of a given class.  A reference always points to
    an object of the class its holder expects; the reads are total by
    answering [TypeError] otherwise. *)
Definition read_ints (r : ref) : M heap (list Z) := λ h,
  match h !! r with
  | Some (PyListInt l) => (h, Ok l)
  | _ => (h, Raise TypeError)
  end.

Definition read_floats (r : ref) : M heap (list Qc) := λ h,
  match h !! r with
  | Some (PyListFloat l) => (h, Ok l)
  | _ => (h, Raise TypeError)
  end.

Definition read_agent (r : ref) : M heap (Qc * ref * ref) := λ h,
  match h !! r with
  | Some (PyAgentState b up hl) => (h, Ok (b, up, hl))
  | _ => (h, Raise TypeError)
  end.

(** The helpers of the repository that are not part of the sources at
    hand and whose results the handlers only pass on:
    [tac.helpers.misc.logarithmic_utility] (the goods score of a state),
    [tac.helpers.misc.generate_transaction_id],
    [Transaction.from_proposal] and [Transaction.serialize] of
    [tac/platform/protocol.py], and the type of the proposals carried by
    a [Propose]. *)
Class Helpers : Type := {
  logarithmic_utility : list Qc → list Z → Qc;
  generate_transaction_id : string → string → Z → bool → string;
  Proposal : Type;
  Transaction_from_proposal : Proposal → string → bool → string → string → Transaction;
  Transaction_serialize : Transaction → string;
}.

Module AgentStateObj.

Section methods.

Context `{Helpers}.

(** [AgentState.__init__]: both lists are copied. *)
Definition __init__ (money : Qc) (endowment utility_params : ref) : M heap ref :=
  e ← read_ints endowment;
  u ← read_floats utility_params;
  py_assert (bool_decide (length e = length u)) ;;
  _utility_params ← alloc (PyListFloat u);
  _current_holdings ← alloc (PyListInt e);
  alloc (PyAgentState money _utility_params _current_holdings).

Definition balance (self : ref) : M heap Qc :=
  '(b, _, _) ← read_agent self; mret b.

(** The property [current_holdings]: a copy of the list. *)
Definition current_holdings (self : ref) : M heap ref :=
  '(_, _, hl) ← read_agent self;
  l ← read_ints hl;
  alloc (PyListInt l).

(** The property [utility_params]: a copy of the list. *)
Definition utility_params (self : ref) : M heap ref :=
  '(_, up, _) ← read_agent self;
  l ← read_floats up;
  alloc (PyListFloat l).

(** [AgentState.get_score]. *)
Definition get_score (self : ref) : M heap Qc :=
  up ← utility_params self;
  ch ← current_holdings self;
  u ← read_floats up;
  h ← read_ints ch;
  let goods_score := logarithmic_utility u h in
  money_score ← balance self;
  mret (goods_score + money_score)%Qc.

(** [AgentState.__copy__]. *)
Definition __copy__ (self : ref) : M heap ref :=
  b ← balance self;
  ch ← current_holdings self;
  up ← utility_params self;
  __init__ b ch up.

(** The loop of [AgentState.update]:
    [self._current_holdings[good_id] += quantity_delta]. *)
Fixpoint update_holdings (hl : ref) (is_buyer : bool) (good_id : nat)
    (qs : list Z) : M heap unit :=
  match qs with
  | [] => mret tt
  | quantity :: rest =>
      let quantity_delta := if is_buyer then quantity else - quantity in
      l ← read_ints hl;
      held ← lift (list_getitem l good_id);
      write hl (PyListInt (<[good_id := held + quantity_delta]> l)) ;;
      update_holdings hl is_buyer (S good_id) rest
  end.

(** [AgentState.update]. *)
Definition update (self : ref) (tx : Transaction) (tx_fee : Qc) : M heap unit :=
  let share := share_of_tx_fee tx_fee in
  '(b, up, hl) ← read_agent self;
  (if is_sender_buyer tx
   then write self (PyAgentState (b - (amount tx + share)) up hl)
   else write self (PyAgentState (b + (amount tx - share)) up hl)) ;;
  update_holdings hl (is_sender_buyer tx) 0 (quantities tx).

Fixpoint update_all (new_state : ref) (transactions : list Transaction)
    (tx_fee : Qc) : M heap unit :=
  match transactions with
  | [] => mret tt
  | tx :: rest => update new_state tx tx_fee ;; update_all new_state rest tx_fee
  end.

(** [AgentState.apply]. *)
Definition apply (self : ref) (transactions : list Transaction) (tx_fee : Qc)
    : M heap ref :=
  new_state ← __copy__ self;
  update_all new_state transactions tx_fee ;;
  mret new_state.

(** [AgentState.get_score_diff_from_transaction]. *)
Definition get_score_diff_from_transaction (self : ref) (tx : Transaction)
    (tx_fee : Qc) : M heap Qc :=
  current_score ← get_score self;
  new_state ← apply self [tx] tx_fee;
  new_score ← get_score new_state;
  mret (new_score - current_score)%Qc.

(** The loop of [check_transaction_is_consistent]:
    [result = result and (self._current_holdings[good_id] >= quantity)];
    [and] does not evaluate its right operand once [result] is false. *)
Fixpoint holdings_cover (l : list Z) (res : bool) (good_id : nat)
    (qs : list Z) : result bool :=
  match qs with
  | [] => Ok res
  | quantity :: rest =>
      if res then
        held ← list_getitem l good_id;
        holdings_cover l (bool_decide (quantity ≤ held)) (S good_id) rest
      else holdings_cover l false (S good_id) rest
  end.

(** [AgentState.check_transaction_is_consistent]. *)
Definition check_transaction_is_consistent (self : ref) (tx : Transaction)
    (tx_fee : Qc) : M heap bool :=
  let share := share_of_tx_fee tx_fee in
  if is_sender_buyer tx then
    b ← balance self;
    mret (bool_decide (amount tx + share ≤ b)%Qc)
  else
    '(_, _, hl) ← read_agent self;
    l ← read_ints hl;
    lift (holdings_cover l true 0 (quantities tx)).

End methods.

End AgentStateObj.

(** ** The lock manager *)

(** A dialogue label: the two participants and the session id. *)
Abbreviation DialogueLabel := (string * string * Z)%type (only parsing).

Record Dialogue : Type := {
  dialogue_label : DialogueLabel;
  is_seller : bool;
}.

(** Modelled from the spec: the lock manager belongs to
    [tac/agents/v2/base/lock_manager.py], which is not part of the
    sources at hand.  Following section 4.3 of the specification it
    holds the locks keyed by transaction id, each taken as seller or as
    buyer, and two dialogue-scoped maps from message ids to
    transactions. *)
Record LockManager : Type := {
  locks : list (string * (bool * Transaction));
  pending_tx_proposals : gmap DialogueLabel (gmap Z Transaction);
  pending_tx_acceptances : gmap DialogueLabel (gmap Z Transaction);
}.

(** [key in d] for the insertion-ordered dictionary of locks. *)
Definition has_lock (transaction_id : string) (lm : LockManager) : bool :=
  bool_decide (transaction_id ∈ (locks lm).*1).

(** [dialogue.dialogue_label in d and target in d[dialogue.dialogue_label]]. *)
Definition is_pending (d : gmap DialogueLabel (gmap Z Transaction))
    (dialogue : Dialogue) (target : Z) : bool :=
  match d !! dialogue_label dialogue with
  | Some by_id => bool_decide (is_Some (by_id !! target))
  | None => false
  end.

(** Modelled from the spec: "pop fails with NotFoundError if the
    (dialogue, msg_id) key is absent". *)
Definition pop_pending (d : gmap DialogueLabel (gmap Z Transaction))
    (dialogue : Dialogue) (msg_id : Z)
    : result (Transaction * gmap DialogueLabel (gmap Z Transaction)) :=
  match d !! dialogue_label dialogue with
  | Some by_id =>
      match by_id !! msg_id with
      | Some tx => Ok (tx, <[dialogue_label dialogue := delete msg_id by_id]> d)
      | None => Raise NotFoundError
      end
  | None => Raise NotFoundError
  end.

Definition store_pending (d : gmap DialogueLabel (gmap Z Transaction))
    (dialogue : Dialogue) (msg_id : Z) (tx : Transaction)
    : gmap DialogueLabel (gmap Z Transaction) :=
  <[dialogue_label dialogue := <[msg_id := tx]> (default ∅ (d !! dialogue_label dialogue))]> d.

(** Modelled from the spec: [pop_pending_proposal],
    [pop_pending_acceptances] and [add_pending_acceptances], the
    operations on the two dialogue-scoped maps. *)
Definition LockManager_pop_pending_proposal (dialogue : Dialogue) (msg_id : Z)
    : M LockManager Transaction :=
  lm ← get_state;
  '(tx, d) ← lift (pop_pending (pending_tx_proposals lm) dialogue msg_id);
  put_state {| locks := locks lm; pending_tx_proposals := d;
               pending_tx_acceptances := pending_tx_acceptances lm |} ;;
  mret tx.

Definition LockManager_pop_pending_acceptances (dialogue : Dialogue) (msg_id : Z)
    : M LockManager Transaction :=
  lm ← get_state;
  '(tx, d) ← lift (pop_pending (pending_tx_acceptances lm) dialogue msg_id);
  put_state {| locks := locks lm; pending_tx_proposals := pending_tx_proposals lm;
               pending_tx_acceptances := d |} ;;
  mret tx.

Definition LockManager_add_pending_acceptances (dialogue : Dialogue) (msg_id : Z)
    (tx : Transaction) : M LockManager unit :=
  lm ← get_state;
  put_state {| locks := locks lm; pending_tx_proposals := pending_tx_proposals lm;
               pending_tx_acceptances :=
                 store_pending (pending_tx_acceptances lm) dialogue msg_id tx |}.

(** Modelled from the spec: "inserts under key = tx id; fails with
    DuplicateLockError if a lock with that id already exists". *)
Definition LockManager_add_lock (tx : Transaction) (as_seller : bool)
    : M LockManager unit :=
  lm ← get_state;
  if has_lock (transaction_id tx) lm then raise DuplicateLockError
  else put_state {| locks := locks lm ++ [(transaction_id tx, (as_seller, tx))];
                    pending_tx_proposals := pending_tx_proposals lm;
                    pending_tx_acceptances := pending_tx_acceptances lm |}.

(** Modelled from the spec: "removes and returns a lock, or is a no-op
    returning nothing if absent". *)
Definition LockManager_pop_lock (transaction_id : string) : M LockManager unit :=
  lm ← get_state;
  put_state {| locks := filter (λ kv, kv.1 ≠ transaction_id) (locks lm);
               pending_tx_proposals := pending_tx_proposals lm;
               pending_tx_acceptances := pending_tx_acceptances lm |}.

(** The transactions locked in the given role, in the order in which
    the locks were taken. *)
Definition locks_for_role (as_seller : bool) (lm : LockManager) : list Transaction :=
  (filter (λ kv, kv.2.1 = as_seller) (locks lm)).*2.*2.

(** ** The negotiation behaviour: [FIPABehaviour] *)

(** The state that the handlers work on: the key of the agent
    ([self.crypto.public_key]), the object store, and the attributes of
    the game instance that the handlers use. *)
Record GameInstance : Type := {
  crypto_public_key : string;
  store : heap;
  _agent_state : ref;
  game_configuration : GameConfiguration;
  controller_pbk : string;
  is_world_modeling : bool;
  lock_manager : LockManager;
  world_state : WorldState;
}.

Definition with_store (gi : GameInstance) (h : heap) : GameInstance :=
  {| crypto_public_key := crypto_public_key gi; store := h;
     _agent_state := _agent_state gi; game_configuration := game_configuration gi;
     controller_pbk := controller_pbk gi; is_world_modeling := is_world_modeling gi;
     lock_manager := lock_manager gi; world_state := world_state gi |}.

Definition with_lock_manager (gi : GameInstance) (lm : LockManager) : GameInstance :=
  {| crypto_public_key := crypto_public_key gi; store := store gi;
     _agent_state := _agent_state gi; game_configuration := game_configuration gi;
     controller_pbk := controller_pbk gi; is_world_modeling := is_world_modeling gi;
     lock_manager := lm; world_state := world_state gi |}.

Definition with_world_state (gi : GameInstance) (ws : WorldState) : GameInstance :=
  {| crypto_public_key := crypto_public_key gi; store := store gi;
     _agent_state := _agent_state gi; game_configuration := game_configuration gi;
     controller_pbk := controller_pbk gi; is_world_modeling := is_world_modeling gi;
     lock_manager := lock_manager gi; world_state := ws |}.

(** A method call on an attribute of the game instance: the method runs
    on that attribute and its writes stay in it. *)
Definition on_store {A} (m : M heap A) : M GameInstance A := λ gi,
  let '(h, r) := m (store gi) in (with_store gi h, r).

Definition on_lock_manager {A} (m : M LockManager A) : M GameInstance A := λ gi,
  let '(lm, r) := m (lock_manager gi) in (with_lock_manager gi lm, r).

Definition on_world_state {A} (m : M WorldState A) : M GameInstance A := λ gi,
  let '(ws, r) := m (world_state gi) in (with_world_state gi ws, r).

(** The messages of the protocol: [msg_id], [dialogue_id], [destination]
    and [target]. *)
Record Message : Type := {
  msg_id : Z;
  dialogue_id : Z;
  destination : string;
  target : Z;
}.

(** What a handler sends: [Accept], [Decline], or a [ByteMessage] with a
    serialized transaction. *)
Inductive Response : Type :=
| Accept (msg_id dialogue_id : Z) (destination : string) (target : Z)
| Decline (msg_id dialogue_id : Z) (destination : string) (target : Z)
| ByteMessage (msg_id dialogue_id : Z) (destination : string) (payload : string).

(** The value returned by [on_accept]: one message, or a list of
    messages. *)
Inductive Outbound : Type :=
| One (r : Response)
| Several (l : list Response).

Section behaviour.

Context `{Helpers}.

(** Modelled from the spec: [GameInstance.state_after_locks] is not part
    of the sources at hand; it is the "current ledger state with all
    currently held locks for this role hypothetically applied", an
    [apply] of those transactions to the agent state. *)
Definition state_after_locks (is_seller : bool) : M GameInstance ref :=
  gi ← get_state;
  let transactions := locks_for_role is_seller (lock_manager gi) in
  on_store (AgentStateObj.apply (_agent_state gi) transactions
              (tx_fee (game_configuration gi))).

(** [FIPABehaviour._is_profitable_transaction]. *)
Definition _is_profitable_transaction (transaction : Transaction)
    (dialogue : Dialogue) : M GameInstance bool :=
  state_after_locks ← state_after_locks (is_seller dialogue);
  gi ← get_state;
  let fee := tx_fee (game_configuration gi) in
  consistent ← on_store (AgentStateObj.check_transaction_is_consistent
                          state_after_locks transaction fee);
  if negb consistent then mret false
  else
    proposal_delta_score ← on_store (AgentStateObj.get_score_diff_from_transaction
                                      state_after_locks transaction fee);
    let result := bool_decide (0 ≤ proposal_delta_score)%Qc in
    mret result.

(** [FIPABehaviour.on_propose]. *)
Definition on_propose (proposals : list Proposal) (propose : Message)
    (dialogue : Dialogue) : M GameInstance Response :=
  gi ← get_state;
  proposal ← lift (list_getitem proposals 0);
  let transaction_id := generate_transaction_id (crypto_public_key gi)
                          (destination propose) (dialogue_id propose) (is_seller dialogue) in
  let transaction := Transaction_from_proposal proposal transaction_id
                       (negb (is_seller dialogue)) (destination propose)
                       (crypto_public_key gi) in
  let new_msg_id := msg_id propose + 1 in
  profitable ← _is_profitable_transaction transaction dialogue;
  if (profitable : bool) then
    on_lock_manager (LockManager_add_lock transaction (is_seller dialogue)) ;;
    on_lock_manager (LockManager_add_pending_acceptances dialogue new_msg_id transaction) ;;
    mret (Accept new_msg_id (dialogue_id propose) (destination propose) (msg_id propose))
  else
    mret (Decline new_msg_id (dialogue_id propose) (destination propose) (msg_id propose)).

(** [FIPABehaviour.on_decline]. *)
Definition on_decline (decline : Message) (dialogue : Dialogue) : M GameInstance unit :=
  gi ← get_state;
  (if is_world_modeling gi then
     if is_pending (pending_tx_proposals (lock_manager gi)) dialogue (target decline) then
       transaction ← on_lock_manager
                       (LockManager_pop_pending_proposal dialogue (target decline));
       on_world_state (WorldState_call "update_on_decline" transaction)
     else mret tt
   else mret tt) ;;
  gi ← get_state;
  let transaction_id := generate_transaction_id (crypto_public_key gi)
                          (destination decline) (dialogue_id decline) (is_seller dialogue) in
  if has_lock transaction_id (lock_manager gi)
  then on_lock_manager (LockManager_pop_lock transaction_id)
  else mret tt.

(** [FIPABehaviour._on_initial_accept]. *)
Definition _on_initial_accept (accept : Message) (dialogue : Dialogue)
    : M GameInstance Outbound :=
  transaction ← on_lock_manager
                  (LockManager_pop_pending_proposal dialogue (target accept));
  let new_msg_id := msg_id accept + 1 in
  profitable ← _is_profitable_transaction transaction dialogue;
  if (profitable : bool) then
    gi ← get_state;
    (if is_world_modeling gi
     then on_world_state (WorldState_call "update_on_accept" transaction)
     else mret tt) ;;
    on_lock_manager (LockManager_add_lock transaction (is_seller dialogue)) ;;
    gi ← get_state;
    mret (Several
      [ByteMessage new_msg_id (dialogue_id accept) (controller_pbk gi)
         (Transaction_serialize transaction);
       Accept new_msg_id (dialogue_id accept) (destination accept) (msg_id accept)])
  else
    mret (One (Decline new_msg_id (dialogue_id accept) (destination accept) (msg_id accept))).

(** [FIPABehaviour._on_match_accept]. *)
Definition _on_match_accept (accept : Message) (dialogue : Dialogue)
    : M GameInstance Outbound :=
  transaction ← on_lock_manager
                  (LockManager_pop_pending_acceptances dialogue (target accept));
  gi ← get_state;
  mret (One (ByteMessage (msg_id accept + 1) (dialogue_id accept) (controller_pbk gi)
               (Transaction_serialize transaction))).

(** [FIPABehaviour.on_accept]. *)
Definition on_accept (accept : Message) (dialogue : Dialogue) : M GameInstance Outbound :=
  gi ← get_state;
  if is_pending (pending_tx_acceptances (lock_manager gi)) dialogue (target accept)
  then _on_match_accept accept dialogue
  else _on_initial_accept accept dialogue.

End behaviour.

(** ** A worked negotiation

    Agent 1 of the game of the docstrings, selling one unit of good 0 to
    agent 0 for 15: it has sent a [Propose] (message 2 of dialogue 7) and
    keeps the transaction as a pending proposal. *)

Module Scenario.

(** An instance of the helpers for the worked examples: a goods score
    that is linear in the holdings stands in for the logarithmic utility,
    a transaction id made of the two keys, and proposals that carry their
    price and quantities. *)
Definition helpers : Helpers :=
  {| logarithmic_utility := λ u h,
       foldr Qcplus 0%Qc (zip_with (λ ui hi, ui * Qc_of_Z hi)%Qc u h);
     generate_transaction_id := λ pbk counterparty dialogue_id is_seller,
       (pbk +:+ "_" +:+ counterparty +:+ (if is_seller then "_seller" else "_buyer"))%string;
     Proposal := (Qc * list (string * Z))%type;
     Transaction_from_proposal := λ proposal transaction_id is_buyer counterparty sender,
       {| transaction_id := transaction_id; is_sender_buyer := is_buyer;
          counterparty := counterparty; amount := proposal.1;
          quantities_by_good_pbk := proposal.2; sender := sender |};
     Transaction_serialize := transaction_id |}.

Definition dialogue : Dialogue :=
  {| dialogue_label := ("tac_agent_1_pbk", "tac_agent_0_pbk", 7)%string;
     is_seller := true |}.

Definition transaction : Transaction :=
  {| transaction_id := "tac_agent_1_pbk_tac_agent_0_pbk_seller";
     is_sender_buyer := false;
     counterparty := "tac_agent_0_pbk"; amount := Qc_of_Z 15;
     quantities_by_good_pbk := [("tac_good_0", 1); ("tac_good_1", 0); ("tac_good_2", 0)]%string;
     sender := "tac_agent_1_pbk" |}.

Definition game_instance (world_modeling : bool) : GameInstance :=
  {| crypto_public_key := "tac_agent_1_pbk";
     store := [PyListFloat (map Qc_of_Z [10; 50; 40]); PyListInt [2; 1; 1];
               PyAgentState (Qc_of_Z 20) 0 1];
     _agent_state := 2%nat;
     game_configuration := Doctest.game_configuration;
     controller_pbk := "tac_controller_pbk";
     is_world_modeling := world_modeling;
     lock_manager :=
       {| locks := [];
          pending_tx_proposals := {[ dialogue_label dialogue := {[ 2 := transaction ]} ]};
          pending_tx_acceptances := ∅ |};
     world_state := DoctestBeliefs.world_state |}.

(** The counterparty's answers to the proposal. *)
Definition decline : Message :=
  {| msg_id := 3; dialogue_id := 7; destination := "tac_agent_0_pbk"; target := 2 |}.

Definition accept : Message :=
  {| msg_id := 3; dialogue_id := 7; destination := "tac_agent_0_pbk"; target := 2 |}.

(** A proposal of agent 0 that agent 1 would lose on: all its holdings
    of good 1 for nothing. *)
Definition bad_proposal : Qc * list (string * Z) :=
  (0%Qc, [("tac_good_0", 0); ("tac_good_1", 1); ("tac_good_2", 0)]%string).

(** A proposal of agent 0 that agent 1 gains on: 15 for one unit of
    good 0. *)
Definition good_proposal : Qc * list (string * Z) :=
  (Qc_of_Z 15, [("tac_good_0", 1); ("tac_good_1", 0); ("tac_good_2", 0)]%string).

Definition propose : Message :=
  {| msg_id := 2; dialogue_id := 8; destination := "tac_agent_0_pbk"; target := 1 |}.

(** The same proposal as a transaction of agent 1, and agent 1 keeping
    it as its pending proposal. *)
Definition bad_transaction : Transaction :=
  {| transaction_id := "tac_agent_1_pbk_tac_agent_0_pbk_seller";
     is_sender_buyer := false;
     counterparty := "tac_agent_0_pbk"; amount := 0%Qc;
     quantities_by_good_pbk := bad_proposal.2;
     sender := "tac_agent_1_pbk" |}.

Definition game_instance_bad : GameInstance :=
  with_lock_manager (game_instance false)
    {| locks := [];
       pending_tx_proposals := {[ dialogue_label dialogue := {[ 2 := bad_transaction ]} ]};
       pending_tx_acceptances := ∅ |}.

(** The counterparty's [Accept] of the answer to [propose]. *)
Definition match_accept : Message :=
  {| msg_id := 4; dialogue_id := 8; destination := "tac_agent_0_pbk"; target := 3 |}.

End Scenario.

(** ** The life cycle of an agent: [Agent] of [tac/aea/agent.py] and of
    [tac/agents/v1/agent.py] *)

Module Lifecycle.

(** [ValueError], the only exception that [agent_state] names. *)
Inductive error : Type := ValueError.

(** The enumeration [AgentState] of the two agent modules. *)
Inductive AgentState : Type := INITIATED | CONNECTED | RUNNING.

(** Of the mailbox the property reads [is_connected] only; the value is
    the one the mailbox has during the call. *)
Record MailBox : Type := { is_connected : bool }.

Record Liveness : Type := { _is_stopped : bool }.

Definition is_stopped (l : Liveness) : bool := _is_stopped l.

(** The attributes of [Agent] that [agent_state] reads: the mailbox
    ([None] until one is set) and the liveness. *)
Record Agent : Type := {
  mailbox : option MailBox;
  liveness : Liveness;
}.

(** The property [Agent.agent_state]; [or] and [and] evaluate their
    right operand only when needed, so [is_connected] is never read on
    [None]. *)
Definition agent_state (self : Agent) : error + AgentState :=
  match mailbox self with
  | None => inr INITIATED
  | Some mail =>
      if negb (is_connected mail) then inr INITIATED
      else if is_connected mail && is_stopped (liveness self) then inr CONNECTED
      else if is_connected mail && negb (is_stopped (liveness self)) then inr RUNNING
      else inl ValueError
  end.

(** [Agent.__init__]: no mailbox, stopped. *)
Definition __init__ : Agent :=
  {| mailbox := None; liveness := {| _is_stopped := true |} |}.

End Lifecycle.

(** ** Definitions used to state the properties of the ledger *)

(** The sum of the positive traded quantities. *)
Definition sum_positive (qs : list Z) : Z := sum_list (filter (λ q, 0 < q) qs).

(** The holding of a good by position, [0] beyond the end of the list. *)
Definition holding (st : AgentState) (i : nat) : Z :=
  default 0 (_current_holdings st !! i).

(** The money held by all agents together. *)
Definition sum_balances (m : gmap string AgentState) : Qc :=
  map_fold (λ _ st acc, balance st + acc)%Qc 0%Qc m.

Definition total_balance (g : Game) : Qc := sum_balances (agent_states g).

(** The units of the good at position [i] held by all agents together. *)
Definition sum_holdings (i : nat) (m : gmap string AgentState) : Z :=
  map_fold (λ _ st acc, holding st i + acc) 0 m.

Definition total_holding (g : Game) (i : nat) : Z := sum_holdings i (agent_states g).

(** The good [good_pbk] is traded in a positive quantity by [tx]. *)
Definition traded_positive (tx : Transaction) (good_pbk : string) : Prop :=
  ∃ q, (good_pbk, q) ∈ quantities_by_good_pbk tx ∧ 0 < q.

(** The effect of the loop of [settle_transaction] in closed form: the
    agent states after the holdings of the goods [good_id, good_id + 1, ...]
    have been moved, and the good states after the prices have been
    recorded. *)
Definition iadd_at (good_id : nat) (delta : Z) (st : AgentState) : AgentState :=
  set_current_holdings (alter (λ h, h + delta) good_id) st.

Fixpoint trade_goods (buyer seller : string) (good_id : nat) (qs : list Z)
    (m : gmap string AgentState) : gmap string AgentState :=
  match qs with
  | [] => m
  | q :: rest =>
      trade_goods buyer seller (S good_id) rest
        (alter (iadd_at good_id (- q)) seller (alter (iadd_at good_id q) buyer m))
  end.

Fixpoint price_goods (p : Qc) (items : list (string * Z))
    (gs : gmap string GoodState) : gmap string GoodState :=
  match items with
  | [] => gs
  | (good_pbk, q) :: rest =>
      price_goods p rest
        (if bool_decide (0 < q) then <[good_pbk := {| price := p |}]> gs else gs)
  end.

(** The game after [settle_transaction] has run to its end. *)
Definition settled (tx : Transaction) (g : Game) : Game :=
  let share := share_of_tx_fee (tx_fee (configuration g)) in
  {| configuration := configuration g;
     initialization := initialization g;
     transactions := transactions g ++ [tx];
     initial_agent_states := initial_agent_states g;
     agent_states :=
       alter (set_balance (λ b, b + (amount tx - share))%Qc) (seller_pbk tx)
         (alter (set_balance (λ b, b + - (amount tx + share))%Qc) (buyer_pbk tx)
            (trade_goods (buyer_pbk tx) (seller_pbk tx) 0 (quantities tx)
               (agent_states g)));
     good_states :=
       price_goods (amount tx / Qc_of_Z (sum_list (quantities tx)))%Qc
         (quantities_by_good_pbk tx) (good_states g) |}.

(** The change of the holding at position [j] when the quantities [qs]
    are moved, with sign [sg], to the positions from [i] on. *)
Definition moved (sg : Z) (i : nat) (qs : list Z) (j : nat) : Z :=
  if decide (i ≤ j)%nat then sg * default 0 (qs !! (j - i)%nat) else 0.

(** An agent registered in [m] holds at least [n] goods positions. *)
Definition holds_positions (m : gmap string AgentState) (pbk : string) (n : nat) : Prop :=
  ∃ st, m !! pbk = Some st ∧ (n ≤ length (_current_holdings st))%nat.

(** The transactions the ledger is specified for: the counterparties
    differ and no quantity is negative (the constructor of [Transaction]
    is not part of the sources; the docstring of [is_transaction_valid]
    says that data that are not allowed, such as a negative amount, are
    rejected by an assertion), and every good it names is a good of the
    game, at a position that both agents hold. *)
Record tx_well_formed (g : Game) (tx : Transaction) : Prop := {
  wf_distinct : buyer_pbk tx ≠ seller_pbk tx;
  wf_quantities : Forall (λ q, 0 ≤ q) (quantities tx);
  wf_goods : ∀ good_pbk q, (good_pbk, q) ∈ quantities_by_good_pbk tx → 0 < q →
             is_Some (good_states g !! good_pbk);
  wf_buyer : holds_positions (agent_states g) (buyer_pbk tx) (length (quantities tx));
}.

(** [preserves R m]: whatever the outcome of [m], the state it stops in
    is related by [R] to the state it started from. *)
Definition preserves {S A} (R : relation S) (m : M S A) : Prop :=
  ∀ s s' r, m s = (s', r) → R s s'.

(** The parts of a game that only the constructor and the log append
    write. *)
Definition same_static (g g' : Game) : Prop :=
  configuration g' = configuration g
  ∧ initialization g' = initialization g
  ∧ initial_agent_states g' = initial_agent_states g
  ∧ transactions g' = transactions g.

(** Only the object store differs between two states of a game
    instance. *)
Definition store_only (gi gi' : GameInstance) : Prop := gi' = with_store gi (store gi').

(** An agent-state object that was allocated, together with its
    holdings list, after the first [n] objects of the store. *)
Definition fresh_agent (n : nat) (h : heap) (l : ref) : Prop :=
  ∃ b up hl, h !! l = Some (PyAgentState b up hl) ∧ (n ≤ l)%nat ∧ (n ≤ hl)%nat.

(** Between two states of a game instance nothing has changed but the
    object store, and the store has only grown: every object that was in
    it is still there, unchanged. *)
Definition store_grows (gi gi' : GameInstance) : Prop :=
  store_only gi gi' ∧ store gi `prefix_of` store gi'.

(** No agent holds a negative number of units of a good. *)
Definition holdings_nonneg (g : Game) : Prop :=
  ∀ pbk st, agent_states g !! pbk = Some st →
    Forall (λ h, 0 ≤ h) (_current_holdings st).

(** A game with a fee of 0.125: the game of the docstrings otherwise. *)
Module EighthFee.

Definition game_configuration : GameConfiguration :=
  {| nb_agents := 3; nb_goods := 3; tx_fee := Q2Qc (1 # 8);
     agent_pbk_to_name := agent_pbk_to_name Doctest.game_configuration;
     good_pbk_to_name := good_pbk_to_name Doctest.game_configuration |}.

Definition game : Game :=
  match Game_init game_configuration Doctest.game_initialization with
  | inr g => g
  | inl _ => Doctest.game
  end.

Definition game_after : Game := (settle_transaction Doctest.tx game).1.

End EighthFee.

(** The agent state that the constructor of [Game] builds from row [k]
    of the initialization. *)
Definition initial_state (i : GameInitialization) (k : nat) : option AgentState :=
  money ← initial_money_amounts i !! k;
  endowment ← endowments i !! k;
  params ← utility_params i !! k;
  Some {| balance := Qc_of_Z money; _utility_params := params;
          _current_holdings := endowment |}.

(** The game of the docstrings with twice the money for every agent. *)
Module DoubleMoney.

Definition game_initialization : GameInitialization :=
  {| initial_money_amounts := [40; 40; 40];
     endowments := endowments Doctest.game_initialization;
     utility_params := utility_params Doctest.game_initialization;
     eq_prices := eq_prices Doctest.game_initialization;
     eq_good_holdings := eq_good_holdings Doctest.game_initialization;
     eq_money_holdings := eq_money_holdings Doctest.game_initialization |}.

Definition game : Game :=
  match Game_init Doctest.game_configuration game_initialization with
  | inr g => g
  | inl _ => Doctest.game
  end.

End DoubleMoney.

(** ** Definitions used to state the profitability check

    The value of an agent-state object, and the locked state, the
    consistency and the score delta of the specification as functions of
    values. *)

(** The object at [l] is a well-formed agent state with the value [st]. *)
Definition repr (h : heap) (l : ref) (st : AgentState) : Prop :=
  ∃ up hl, h !! l = Some (PyAgentState (balance st) up hl)
         ∧ h !! up = Some (PyListFloat (_utility_params st))
         ∧ h !! hl = Some (PyListInt (_current_holdings st))
         ∧ length (_current_holdings st) = length (_utility_params st).







(** * Worked examples *)

Example py_round_half_fee : share_of_tx_fee (Qc_of_Z 1) = Q2Qc (1 # 2).
Proof. apply Qc_is_canon. vm_compute. reflexivity. Qed.


Module DoctestFacts.
Import Doctest.

Example configuration_consistent :
  GameConfiguration_check_consistency game_configuration = true
  ∧ GameInitialization_check_consistency game_initialization = Ok tt.
Proof. split; vm_compute; reflexivity. Qed.

Example before_settlement :
  observe game "tac_agent_0_pbk" = Some (20 # 1, [1; 1; 1])
  ∧ observe game "tac_agent_1_pbk" = Some (20 # 1, [2; 1; 1])
  ∧ observe game "tac_agent_2_pbk" = Some (20 # 1, [1; 1; 2]).
Proof. vm_compute. done. Qed.

(** The doctest of [settle_transaction]: [(4.5, [2, 1, 1])] and
    [(34.5, [1, 1, 1])]. *)
Example after_settlement :
  (settle_transaction tx game).2 = Ok tt
  ∧ observe game_after "tac_agent_0_pbk" = Some (9 # 2, [2; 1; 1])
  ∧ observe game_after "tac_agent_1_pbk" = Some (69 # 2, [1; 1; 1])
  ∧ price <$> good_states game_after !! "tac_good_0" = Some (Qc_of_Z 15)
  ∧ price <$> good_states game_after !! "tac_good_1" = Some 0%Qc.
Proof. vm_compute. done. Qed.

End DoctestFacts.

(** * Properties of the ledger *)

Ltac unfold_monad :=
  unfold mbind, M_bind, mret, M_ret, result_bind, result_ret,
    get_state, put_state, lift, raise, py_assert, result in *.

Section validity.

Implicit Types (g : Game) (tx : Transaction).

Lemma list_getitem_Ok {A} (l : list A) i x :
  list_getitem l i = Ok x ↔ l !! i = Some x.
Proof. unfold list_getitem. destruct (l !! i); split; congruence. Qed.

Lemma dict_getitem_Ok {A} (d : gmap string A) k x :
  dict_getitem d k = Ok x ↔ d !! k = Some x.
Proof. unfold dict_getitem. destruct (d !! k); split; congruence. Qed.

(** The loop of [is_transaction_valid] answers [True] exactly when
    every enumerated quantity is covered by the holding at its
    position. *)
Lemma enough_holdings_true (hs : list Z) (qs : list Z) (i : nat) :
  enough_holdings hs i qs = Ok true ↔
  ∀ (j : nat) q, qs !! j = Some q → ∃ h, hs !! (i + j)%nat = Some h ∧ q ≤ h.
Proof.
  revert i. induction qs as [|q qs IH]; intros i; simpl.
  - split; [intros _ j q' Hj; by rewrite lookup_nil in Hj | done].
  - unfold list_getitem. destruct (hs !! i) as [h|] eqn:Hi; simpl.
    + case_bool_decide as Hlt.
      * split; [done|]. intros H. destruct (H 0%nat q eq_refl) as (h' & Hh' & Hle).
        rewrite Nat.add_0_r, Hi in Hh'. simplify_eq. lia.
      * rewrite IH. split.
        -- intros H [|j] q' Hj; simpl in Hj.
           ++ simplify_eq. rewrite Nat.add_0_r. exists h. split; [done|lia].
           ++ replace (i + S j)%nat with (S i + j)%nat by lia. by apply H.
        -- intros H j q' Hj. replace (S i + j)%nat with (i + S j)%nat by lia.
           by apply H.
    + split; [done|]. intros H. destruct (H 0%nat q eq_refl) as (h' & Hh' & _).
      rewrite Nat.add_0_r, Hi in Hh'. done.
Qed.

(** [is_transaction_valid] only reads the game. *)
Lemma is_transaction_valid_pure tx g : (is_transaction_valid tx g).1 = g.
Proof.
  unfold is_transaction_valid. unfold_monad. simpl.
  destruct (dict_getitem _ (buyer_pbk tx)); simpl; [done|].
  case_bool_decide; simpl; [done|].
  destruct (dict_getitem _ (seller_pbk tx)); simpl; done.
Qed.

Lemma is_transaction_valid_eq tx g r :
  (is_transaction_valid tx g).2 = r → is_transaction_valid tx g = (g, r).
Proof.
  intros <-. pose proof (is_transaction_valid_pure tx g) as H.
  destruct (is_transaction_valid tx g) as [g' r]. simpl in *. by subst.
Qed.

(** What a [True] answer means, with no assumption on the game. *)
Lemma is_transaction_valid_true tx g :
  is_transaction_valid tx g = (g, Ok true) ↔
  ∃ b s, agent_states g !! buyer_pbk tx = Some b
       ∧ agent_states g !! seller_pbk tx = Some s
       ∧ (amount tx + share_of_tx_fee (tx_fee (configuration g)) ≤ balance b)%Qc
       ∧ ∀ (i : nat) q, quantities tx !! i = Some q →
           ∃ h, _current_holdings s !! i = Some h ∧ q ≤ h.
Proof.
  unfold is_transaction_valid. unfold_monad. simpl.
  unfold dict_getitem at 1.
  destruct (agent_states g !! buyer_pbk tx) as [b|] eqn:Hb; simpl;
    [|split; [done|intros (? & ? & ? & _); done]].
  case_bool_decide as Hbal; simpl.
  { split; [done|]. intros (b' & s & ? & _ & Hle & _). simplify_eq.
    exfalso. by apply Qclt_not_le in Hbal. }
  unfold dict_getitem.
  destruct (agent_states g !! seller_pbk tx) as [s|] eqn:Hs; simpl;
    [|split; [done|intros (? & ? & _ & ? & _); simplify_eq]].
  split.
  - intros H. exists b, s. split_and!; try done.
    + by apply Qcnot_lt_le.
    + assert (enough_holdings (current_holdings s) 0 (quantities tx) = Ok true) as He
        by congruence.
      exact (proj1 (enough_holdings_true _ _ 0%nat) He).
  - intros (b' & s' & ? & ? & _ & H). simplify_eq. f_equal.
    exact (proj2 (enough_holdings_true _ _ 0%nat) H).
Qed.

End validity.


(** ** Settlement *)

Section monad_steps.

Context {S A B : Type}.
Implicit Types (m : M S A) (f : A → M S B).

Lemma bind_Ok m f s s' a : m s = (s', Ok a) → (m ≫= f) s = f a s'.
Proof. unfold mbind, M_bind. by intros ->. Qed.

Lemma bind_Raise m f s s' e : m s = (s', Raise e) → (m ≫= f) s = (s', Raise e).
Proof. unfold mbind, M_bind. by intros ->. Qed.

End monad_steps.

Lemma list_alter_lookup_insert {A} (f : A → A) (l : list A) i x :
  l !! i = Some x → alter f i l = <[i := f x]> l.
Proof.
  intros Hi. apply list_eq. intros j. destruct (decide (i = j)) as [->|Hne].
  - rewrite list_lookup_alter_eq, Hi. simpl.
    by rewrite list_lookup_insert_eq by (by eapply lookup_lt_Some).
  - by rewrite list_lookup_alter_ne, list_lookup_insert_ne.
Qed.

Lemma map_alter_lookup_insert {A} (f : A → A) (m : gmap string A) k x :
  m !! k = Some x → alter f k m = <[k := f x]> m.
Proof.
  intros Hk. apply map_eq. intros j. destruct (decide (k = j)) as [->|Hne].
  - by rewrite lookup_alter_eq, lookup_insert_eq, Hk.
  - by rewrite lookup_alter_ne, lookup_insert_ne.
Qed.

Lemma holds_positions_alter m pbk n k i d :
  holds_positions m pbk n → holds_positions (alter (iadd_at i d) k m) pbk n.
Proof.
  intros (st & Hst & Hn). destruct (decide (k = pbk)) as [->|Hne].
  - exists (iadd_at i d st). rewrite lookup_alter_eq, Hst. split; [done|].
    simpl. by rewrite length_alter.
  - exists st. by rewrite lookup_alter_ne.
Qed.

Lemma holds_positions_le m pbk n n' :
  (n' ≤ n)%nat → holds_positions m pbk n → holds_positions m pbk n'.
Proof. intros Hle (st & Hst & Hn). exists st. split; [done|lia]. Qed.

(** One in-place addition on a holdings list. *)
Lemma holdings_iadd_Ok pbk i d g :
  holds_positions (agent_states g) pbk (S i) →
  holdings_iadd pbk i d g = (set_agent_states (alter (iadd_at i d) pbk) g, Ok tt).
Proof.
  intros (st & Hst & Hn).
  destruct (lookup_lt_is_Some_2 (_current_holdings st) i) as [h Hh]; [lia|].
  unfold holdings_iadd. unfold_monad. simpl.
  unfold dict_getitem. rewrite Hst. simpl.
  unfold list_getitem. rewrite Hh. simpl.
  f_equal. unfold set_agent_states. f_equal.
  rewrite (map_alter_lookup_insert _ _ _ st) by done. f_equal.
  unfold iadd_at, set_current_holdings. f_equal.
  by rewrite (list_alter_lookup_insert _ _ _ h).
Qed.

Lemma set_good_price_Ok good_pbk p g :
  is_Some (good_states g !! good_pbk) →
  set_good_price good_pbk p g
  = (set_good_states (insert good_pbk {| price := p |}) g, Ok tt).
Proof.
  intros [gs Hgs]. unfold set_good_price. unfold_monad. simpl.
  unfold dict_getitem. by rewrite Hgs.
Qed.

Lemma Qc_of_Z_0 z : Qc_of_Z z = 0%Qc → z = 0.
Proof.
  unfold Qc_of_Z. change 0%Qc with (Q2Qc 0). rewrite Q2Qc_eq_iff.
  unfold Qeq. simpl. lia.
Qed.

(** The loop of [settle_transaction] runs to its end and has the closed
    form [trade_goods] / [price_goods]. *)
Lemma settle_goods_Ok tx nb items good_id g :
  holds_positions (agent_states g) (buyer_pbk tx) (good_id + length items) →
  holds_positions (agent_states g) (seller_pbk tx) (good_id + length items) →
  (∀ good_pbk q, (good_pbk, q) ∈ items → 0 < q → is_Some (good_states g !! good_pbk)) →
  (∀ good_pbk q, (good_pbk, q) ∈ items → 0 < q → nb ≠ 0) →
  settle_goods tx nb good_id items g
  = (set_good_states (price_goods (amount tx / Qc_of_Z nb)%Qc items)
       (set_agent_states
          (trade_goods (buyer_pbk tx) (seller_pbk tx) good_id items.*2) g),
     Ok tt).
Proof.
  revert good_id g. induction items as [|[good_pbk q] items IH];
    intros good_id g Hb Hs Hgoods Hnb; simpl.
  { by destruct g. }
  set (g0 := set_agent_states (alter (iadd_at good_id q) (buyer_pbk tx)) g).
  set (g1 := set_agent_states (alter (iadd_at good_id (- q)) (seller_pbk tx)) g0).
  assert (holdings_iadd (buyer_pbk tx) good_id q g = (g0, Ok tt)) as E0.
  { apply holdings_iadd_Ok. eapply holds_positions_le; [|exact Hb]. simpl. lia. }
  assert (holdings_iadd (seller_pbk tx) good_id (- q) g0 = (g1, Ok tt)) as E1.
  { apply holdings_iadd_Ok. simpl. apply holds_positions_alter.
    eapply holds_positions_le; [|exact Hs]. simpl. lia. }
  rewrite (bind_Ok _ _ _ _ _ E0), (bind_Ok _ _ _ _ _ E1).
  assert (holds_positions (agent_states g1) (buyer_pbk tx) (S good_id + length items)) as Hb1.
  { subst g1 g0. simpl. do 2 apply holds_positions_alter.
    eapply holds_positions_le; [|exact Hb]. simpl. lia. }
  assert (holds_positions (agent_states g1) (seller_pbk tx) (S good_id + length items)) as Hs1.
  { subst g1 g0. simpl. do 2 apply holds_positions_alter.
    eapply holds_positions_le; [|exact Hs]. simpl. lia. }
  assert (∀ k q', (k, q') ∈ items → 0 < q' → nb ≠ 0) as Hnb1.
  { intros k q' Hin. apply (Hnb k q'). by right. }
  case_bool_decide as Hq.
  - assert (Qc_of_Z nb ≠ 0%Qc) as Hnz.
    { intros Hz%Qc_of_Z_0. by apply (Hnb good_pbk q); [left| |]. }
    unfold py_truediv. rewrite decide_False by done.
    erewrite bind_Ok; [|erewrite bind_Ok; [|reflexivity]; apply set_good_price_Ok].
    2:{ simpl. apply (Hgoods good_pbk q); [left|done]. }
    rewrite IH; [by destruct g|done|done| |done].
    intros k q' Hin Hq'. simpl. rewrite lookup_insert.
    case_decide; [done|]. apply (Hgoods k q'); [by right|done].
  - erewrite bind_Ok; [|reflexivity].
    rewrite IH; [by destruct g|done|done| |done].
    intros k q' Hin Hq'. simpl. apply (Hgoods k q'); [by right|done].
Qed.

Lemma trade_goods_dom buyer seller i qs m k :
  is_Some (trade_goods buyer seller i qs m !! k) ↔ is_Some (m !! k).
Proof.
  revert i m. induction qs as [|q qs IH]; intros i m; simpl; [done|].
  rewrite IH. rewrite !lookup_alter_is_Some. done.
Qed.

Lemma trade_goods_holds_positions buyer seller i qs m pbk n :
  holds_positions m pbk n → holds_positions (trade_goods buyer seller i qs m) pbk n.
Proof.
  revert i m. induction qs as [|q qs IH]; intros i m H; simpl; [done|].
  apply IH. by do 2 apply holds_positions_alter.
Qed.

Lemma balance_iadd_Ok pbk d g :
  is_Some (agent_states g !! pbk) →
  balance_iadd pbk d g
  = (set_agent_states (alter (set_balance (λ b, b + d)%Qc) pbk) g, Ok tt).
Proof.
  intros [st Hst]. unfold balance_iadd. unfold_monad. simpl.
  unfold dict_getitem. rewrite Hst. simpl. f_equal.
  unfold set_agent_states. f_equal.
  by rewrite (map_alter_lookup_insert _ _ _ st).
Qed.

(** A valid transaction whose goods are known to the game, at positions
    that the buyer holds, is settled to the end. *)
Lemma settle_transaction_Ok tx g :
  (is_transaction_valid tx g).2 = Ok true →
  holds_positions (agent_states g) (buyer_pbk tx) (length (quantities tx)) →
  (∀ good_pbk q, (good_pbk, q) ∈ quantities_by_good_pbk tx → 0 < q →
     is_Some (good_states g !! good_pbk)) →
  (∀ good_pbk q, (good_pbk, q) ∈ quantities_by_good_pbk tx → 0 < q →
     sum_list (quantities tx) ≠ 0) →
  settle_transaction tx g = (settled tx g, Ok tt).
Proof.
  intros Hvalid Hb Hgoods Hnb.
  apply is_transaction_valid_eq in Hvalid.
  pose proof (proj1 (is_transaction_valid_true tx g) Hvalid)
    as (b & s & Hlb & Hls & _ & Hall).
  assert (holds_positions (agent_states g) (seller_pbk tx) (length (quantities tx))) as Hs.
  { exists s. split; [done|]. destruct (quantities tx) as [|q qs _] using rev_ind; [simpl; lia|].
    destruct (Hall (length qs) q) as (h & Hh & _).
    { by rewrite lookup_app_r, Nat.sub_diag by lia. }
    apply lookup_lt_Some in Hh. rewrite length_app. simpl. lia. }
  unfold settle_transaction.
  rewrite (bind_Ok _ _ _ _ _ Hvalid). simpl.
  do 3 (erewrite bind_Ok; [|reflexivity]).
  erewrite bind_Ok; [|unfold lift, dict_getitem; by rewrite Hlb].
  erewrite bind_Ok; [|unfold lift, dict_getitem; by rewrite Hls].
  set (g1 := set_transactions _ g).
  unfold quantities in *. rewrite length_fmap in Hb, Hs.
  erewrite bind_Ok; [|by apply settle_goods_Ok].
  set (g2 := set_good_states _ _).
  erewrite bind_Ok.
  2:{ apply balance_iadd_Ok. subst g2 g1. simpl. apply trade_goods_dom. by eexists. }
  rewrite balance_iadd_Ok.
  2:{ subst g2 g1. simpl. apply lookup_alter_is_Some, trade_goods_dom. by eexists. }
  by destruct g.
Qed.

(** ** The closed form, read pointwise *)

Lemma fmap_add_0 (o : option Z) : (λ h, h + 0) <$> o = o.
Proof. destruct o; simpl; [f_equal; lia|done]. Qed.

Lemma trade_goods_lookup_other buyer seller i qs m k :
  k ≠ buyer → k ≠ seller → trade_goods buyer seller i qs m !! k = m !! k.
Proof.
  intros Hb Hs. revert i m. induction qs as [|q qs IH]; intros i m; simpl; [done|].
  by rewrite IH, !lookup_alter_ne.
Qed.

(** When buyer and seller differ, the buyer's holdings move up and the
    seller's move down by the enumerated quantities, and nothing else of
    their states changes in the loop. *)
Lemma trade_goods_lookup buyer seller sg k i qs m st :
  buyer ≠ seller →
  (k = buyer ∧ sg = 1) ∨ (k = seller ∧ sg = -1) →
  m !! k = Some st →
  ∃ st', trade_goods buyer seller i qs m !! k = Some st'
       ∧ balance st' = balance st
       ∧ _utility_params st' = _utility_params st
       ∧ ∀ j, _current_holdings st' !! j
              = (λ h, h + moved sg i qs j) <$> _current_holdings st !! j.
Proof.
  intros Hne Hk. revert i m st. induction qs as [|q qs IH]; intros i m st Hst; simpl.
  { exists st. split_and!; try done. intros j. unfold moved.
    rewrite lookup_nil. simpl. rewrite Z.mul_0_r.
    case_decide; by rewrite fmap_add_0. }
  set (m1 := alter _ seller (alter _ buyer m)).
  assert (m1 !! k = Some (iadd_at i (sg * q) st)) as Hst1.
  { subst m1. destruct Hk as [[-> ->]|[-> ->]].
    - rewrite lookup_alter_ne by done. rewrite lookup_alter_eq, Hst. simpl.
      by rewrite Z.mul_1_l.
    - rewrite lookup_alter_eq, lookup_alter_ne by done. rewrite Hst.
      by replace (-1 * q) with (- q) by lia. }
  destruct (IH (S i) m1 _ Hst1) as (st' & Hst' & Hbal & Hup & Hhold).
  exists st'. split_and!; try done. intros j. rewrite Hhold. simpl.
  destruct (decide (i = j)) as [->|Hij].
  - rewrite list_lookup_alter_eq. unfold moved.
    rewrite decide_False, decide_True by lia. rewrite Nat.sub_diag. simpl.
    destruct (_current_holdings st !! j); simpl; [f_equal; lia|done].
  - rewrite list_lookup_alter_ne by done. unfold moved.
    destruct (decide (S i ≤ j)%nat) as [Hle|Hgt].
    + rewrite decide_True by lia.
      replace (j - i)%nat with (S (j - S i)) by lia. done.
    + by rewrite decide_False by lia.
Qed.




(** ** Sums of quantities *)

Lemma sum_list_nonneg qs : Forall (λ q, 0 ≤ q) qs → 0 ≤ sum_list qs.
Proof. induction 1; simpl; lia. Qed.


Lemma sum_list_positive qs q :
  Forall (λ q, 0 ≤ q) qs → q ∈ qs → 0 < q → 0 < sum_list qs.
Proof.
  induction 1 as [|q' qs Hq' Hall IH]; intros Hin Hq; simpl.
  { by apply elem_of_nil in Hin. }
  pose proof (sum_list_nonneg _ Hall).
  apply elem_of_cons in Hin as [->|Hin]; [lia|]. specialize (IH Hin Hq). lia.
Qed.


(** C4.  A transaction that [is_transaction_valid] rejects is not
    settled: the assertion at the head of [settle_transaction] fails
    (the [InvalidTransactionError] of the specification is Python's
    [AssertionError] raised by that [assert]) and the game is left exactly
    as it was: log, balances, holdings and prices. *)
Theorem settle_transaction_invalid (g : Game) (tx : Transaction) :
  (is_transaction_valid tx g).2 = Ok false →
  settle_transaction tx g = (g, Raise AssertionError).
Proof.
  intros H%is_transaction_valid_eq. unfold settle_transaction.
  rewrite (bind_Ok _ _ _ _ _ H). reflexivity.
Qed.

(** An exception of the validity check itself propagates in the same
    way. *)
Lemma settle_transaction_check_raises g tx e :
  (is_transaction_valid tx g).2 = Raise e →
  settle_transaction tx g = (g, Raise e).
Proof.
  intros H%is_transaction_valid_eq. unfold settle_transaction.
  by rewrite (bind_Raise _ _ _ _ _ H).
Qed.

(** ** Conservation *)

Section totals.

Context {B : Type} (op : B → B → B) (u : B) (μ : AgentState → B).
Hypothesis op_comm : ∀ a b c, op a (op b c) = op b (op a c).

Lemma total_alter f k (m : gmap string AgentState) st :
  m !! k = Some st →
  op (μ st) (map_fold (λ _ x acc, op (μ x) acc) u (alter f k m))
  = op (μ (f st)) (map_fold (λ _ x acc, op (μ x) acc) u m).
Proof using op_comm.
  intros Hk.
  rewrite (map_fold_delete_L _ _ k st m) by (intros; apply op_comm || done).
  rewrite (map_alter_lookup_insert _ _ _ st) by done.
  rewrite <-insert_delete_eq.
  rewrite map_fold_insert_L; [apply op_comm| |apply lookup_delete_eq].
  intros. apply op_comm.
Qed.

End totals.

Lemma sum_balances_alter f k m :
  (∀ st, balance (f st) = balance st) →
  sum_balances (alter f k m) = sum_balances m.
Proof.
  intros Hf. destruct (m !! k) as [st|] eqn:Hk.
  - pose proof (total_alter Qcplus 0%Qc balance
      ltac:(intros; ring) f k m st Hk) as H.
    rewrite Hf in H. unfold sum_balances.
    by apply (inj (Qcplus (balance st))) in H.
  - by rewrite alter_id'.
Qed.

Lemma sum_balances_iadd k m st d :
  m !! k = Some st →
  sum_balances (alter (set_balance (λ b, b + d)%Qc) k m) = (sum_balances m + d)%Qc.
Proof.
  intros Hk.
  pose proof (total_alter Qcplus 0%Qc balance
    ltac:(intros; ring) (set_balance (λ b, b + d)%Qc) k m st Hk) as H.
  simpl in H. fold (sum_balances m) in H.
  fold (sum_balances (alter (set_balance (λ b, b + d)%Qc) k m)) in H.
  apply (inj (Qcplus (balance st))). rewrite H. ring.
Qed.

Lemma sum_balances_trade_goods buyer seller i qs m :
  sum_balances (trade_goods buyer seller i qs m) = sum_balances m.
Proof.
  revert i m. induction qs as [|q qs IH]; intros i m; simpl; [done|].
  by rewrite IH, !sum_balances_alter.
Qed.

Lemma holding_iadd_at st i d j :
  (i < length (_current_holdings st))%nat →
  holding (iadd_at i d st) j = holding st j + (if decide (i = j) then d else 0).
Proof.
  intros Hi. unfold holding. simpl. case_decide as Hij.
  - subst j. rewrite list_lookup_alter_eq.
    destruct (lookup_lt_is_Some_2 _ _ Hi) as [h ->]. done.
  - rewrite list_lookup_alter_ne by done. lia.
Qed.

Lemma sum_holdings_iadd j k m i d n :
  holds_positions m k n → (i < n)%nat →
  sum_holdings j (alter (iadd_at i d) k m)
  = sum_holdings j m + (if decide (i = j) then d else 0).
Proof.
  intros (st & Hk & Hn) Hi.
  pose proof (total_alter Z.add 0 (λ st, holding st j)
    ltac:(intros; lia) (iadd_at i d) k m st Hk) as H.
  simpl in H. rewrite holding_iadd_at in H by lia.
  unfold sum_holdings. lia.
Qed.

(** Moving goods between two registered agents leaves the total of
    every good as it was; buyer and seller may be the same agent. *)
Lemma sum_holdings_trade_goods j buyer seller i qs m :
  holds_positions m buyer (i + length qs) →
  holds_positions m seller (i + length qs) →
  sum_holdings j (trade_goods buyer seller i qs m) = sum_holdings j m.
Proof.
  revert i m. induction qs as [|q qs IH]; intros i m Hb Hs; simpl in *; [done|].
  rewrite IH.
  - rewrite (sum_holdings_iadd j seller _ i (- q) (i + S (length qs))).
    + rewrite (sum_holdings_iadd j buyer _ i q (i + S (length qs))); [|done|lia].
      case_decide; lia.
    + by apply holds_positions_alter.
    + lia.
  - do 2 apply holds_positions_alter. eapply holds_positions_le; [|exact Hb]. lia.
  - do 2 apply holds_positions_alter. eapply holds_positions_le; [|exact Hs]. lia.
Qed.

Lemma sum_holdings_set_balance j f k m :
  sum_holdings j (alter (set_balance f) k m) = sum_holdings j m.
Proof.
  destruct (m !! k) as [st|] eqn:Hk; [|by rewrite alter_id'].
  pose proof (total_alter Z.add 0 (λ st, holding st j)
    ltac:(intros; lia) (set_balance f) k m st Hk) as H.
  unfold sum_holdings. unfold holding in *. simpl in H. lia.
Qed.

(** What settlement conserves: the money of all agents decreases by the
    two half fees that are charged, and the total of every good is
    unchanged. *)
Lemma settled_totals tx g :
  holds_positions (agent_states g) (buyer_pbk tx) (length (quantities tx)) →
  holds_positions (agent_states g) (seller_pbk tx) (length (quantities tx)) →
  let share := share_of_tx_fee (tx_fee (configuration g)) in
  total_balance (settled tx g) = (total_balance g - (share + share))%Qc
  ∧ ∀ i, total_holding (settled tx g) i = total_holding g i.
Proof.
  intros Hb Hs share. unfold total_balance, total_holding. simpl. split.
  - destruct Hb as (b & Hb & _). destruct Hs as (s & Hs & _).
    assert (is_Some (trade_goods (buyer_pbk tx) (seller_pbk tx) 0 (quantities tx)
                       (agent_states g) !! buyer_pbk tx)) as [b1 Hb1]
      by (apply trade_goods_dom; by eexists).
    assert (is_Some (alter (set_balance (λ x, x + - (amount tx + share))%Qc) (buyer_pbk tx)
              (trade_goods (buyer_pbk tx) (seller_pbk tx) 0 (quantities tx)
                 (agent_states g)) !! seller_pbk tx)) as [s1 Hs1]
      by (apply lookup_alter_is_Some, trade_goods_dom; by eexists).
    rewrite (sum_balances_iadd _ _ s1) by done.
    rewrite (sum_balances_iadd _ _ b1) by done.
    rewrite sum_balances_trade_goods. subst share. ring.
  - intros i. rewrite !sum_holdings_set_balance.
    by apply sum_holdings_trade_goods.
Qed.


Lemma round_half_even_of_Z k : round_half_even (Qc_of_Z k) = k.
Proof.
  unfold round_half_even, Qc_of_Z. simpl.
  rewrite Qred_identity by (simpl; apply Z.gcd_1_r). simpl.
  rewrite Z.div_1_r, Z.mod_1_r. simpl. done.
Qed.

Lemma Qc_of_Z_neq_0 z : z ≠ 0 → Qc_of_Z z ≠ 0%Qc.
Proof. intros Hz Hq%Qc_of_Z_0. done. Qed.

Lemma py_round_hundredths k :
  py_round (Qc_of_Z k / Qc_of_Z 100)%Qc 2 = (Qc_of_Z k / Qc_of_Z 100)%Qc.
Proof.
  unfold py_round. change (Qc_of_Z (10 ^ Z.of_nat 2)) with (Qc_of_Z 100).
  pose proof (Qc_of_Z_neq_0 100 ltac:(done)) as Hc.
  generalize dependent (Qc_of_Z 100). intros c Hc.
  replace (Qc_of_Z k / c * c)%Qc with (Qc_of_Z k) by (by field).
  by rewrite round_half_even_of_Z.
Qed.

(** When the fee is a whole number of 0.02, halving it needs no rounding
    and the two shares add up to the fee. *)
Lemma share_of_tx_fee_exact k :
  let fee := (Qc_of_Z k / Qc_of_Z 50)%Qc in
  (share_of_tx_fee fee + share_of_tx_fee fee)%Qc = fee.
Proof.
  intros fee. unfold share_of_tx_fee.
  assert (Qc_of_Z 100 = Qc_of_Z 50 * Qc_of_Z 2)%Qc as E100 by (by apply Qc_is_canon).
  assert (Qc_of_Z 2 = 1 + 1)%Qc as E2 by (by apply Qc_is_canon).
  pose proof (Qc_of_Z_neq_0 50 ltac:(done)) as Hc.
  replace (fee / Qc_of_Z 2)%Qc with (Qc_of_Z k / Qc_of_Z 100)%Qc.
  - rewrite py_round_hundredths. subst fee. rewrite E100, E2.
    generalize dependent (Qc_of_Z 50). intros c _ Hc.
    generalize (Qc_of_Z k). intros x. by field.
  - subst fee. rewrite E100, E2.
    generalize dependent (Qc_of_Z 50). intros c _ Hc.
    generalize (Qc_of_Z k). intros x. by field.
Qed.

(** Settlement of a valid, well-formed transaction, and the totals
    after it. *)
Lemma settle_transaction_totals g tx :
  (is_transaction_valid tx g).2 = Ok true →
  tx_well_formed g tx →
  let share := share_of_tx_fee (tx_fee (configuration g)) in
  settle_transaction tx g = (settled tx g, Ok tt)
  ∧ total_balance (settled tx g) = (total_balance g - (share + share))%Qc
  ∧ ∀ i, total_holding (settled tx g) i = total_holding g i.
Proof.
  intros Hvalid [Hne Hqs Hgoods Hb] share.
  pose proof (proj1 (is_transaction_valid_true tx g)
    (is_transaction_valid_eq _ _ _ Hvalid)) as (b & s & Hlb & Hls & _ & Hall).
  assert (holds_positions (agent_states g) (seller_pbk tx) (length (quantities tx))) as Hs.
  { exists s. split; [done|].
    destruct (quantities tx) as [|q qs _] using rev_ind; [simpl; lia|].
    destruct (Hall (length qs) q) as (h & Hh & _).
    { by rewrite lookup_app_r, Nat.sub_diag by lia. }
    apply lookup_lt_Some in Hh. rewrite length_app. simpl. lia. }
  split; [|by apply settled_totals].
  apply settle_transaction_Ok; try done.
  intros k q Hin Hq. enough (0 < sum_list (quantities tx)) by lia.
  apply (sum_list_positive _ q); [done| |done].
  unfold quantities. apply list_elem_of_fmap. by exists (k, q).
Qed.


(** When the fee is a whole number of 0.02 the two shares are the fee,
    and the money of all agents decreases by the fee. *)
Lemma settle_transaction_conserves_exact_fee g tx k :
  tx_fee (configuration g) = (Qc_of_Z k / Qc_of_Z 50)%Qc →
  (is_transaction_valid tx g).2 = Ok true →
  tx_well_formed g tx →
  ∃ g', settle_transaction tx g = (g', Ok tt)
      ∧ total_balance g' = (total_balance g - tx_fee (configuration g))%Qc.
Proof.
  intros Hfee Hvalid Hwf. exists (settled tx g).
  destruct (settle_transaction_totals g tx Hvalid Hwf) as (Hrun & Hbal & _).
  split; [done|]. rewrite Hbal, Hfee. by rewrite share_of_tx_fee_exact.
Qed.



(** ** What no settlement touches *)

Section preserves.

Context {S : Type} (R : relation S) `{!PreOrder R}.

Lemma preserves_bind {A B} (m : M S A) (f : A → M S B) :
  preserves R m → (∀ a, preserves R (f a)) → preserves R (m ≫= f).
Proof.
  intros Hm Hf s s'' r. unfold mbind, M_bind.
  destruct (m s) as [s' [e|a]] eqn:E; intros H.
  - simplify_eq. by eapply Hm.
  - transitivity s'; [by eapply Hm|by eapply Hf].
Qed.

Lemma preserves_ret {A} (a : A) : preserves R (mret a : M S A).
Proof. intros s s' r [= <- _]. reflexivity. Qed.

Lemma preserves_lift {A} (x : result A) : preserves R (lift x : M S A).
Proof. intros s s' r [= <- _]. reflexivity. Qed.

Lemma preserves_get_state : preserves R (get_state : M S S).
Proof. intros s s' r [= <- _]. reflexivity. Qed.

Lemma preserves_put_state s0 :
  (∀ s, R s s0) → preserves R (put_state s0).
Proof. intros H s s' r [= <- _]. apply H. Qed.

End preserves.

Global Instance same_static_preorder : PreOrder same_static.
Proof.
  split.
  - by intros g.
  - intros g1 g2 g3 (?&?&?&?) (?&?&?&?). unfold same_static. split_and!; congruence.
Qed.

Lemma holdings_iadd_static pbk i d : preserves same_static (holdings_iadd pbk i d).
Proof.
  intros g g' r. unfold holdings_iadd. unfold_monad. simpl.
  destruct (dict_getitem _ _); simpl; [by intros [= <- _]|].
  destruct (list_getitem _ _); simpl; by intros [= <- _].
Qed.

Lemma balance_iadd_static pbk d : preserves same_static (balance_iadd pbk d).
Proof.
  intros g g' r. unfold balance_iadd. unfold_monad. simpl.
  destruct (dict_getitem _ _); simpl; by intros [= <- _].
Qed.

Lemma set_good_price_static k p : preserves same_static (set_good_price k p).
Proof.
  intros g g' r. unfold set_good_price. unfold_monad. simpl.
  destruct (dict_getitem _ _); simpl; by intros [= <- _].
Qed.

Lemma settle_goods_static tx nb i items : preserves same_static (settle_goods tx nb i items).
Proof.
  revert i. induction items as [|[k q] items IH]; intros i; simpl.
  { apply preserves_ret, _. }
  apply preserves_bind; [apply _|apply holdings_iadd_static|intros _].
  apply preserves_bind; [apply _|apply holdings_iadd_static|intros _].
  apply preserves_bind; [apply _| |intros _; apply IH].
  case_bool_decide; [|apply preserves_ret, _].
  apply preserves_bind; [apply _|apply preserves_lift, _|intros ?].
  apply set_good_price_static.
Qed.

(** A settlement that ran to its end has appended the transaction to
    the log, and left configuration and initialization alone. *)
Lemma settle_transaction_log tx g g' :
  settle_transaction tx g = (g', Ok tt) →
  configuration g' = configuration g
  ∧ initialization g' = initialization g
  ∧ transactions g' = transactions g ++ [tx].
Proof.
  unfold settle_transaction.
  pose proof (is_transaction_valid_pure tx g) as Hpure.
  destruct (is_transaction_valid tx g) as [g1 [e|valid]] eqn:Hvalid;
    simpl in Hpure; subst g1.
  { by rewrite (bind_Raise _ _ _ _ _ Hvalid). }
  rewrite (bind_Ok _ _ _ _ _ Hvalid).
  destruct valid; [|done].
  do 3 (erewrite bind_Ok; [|reflexivity]).
  set (g1 := set_transactions _ g). intros H.
  assert (same_static g1 g') as (Hc & Hi & _ & Ht).
  { revert H. generalize (Ok tt : result ()). intros r H.
    eapply (preserves_bind same_static); [| |exact H].
    - apply preserves_lift, _.
    - intros ?. apply preserves_bind; [apply _|apply preserves_lift, _|intros ?].
      apply preserves_bind; [apply _|apply settle_goods_static|intros ?].
      apply preserves_bind; [apply _|apply balance_iadd_static|intros ?].
      apply balance_iadd_static. }
  by rewrite Hc, Hi, Ht.
Qed.

(** ** Round trip through the persistence format *)

Lemma Game_init_fields c i g :
  Game_init c i = Ok g →
  configuration g = c ∧ initialization g = i ∧ transactions g = [].
Proof.
  unfold Game_init. unfold_monad.
  destruct (build_agent_states _ _ _); [done|].
  by intros [= <-].
Qed.

Lemma Transaction_from_to_dict tx : Transaction_from_dict (Transaction_to_dict tx) = tx.
Proof. by destruct tx. Qed.

Lemma GameConfiguration_from_to_dict c :
  GameConfiguration_check_consistency c = true →
  GameConfiguration_from_dict (GameConfiguration_to_dict c) = Ok c.
Proof.
  intros Hc. unfold GameConfiguration_from_dict, GameConfiguration_init. simpl.
  destruct c. simpl in *. by rewrite Hc.
Qed.

Lemma GameInitialization_from_to_dict i :
  GameInitialization_check_consistency i = Ok tt →
  GameInitialization_from_dict (GameInitialization_to_dict i) = Ok i.
Proof.
  intros Hi. unfold GameInitialization_from_dict, GameInitialization_init. simpl.
  destruct i. simpl in *. unfold mbind, result_bind. by rewrite Hi.
Qed.

Lemma replay_app ds1 ds2 g : replay (ds1 ++ ds2) g = replay ds1 g ≫= replay ds2.
Proof.
  revert g. induction ds1 as [|d ds1 IH]; intros g; simpl; [done|].
  destruct (settle_transaction _ g) as [g' [e|[]]]; [done|]. apply IH.
Qed.

(** The log of a played game, replayed on a new game with the same
    configuration and initialization, rebuilds that very game. *)
Lemma played_replay g :
  played g →
  GameConfiguration_check_consistency (configuration g) = true
  ∧ GameInitialization_check_consistency (initialization g) = Ok tt
  ∧ ∃ g0, Game_init (configuration g) (initialization g) = Ok g0
        ∧ replay (Transaction_to_dict <$> transactions g) g0 = Ok g.
Proof.
  induction 1 as [c i g Hc Hi Hg|g tx g' _ (Hc & Hi & g0 & Hg0 & Hreplay) Hsettle].
  - destruct (Game_init_fields _ _ _ Hg) as (-> & -> & ->).
    split_and!; try done. by exists g.
  - destruct (settle_transaction_log _ _ _ Hsettle) as (-> & -> & ->).
    split_and!; try done. exists g0. split; [done|].
    rewrite fmap_app, replay_app, Hreplay. simpl.
    by rewrite Transaction_from_to_dict, Hsettle.
Qed.

Lemma dict_eq_refl d : dict_eq d d = true.
Proof. unfold dict_eq. by apply bool_decide_eq_true_2. Qed.

Lemma Game_eq_refl g : Game_eq g g = true.
Proof.
  unfold Game_eq, GameConfiguration_eq.
  rewrite !bool_decide_eq_true_2, !dict_eq_refl by done. simpl.
  induction (transactions g) as [|tx txs IH]; simpl; [done|].
  unfold Transaction_eq at 1. by rewrite bool_decide_eq_true_2, IH.
Qed.

(** C5.  For every game built by the constructor and a sequence of
    settled transactions, [from_dict (to_dict g)] returns a game, the
    replay of the log through [settle_transaction] in the original
    order rebuilds every component of [g], and the result is equal to
    [g] for [Game.__eq__]. *)
Theorem Game_from_dict_to_dict (g : Game) :
  played g →
  ∃ g', Game_from_dict (Game_to_dict g) = Ok g'
      ∧ Game_eq g' g = true
      ∧ g' = g.
Proof.
  intros (Hc & Hi & g0 & Hg0 & Hreplay)%played_replay.
  exists g. split_and!; [|apply Game_eq_refl|done].
  unfold Game_from_dict, Game_to_dict. simpl.
  rewrite GameConfiguration_from_to_dict, GameInitialization_from_to_dict by done.
  unfold mbind, result_bind. by rewrite Hg0.
Qed.

Lemma Game_from_dict_to_dict_witness :
  ∃ g', Game_from_dict (Game_to_dict Doctest.game_after) = Ok g'
      ∧ Game_eq g' Doctest.game_after = true
      ∧ g' = Doctest.game_after.
Proof.
  apply (Game_from_dict_to_dict Doctest.game_after).
  apply (played_settle Doctest.game Doctest.tx).
  - apply (played_new Doctest.game_configuration Doctest.game_initialization);
      vm_compute; reflexivity.
  - vm_compute. reflexivity.
Defined.

(** ** The properties on the game of the docstrings *)



Lemma settle_transaction_invalid_witness :
  settle_transaction Doctest.tx_too_expensive Doctest.game
  = (Doctest.game, Raise AssertionError).
Proof.
  apply (settle_transaction_invalid Doctest.game Doctest.tx_too_expensive).
  vm_compute. reflexivity.
Defined.

(** ** Holdings stay non-negative *)

(** Settling a valid, well-formed transaction keeps every holding
    non-negative: the buyer receives non-negative quantities and the
    validity check has compared what the seller gives with what it
    holds. *)
Lemma settle_transaction_holdings_nonneg g tx :
  (is_transaction_valid tx g).2 = Ok true →
  tx_well_formed g tx →
  holdings_nonneg g →
  ∃ g', settle_transaction tx g = (g', Ok tt) ∧ holdings_nonneg g'.
Proof.
  intros Hvalid Hwf Hnonneg.
  destruct (settle_transaction_totals g tx Hvalid Hwf) as (Hrun & _).
  exists (settled tx g). split; [done|].
  destruct Hwf as [Hne Hqs Hgoods Hb].
  pose proof (proj1 (is_transaction_valid_true tx g)
    (is_transaction_valid_eq _ _ _ Hvalid)) as (b & s & Hlb & Hls & _ & Hall).
  destruct (trade_goods_lookup (buyer_pbk tx) (seller_pbk tx) 1 (buyer_pbk tx) 0
    (quantities tx) _ b Hne ltac:(by left) Hlb) as (b1 & Hb1 & _ & _ & Hh1).
  destruct (trade_goods_lookup (buyer_pbk tx) (seller_pbk tx) (-1) (seller_pbk tx) 0
    (quantities tx) _ s Hne ltac:(by right) Hls) as (s1 & Hs1 & _ & _ & Hhs1).
  intros k st Hk. simpl in Hk. apply Forall_lookup. intros j x Hx.
  destruct (decide (k = seller_pbk tx)) as [->|Hks].
  - rewrite lookup_alter_eq, lookup_alter_ne, Hs1 in Hk by done.
    simpl in Hk. simplify_eq. simpl in Hx. rewrite Hhs1 in Hx.
    destruct (_current_holdings s !! j) as [h|] eqn:Hj; simplify_eq/=.
    unfold moved. rewrite decide_True by lia. rewrite Nat.sub_0_r.
    destruct (quantities tx !! j) as [q|] eqn:Hq; simpl.
    + destruct (Hall j q Hq) as (h' & Hh' & Hle). simplify_eq. lia.
    + pose proof (Hnonneg _ _ Hls) as Hs0. rewrite Forall_lookup in Hs0.
      specialize (Hs0 j h Hj). simpl in Hs0. lia.
  - rewrite lookup_alter_ne in Hk by done.
    destruct (decide (k = buyer_pbk tx)) as [->|Hkb].
    + rewrite lookup_alter_eq, Hb1 in Hk. simpl in Hk. simplify_eq.
      simpl in Hx. rewrite Hh1 in Hx.
      destruct (_current_holdings b !! j) as [h|] eqn:Hj; simplify_eq/=.
      pose proof (Hnonneg _ _ Hlb) as Hb0. rewrite Forall_lookup in Hb0.
      specialize (Hb0 j h Hj). simpl in Hb0.
      unfold moved. rewrite decide_True by lia. rewrite Nat.sub_0_r.
      destruct (quantities tx !! j) as [q|] eqn:Hq; simpl; [|lia].
      rewrite Forall_lookup in Hqs. specialize (Hqs j q Hq). simpl in Hqs. lia.
    + rewrite lookup_alter_ne in Hk by done.
      rewrite trade_goods_lookup_other in Hk by done.
      pose proof (Hnonneg _ _ Hk) as H0. rewrite Forall_lookup in H0.
      by apply (H0 j x).
Qed.

Lemma build_agent_states_nonneg i pairs acc m :
  forallb (forallb (λ e, bool_decide (0 < e))) (endowments i) = true →
  (∀ pbk st, acc !! pbk = Some st → Forall (λ h, 0 ≤ h) (_current_holdings st)) →
  build_agent_states i pairs acc = Ok m →
  ∀ pbk st, m !! pbk = Some st → Forall (λ h, 0 ≤ h) (_current_holdings st).
Proof.
  intros Hpos. revert acc. induction pairs as [|[agent_pbk k] pairs IH];
    intros acc Hacc Hbuild; simpl in Hbuild.
  { by simplify_eq. }
  unfold mbind, result_bind in Hbuild.
  destruct (list_getitem (initial_money_amounts i) k) as [|money]; [done|].
  destruct (list_getitem (endowments i) k) as [|endowment] eqn:He; [done|].
  destruct (list_getitem (utility_params i) k) as [|params]; [done|].
  unfold AgentState_init in Hbuild. case_bool_decide; [|done].
  eapply IH; [|exact Hbuild].
  intros pbk st. rewrite lookup_insert. case_decide; [|by apply Hacc].
  intros [= <-]. simpl.
  apply list_getitem_Ok in He. rewrite forallb_forall in Hpos.
  apply list_elem_of_lookup_2, list_elem_of_In, Hpos in He.
  apply Forall_forall. intros e Hin. rewrite forallb_forall in He.
  apply list_elem_of_In, He, bool_decide_eq_true in Hin. lia.
Qed.

(** A new game built from a consistent initialization holds no negative
    quantity: the endowments are asserted to be positive. *)
Lemma Game_init_holdings_nonneg c i g :
  GameInitialization_check_consistency i = Ok tt →
  Game_init c i = Ok g →
  holdings_nonneg g.
Proof.
  intros Hcheck Hinit.
  assert (forallb (forallb (λ e, bool_decide (0 < e))) (endowments i) = true) as Hpos.
  { revert Hcheck. unfold GameInitialization_check_consistency.
    destruct (forallb _ (initial_money_amounts i)); [|done]. simpl.
    by destruct (forallb _ (endowments i)). }
  revert Hinit. unfold Game_init. unfold mbind, result_bind.
  destruct (build_agent_states i _ ∅) as [|m] eqn:Hbuild; [done|].
  intros [= <-]. intros pbk st Hst. simpl in Hst.
  eapply build_agent_states_nonneg; [exact Hpos| |exact Hbuild|exact Hst].
  intros ? ?. by rewrite lookup_empty.
Qed.

(** * Properties of the belief state *)

Lemma Qc_of_Z_0_eq : Qc_of_Z 0 = 0%Qc.
Proof. by apply Qc_is_canon. Qed.

Lemma traded_units_length items :
  Z.of_nat (length (traded_units items)) = sum_positive items.*2.
Proof.
  unfold sum_positive. induction items as [|[k q] items IH]; simpl; [done|].
  rewrite length_app, Nat2Z.inj_add, IH, filter_cons. simpl.
  case_bool_decide as H1; case_decide as H2; simpl.
  - rewrite length_replicate, Z2Nat.id by lia. reflexivity.
  - done.
  - done.
  - reflexivity.
Qed.

Lemma traded_units_elem items k :
  k ∈ traded_units items ↔ ∃ q, (k, q) ∈ items ∧ 0 < q.
Proof.
  induction items as [|[k' q'] items IH]; simpl.
  { split; [by intros ?%elem_of_nil|]. by intros (q & ?%elem_of_nil & _). }
  rewrite elem_of_app, IH. split.
  - intros [Hin|(q & Hin & Hq)].
    + case_bool_decide; [|by apply elem_of_nil in Hin].
      apply elem_of_replicate in Hin as [-> _]. exists q'. split; [left|done].
    + exists q. split; [by right|done].
  - intros (q & Hin & Hq). apply elem_of_cons in Hin as [Heq|Hin].
    + simplify_eq. left. rewrite bool_decide_eq_true_2 by done.
      apply elem_of_replicate. split; [done|lia].
    + right. by exists q.
Qed.

Lemma sum_positive_nonpos qs : Forall (λ q, q ≤ 0) qs → sum_positive qs = 0.
Proof.
  unfold sum_positive. induction 1 as [|q qs Hq _ IH]; simpl; [done|].
  rewrite filter_cons. case_decide; [lia|done].
Qed.

(** C10.  For a transaction without a positive traded quantity the list
    of traded units is empty, the per-unit price is the amount divided by
    zero, and both updates of the world state fail with
    [ZeroDivisionError] instead of returning (no price model has been
    touched). *)
Theorem update_price_without_positive_quantity (ws : WorldState) (tx : Transaction) :
  Forall (λ q, q ≤ 0) (quantities tx) →
  update_on_declined_propose tx ws = (ws, Raise ZeroDivisionError)
  ∧ update_on_initial_accept tx ws = (ws, Raise ZeroDivisionError).
Proof.
  intros Hqs.
  assert (Qc_of_Z (Z.of_nat (length (traded_units (quantities_by_good_pbk tx)))) = 0%Qc) as Hz.
  { rewrite traded_units_length. fold (quantities tx).
    by rewrite sum_positive_nonpos, Qc_of_Z_0_eq. }
  unfold update_on_declined_propose, update_on_initial_accept,
    _from_transaction_update_price, py_truediv.
  rewrite Hz. by rewrite decide_True.
Qed.

(** One update of a price model that exists. *)
Lemma _update_price_Ok good_pbk p is_accepted ws model :
  good_price_models ws !! good_pbk = Some model →
  _update_price good_pbk p is_accepted ws
  = (set_good_price_models
       (insert good_pbk (GoodPriceModel_update is_accepted (py_round p 1) model)) ws,
     Ok tt).
Proof.
  intros Hm. unfold _update_price. unfold_monad. simpl.
  unfold dict_getitem. by rewrite Hm.
Qed.

Lemma update_prices_Ok good_pbks p is_accepted ws :
  NoDup good_pbks →
  (∀ k, k ∈ good_pbks → is_Some (good_price_models ws !! k)) →
  ∃ ws', update_prices good_pbks p is_accepted ws = (ws', Ok tt)
       ∧ opponent_states ws' = opponent_states ws
       ∧ ∀ k, good_price_models ws' !! k
              = if decide (k ∈ good_pbks)
                then GoodPriceModel_update is_accepted (py_round p 1)
                       <$> good_price_models ws !! k
                else good_price_models ws !! k.
Proof.
  intros Hnd. revert ws. induction Hnd as [|k0 ks Hk0 Hnd IH]; intros ws Hall; simpl.
  { exists ws. by split_and!. }
  destruct (Hall k0) as [model Hm]; [left|].
  erewrite bind_Ok; [|by apply _update_price_Ok].
  destruct (IH (set_good_price_models
    (insert k0 (GoodPriceModel_update is_accepted (py_round p 1) model)) ws))
    as (ws' & Hrun & Hopp & Hmodels).
  { intros k Hk. simpl. rewrite lookup_insert. case_decide; [done|].
    apply Hall. by right. }
  exists ws'. split_and!; try done. intros k. rewrite Hmodels. simpl.
  destruct (decide (k = k0)) as [->|Hne].
  - rewrite decide_False by done. rewrite decide_True by left.
    by rewrite lookup_insert_eq, Hm.
  - rewrite lookup_insert_ne by done.
    destruct (decide (k ∈ ks)) as [Hin|Hnin].
    + by rewrite decide_True by (by right).
    + rewrite decide_False; [done|]. by intros [?|?]%elem_of_cons.
Qed.


Lemma update_price_without_positive_quantity_witness :
  update_on_declined_propose DoctestBeliefs.tx_nothing_traded DoctestBeliefs.world_state
    = (DoctestBeliefs.world_state, Raise ZeroDivisionError)
  ∧ update_on_initial_accept DoctestBeliefs.tx_nothing_traded DoctestBeliefs.world_state
    = (DoctestBeliefs.world_state, Raise ZeroDivisionError).
Proof.
  apply (update_price_without_positive_quantity DoctestBeliefs.world_state
           DoctestBeliefs.tx_nothing_traded).
  repeat constructor; simpl; lia.
Defined.

(** * Properties of the negotiation handlers *)

Global Instance store_only_preorder : PreOrder store_only.
Proof.
  split.
  - intros gi. unfold store_only. by destruct gi.
  - intros gi1 gi2 gi3 H12 H23. unfold store_only in *.
    rewrite H23, H12. by destruct gi1.
Qed.

Lemma on_store_store_only {A} (m : M heap A) : preserves store_only (on_store m).
Proof.
  intros gi gi' r. unfold on_store. destruct (m (store gi)) as [h r'].
  intros [= <- _]. unfold store_only. by destruct gi.
Qed.

Lemma store_only_fields gi gi' :
  store_only gi gi' →
  crypto_public_key gi' = crypto_public_key gi
  ∧ _agent_state gi' = _agent_state gi
  ∧ game_configuration gi' = game_configuration gi
  ∧ controller_pbk gi' = controller_pbk gi
  ∧ is_world_modeling gi' = is_world_modeling gi
  ∧ lock_manager gi' = lock_manager gi
  ∧ world_state gi' = world_state gi.
Proof. intros ->. by destruct gi. Qed.

Section handlers.

Context `{Helpers}.

(** The profitability check writes to the object store only. *)
Lemma _is_profitable_transaction_store_only tx dialogue :
  preserves store_only (_is_profitable_transaction tx dialogue).
Proof.
  unfold _is_profitable_transaction, state_after_locks.
  apply preserves_bind; [apply _| |intros l].
  { apply preserves_bind; [apply _|apply preserves_get_state, _|intros gi].
    apply on_store_store_only. }
  apply preserves_bind; [apply _|apply preserves_get_state, _|intros gi].
  apply preserves_bind; [apply _|apply on_store_store_only|intros consistent].
  destruct consistent; simpl; [|apply preserves_ret, _].
  apply preserves_bind; [apply _|apply on_store_store_only|intros d].
  apply preserves_ret, _.
Qed.

Lemma is_pending_pop d dialogue t :
  is_pending d dialogue t = true → ∃ tx d', pop_pending d dialogue t = Ok (tx, d').
Proof.
  unfold is_pending, pop_pending.
  destruct (d !! dialogue_label dialogue) as [by_id|]; [|done].
  intros [tx Htx]%bool_decide_eq_true. rewrite Htx. by eexists _, _.
Qed.

Lemma not_pending_after_pop d dialogue t tx d' :
  pop_pending d dialogue t = Ok (tx, d') → is_pending d' dialogue t = false.
Proof.
  unfold is_pending, pop_pending.
  destruct (d !! dialogue_label dialogue) as [by_id|]; [|done].
  destruct (by_id !! t); [|done]. intros [= _ <-].
  rewrite lookup_insert_eq. apply bool_decide_eq_false. rewrite lookup_delete_eq.
  by intros [? ?].
Qed.

Lemma pop_pending_proposal_Ok gi dialogue t tx d :
  pop_pending (pending_tx_proposals (lock_manager gi)) dialogue t = Ok (tx, d) →
  on_lock_manager (LockManager_pop_pending_proposal dialogue t) gi
  = (with_lock_manager gi
       {| locks := locks (lock_manager gi); pending_tx_proposals := d;
          pending_tx_acceptances := pending_tx_acceptances (lock_manager gi) |},
     Ok tx).
Proof.
  intros Hpop. unfold on_lock_manager, LockManager_pop_pending_proposal.
  unfold_monad. simpl. by rewrite Hpop.
Qed.

Lemma pop_pending_acceptances_Ok gi dialogue t tx d :
  pop_pending (pending_tx_acceptances (lock_manager gi)) dialogue t = Ok (tx, d) →
  on_lock_manager (LockManager_pop_pending_acceptances dialogue t) gi
  = (with_lock_manager gi
       {| locks := locks (lock_manager gi);
          pending_tx_proposals := pending_tx_proposals (lock_manager gi);
          pending_tx_acceptances := d |},
     Ok tx).
Proof.
  intros Hpop. unfold on_lock_manager, LockManager_pop_pending_acceptances.
  unfold_monad. simpl. by rewrite Hpop.
Qed.

(** The world state of [game.py] has no method of the two names that
    the handlers call. *)
Lemma WorldState_call_update_on_decline tx ws :
  WorldState_call "update_on_decline" tx ws = (ws, Raise AttributeError).
Proof. reflexivity. Qed.

Lemma WorldState_call_update_on_accept tx ws :
  WorldState_call "update_on_accept" tx ws = (ws, Raise AttributeError).
Proof. reflexivity. Qed.

(** [on_decline] of an agent that keeps a belief state, for a decline
    that answers a pending proposal: the proposal is popped, and the call
    of [update_on_decline] on the world state raises; no price model is
    updated and the lock of the dialogue is not released. *)
Lemma on_decline_world_modeling gi decline dialogue :
  is_world_modeling gi = true →
  is_pending (pending_tx_proposals (lock_manager gi)) dialogue (target decline) = true →
  ∃ gi', on_decline decline dialogue gi = (gi', Raise AttributeError)
       ∧ world_state gi' = world_state gi
       ∧ locks (lock_manager gi') = locks (lock_manager gi)
       ∧ is_pending (pending_tx_proposals (lock_manager gi')) dialogue (target decline)
         = false.
Proof.
  intros Hwm Hpending.
  destruct (is_pending_pop _ _ _ Hpending) as (tx & d & Hpop).
  eexists. split.
  - unfold on_decline. erewrite bind_Ok; [|reflexivity].
    rewrite Hwm, Hpending.
    erewrite bind_Raise; [reflexivity|].
    erewrite bind_Ok; [|by apply pop_pending_proposal_Ok].
    unfold on_world_state. by rewrite WorldState_call_update_on_decline.
  - simpl. split_and!; try done. by eapply not_pending_after_pop.
Qed.

(** [on_accept], match case. *)
Lemma on_accept_match gi accept dialogue :
  is_pending (pending_tx_acceptances (lock_manager gi)) dialogue (target accept) = true →
  ∃ tx d,
    pop_pending (pending_tx_acceptances (lock_manager gi)) dialogue (target accept)
      = Ok (tx, d)
    ∧ on_accept accept dialogue gi
      = (with_lock_manager gi
           {| locks := locks (lock_manager gi);
              pending_tx_proposals := pending_tx_proposals (lock_manager gi);
              pending_tx_acceptances := d |},
         Ok (One (ByteMessage (msg_id accept + 1) (dialogue_id accept)
                    (controller_pbk gi) (Transaction_serialize tx)))).
Proof.
  intros Hpending. destruct (is_pending_pop _ _ _ Hpending) as (tx & d & Hpop).
  exists tx, d. split; [done|].
  unfold on_accept. erewrite bind_Ok; [|reflexivity]. rewrite Hpending.
  unfold _on_match_accept.
  erewrite bind_Ok; [|by apply pop_pending_acceptances_Ok].
  reflexivity.
Qed.

(** [on_accept], initial case, for a proposal that is no longer
    profitable. *)
Lemma on_accept_initial_decline gi gi1 gi2 accept dialogue tx :
  is_pending (pending_tx_acceptances (lock_manager gi)) dialogue (target accept) = false →
  on_lock_manager (LockManager_pop_pending_proposal dialogue (target accept)) gi
    = (gi1, Ok tx) →
  _is_profitable_transaction tx dialogue gi1 = (gi2, Ok false) →
  on_accept accept dialogue gi
  = (gi2, Ok (One (Decline (msg_id accept + 1) (dialogue_id accept)
                     (destination accept) (msg_id accept)))).
Proof.
  intros Hpending Hpop Hprofit.
  unfold on_accept. erewrite bind_Ok; [|reflexivity]. rewrite Hpending.
  unfold _on_initial_accept.
  erewrite bind_Ok; [|exact Hpop]. erewrite bind_Ok; [|exact Hprofit].
  reflexivity.
Qed.

(** [on_accept], initial case, for a proposal that is still profitable,
    when the agent keeps no belief state: the lock is added and two
    messages are returned. *)
Lemma on_accept_initial_accept gi gi1 gi2 accept dialogue tx :
  is_world_modeling gi = false →
  is_pending (pending_tx_acceptances (lock_manager gi)) dialogue (target accept) = false →
  on_lock_manager (LockManager_pop_pending_proposal dialogue (target accept)) gi
    = (gi1, Ok tx) →
  _is_profitable_transaction tx dialogue gi1 = (gi2, Ok true) →
  has_lock (transaction_id tx) (lock_manager gi) = false →
  ∃ gi3,
    on_accept accept dialogue gi
    = (gi3, Ok (Several
         [ByteMessage (msg_id accept + 1) (dialogue_id accept) (controller_pbk gi)
            (Transaction_serialize tx);
          Accept (msg_id accept + 1) (dialogue_id accept) (destination accept)
            (msg_id accept)]))
    ∧ locks (lock_manager gi3)
      = locks (lock_manager gi) ++ [(transaction_id tx, (is_seller dialogue, tx))].
Proof.
  intros Hwm Hpending Hpop Hprofit Hlock.
  assert (gi1 = with_lock_manager gi (lock_manager gi1)
          ∧ locks (lock_manager gi1) = locks (lock_manager gi)) as [Hgi1 Hlocks1].
  { revert Hpop. unfold on_lock_manager, LockManager_pop_pending_proposal.
    unfold_monad. simpl.
    destruct (pop_pending _ _ _) as [e|[tx' d]]; simpl; [done|].
    intros [= <- _]. split; [by destruct gi|done]. }
  pose proof (_is_profitable_transaction_store_only _ _ _ _ _ Hprofit) as Hso.
  destruct (store_only_fields _ _ Hso) as (_ & _ & _ & Hc & Hw & Hlm & _).
  assert (is_world_modeling gi2 = false) as Hwm2 by (rewrite Hw, Hgi1; by destruct gi).
  assert (controller_pbk gi2 = controller_pbk gi) as Hc2 by (rewrite Hc, Hgi1; by destruct gi).
  assert (has_lock (transaction_id tx) (lock_manager gi2) = false) as Hlock2.
  { unfold has_lock in *. by rewrite Hlm, Hlocks1. }
  eexists. split.
  - unfold on_accept. erewrite bind_Ok; [|reflexivity]. rewrite Hpending.
    unfold _on_initial_accept.
    erewrite bind_Ok; [|exact Hpop]. erewrite bind_Ok; [|exact Hprofit].
    cbv beta iota.
    erewrite bind_Ok; [|reflexivity]. rewrite Hwm2.
    erewrite bind_Ok; [|reflexivity].
    erewrite bind_Ok.
    2:{ unfold on_lock_manager, LockManager_add_lock. unfold_monad. simpl.
        rewrite Hlock2. reflexivity. }
    erewrite bind_Ok; [|reflexivity]. simpl. by rewrite Hc2.
  - simpl. by rewrite Hlm, Hlocks1.
Qed.

(** [on_accept], initial case, for a proposal that is still profitable,
    when the agent keeps a belief state: the call of [update_on_accept]
    on the world state raises before the lock is added, and nothing is
    sent. *)
Lemma on_accept_initial_world_modeling gi gi1 gi2 accept dialogue tx :
  is_world_modeling gi = true →
  is_pending (pending_tx_acceptances (lock_manager gi)) dialogue (target accept) = false →
  on_lock_manager (LockManager_pop_pending_proposal dialogue (target accept)) gi
    = (gi1, Ok tx) →
  _is_profitable_transaction tx dialogue gi1 = (gi2, Ok true) →
  on_accept accept dialogue gi = (gi2, Raise AttributeError)
  ∧ locks (lock_manager gi2) = locks (lock_manager gi).
Proof.
  intros Hwm Hpending Hpop Hprofit.
  assert (gi1 = with_lock_manager gi (lock_manager gi1)
          ∧ locks (lock_manager gi1) = locks (lock_manager gi)) as [Hgi1 Hlocks1].
  { revert Hpop. unfold on_lock_manager, LockManager_pop_pending_proposal.
    unfold_monad. simpl.
    destruct (pop_pending _ _ _) as [e|[tx' d]]; simpl; [done|].
    intros [= <- _]. split; [by destruct gi|done]. }
  pose proof (_is_profitable_transaction_store_only _ _ _ _ _ Hprofit) as Hso.
  destruct (store_only_fields _ _ Hso) as (_ & _ & _ & _ & Hw & Hlm & _).
  assert (is_world_modeling gi2 = true) as Hwm2 by (rewrite Hw, Hgi1; by destruct gi).
  split; [|by rewrite Hlm, Hlocks1].
  unfold on_accept. erewrite bind_Ok; [|reflexivity]. rewrite Hpending.
  unfold _on_initial_accept.
  erewrite bind_Ok; [|exact Hpop]. erewrite bind_Ok; [|exact Hprofit].
  cbv beta iota.
  erewrite bind_Ok; [|reflexivity]. rewrite Hwm2.
  erewrite bind_Raise; [reflexivity|].
  unfold on_world_state. rewrite WorldState_call_update_on_accept.
  by destruct gi2.
Qed.

End handlers.

(** C8.  An agent that keeps a belief state receives a [Decline] whose
    target matches a pending proposal.  Specified: the proposal is popped
    and the discarded transaction is fed to the price update of the
    belief state as a rejected observation.  In the code the proposal is
    popped, then [on_decline] calls [world_state.update_on_decline], a
    method that [WorldState] does not have (its update is
    [update_on_declined_propose]); the handler raises [AttributeError]
    and no price model receives the observation that
    [update_on_declined_propose] would have recorded. *)
Theorem on_decline_belief_update_not_reached :
  let gi := Scenario.game_instance true in
  let out := @on_decline Scenario.helpers Scenario.decline Scenario.dialogue gi in
  let expected := update_on_declined_propose Scenario.transaction (world_state gi) in
  is_world_modeling gi = true
  ∧ is_pending (pending_tx_proposals (lock_manager gi)) Scenario.dialogue
      (target Scenario.decline) = true
  ∧ out.2 = Raise AttributeError
  ∧ is_pending (pending_tx_proposals (lock_manager out.1)) Scenario.dialogue
      (target Scenario.decline) = false
  ∧ observations (world_state out.1) "tac_good_0" = Some []
  ∧ expected.2 = Ok tt
  ∧ observations expected.1 "tac_good_0" = Some [(false, 15 # 1)%Q].
Proof. vm_compute. by split_and!. Qed.

(** C7.  An agent that keeps a belief state receives the first [Accept]
    for its pending proposal, which is still profitable.  Specified: a
    lock is added and two items are returned.  In the code
    [_on_initial_accept] calls [world_state.update_on_accept], a method
    that [WorldState] does not have (its update is
    [update_on_initial_accept]); the handler raises [AttributeError]
    before the lock is added and returns nothing.  The same agent
    without a belief state adds the lock and returns the two items. *)
Theorem on_accept_initial_lock_not_reached :
  let gi := Scenario.game_instance true in
  let popped := @on_lock_manager Transaction
                  (LockManager_pop_pending_proposal Scenario.dialogue
                     (target Scenario.accept)) gi in
  let out := @on_accept Scenario.helpers Scenario.accept Scenario.dialogue gi in
  let out' := @on_accept Scenario.helpers Scenario.accept Scenario.dialogue
                (Scenario.game_instance false) in
  is_pending (pending_tx_acceptances (lock_manager gi)) Scenario.dialogue
    (target Scenario.accept) = false
  ∧ popped.2 = Ok Scenario.transaction
  ∧ (@_is_profitable_transaction Scenario.helpers Scenario.transaction
       Scenario.dialogue popped.1).2 = Ok true
  ∧ out.2 = Raise AttributeError
  ∧ locks (lock_manager out.1) = []
  ∧ out'.2 = Ok (Several
      [ByteMessage 4 7 "tac_controller_pbk" "tac_agent_1_pbk_tac_agent_0_pbk_seller";
       Accept 4 7 "tac_agent_0_pbk" 3])
  ∧ locks (lock_manager out'.1)
    = [("tac_agent_1_pbk_tac_agent_0_pbk_seller"%string, (true, Scenario.transaction))].
Proof. vm_compute. by split_and!. Qed.

(** * The object store: what the methods of [AgentState] leave alone *)

Section inversion.

Context {S A B : Type}.

Lemma bind_inv (m : M S A) (f : A → M S B) s s'' r :
  (m ≫= f) s = (s'', r) →
  (∃ e, m s = (s'', Raise e) ∧ r = Raise e)
  ∨ (∃ s' a, m s = (s', Ok a) ∧ f a s' = (s'', r)).
Proof.
  unfold mbind, M_bind. destruct (m s) as [s' [e|a]]; intros Heq.
  - left. exists e. by simplify_eq.
  - right. by exists s', a.
Qed.

Lemma bind_Ok_inv (m : M S A) (f : A → M S B) s s'' b :
  (m ≫= f) s = (s'', Ok b) →
  ∃ s' a, m s = (s', Ok a) ∧ f a s' = (s'', Ok b).
Proof. intros [(e & _ & [=])|Hok]%bind_inv. done. Qed.

End inversion.

Lemma prefix_of_insert (h0 h : heap) r o :
  h0 `prefix_of` h → (length h0 ≤ r)%nat → h0 `prefix_of` <[r := o]> h.
Proof.
  intros [ext ->] Hr. exists (<[(r - length h0)%nat := o]> ext).
  by rewrite insert_app_r_alt.
Qed.

Lemma prefix_of_lookup (h0 h : heap) r o :
  h0 `prefix_of` h → h0 !! r = Some o → h !! r = Some o.
Proof. intros [ext ->] Hr. by apply lookup_app_l_Some. Qed.

Lemma alloc_prefix o : preserves prefix (alloc o).
Proof. intros h h' r [= <- _]. by apply prefix_app_r. Qed.

Lemma read_ints_prefix r : preserves prefix (read_ints r).
Proof.
  intros h h' res. unfold read_ints.
  destruct (h !! r) as [[]|]; by intros [= <- _].
Qed.

Lemma read_floats_prefix r : preserves prefix (read_floats r).
Proof.
  intros h h' res. unfold read_floats.
  destruct (h !! r) as [[]|]; by intros [= <- _].
Qed.

Lemma read_agent_prefix r : preserves prefix (read_agent r).
Proof.
  intros h h' res. unfold read_agent.
  destruct (h !! r) as [[]|]; by intros [= <- _].
Qed.

Lemma py_assert_preserves {S} (R : relation S) `{!PreOrder R} b :
  preserves R (py_assert b : M S unit).
Proof. destruct b; intros s s' r [= <- _]; reflexivity. Qed.

Section frame.

Context `{Helpers}.

Import AgentStateObj.

Ltac prefix_step :=
  first
    [ apply preserves_bind; [apply _| |intros ?]
    | apply alloc_prefix | apply read_ints_prefix | apply read_floats_prefix
    | apply read_agent_prefix | apply preserves_ret, _ | apply preserves_lift, _
    | apply py_assert_preserves, _ ].

Lemma __init___prefix money e u : preserves prefix (__init__ money e u).
Proof. unfold __init__. repeat prefix_step. Qed.

Lemma balance_prefix self : preserves prefix (balance self).
Proof. unfold balance. prefix_step; [prefix_step|]. destruct a as [[? ?] ?]. prefix_step. Qed.

Lemma current_holdings_prefix self : preserves prefix (current_holdings self).
Proof.
  unfold current_holdings. prefix_step; [prefix_step|].
  destruct a as [[? ?] ?]. repeat prefix_step.
Qed.

Lemma utility_params_prefix self : preserves prefix (utility_params self).
Proof.
  unfold utility_params. prefix_step; [prefix_step|].
  destruct a as [[? ?] ?]. repeat prefix_step.
Qed.

Lemma get_score_prefix self : preserves prefix (get_score self).
Proof.
  unfold get_score.
  prefix_step; [apply utility_params_prefix|].
  prefix_step; [apply current_holdings_prefix|].
  prefix_step; [prefix_step|]. prefix_step; [prefix_step|].
  prefix_step; [apply balance_prefix|]. prefix_step.
Qed.

Lemma __copy___prefix self : preserves prefix (__copy__ self).
Proof.
  unfold __copy__.
  prefix_step; [apply balance_prefix|].
  prefix_step; [apply current_holdings_prefix|].
  prefix_step; [apply utility_params_prefix|].
  apply __init___prefix.
Qed.

Lemma check_transaction_is_consistent_prefix self tx fee :
  preserves prefix (check_transaction_is_consistent self tx fee).
Proof.
  unfold check_transaction_is_consistent. destruct (is_sender_buyer tx).
  - prefix_step; [apply balance_prefix|]. prefix_step.
  - prefix_step; [prefix_step|]. destruct a as [[? ?] ?]. repeat prefix_step.
Qed.

(** A new object and its holdings list are allocated after everything
    that was in the store. *)
Lemma __init___fresh money e u h h' l :
  __init__ money e u h = (h', Ok l) → fresh_agent (length h) h' l.
Proof.
  unfold __init__.
  intros (h1 & es & He & Hk)%bind_Ok_inv.
  apply bind_Ok_inv in Hk as (h2 & us & Hu & Hk).
  apply bind_Ok_inv in Hk as (h3 & [] & Ha & Hk).
  apply bind_Ok_inv in Hk as (h4 & up & Hup & Hk).
  apply bind_Ok_inv in Hk as (h5 & hl & Hhl & Hk).
  assert (h1 = h) as ->.
  { revert He. unfold read_ints. destruct (h !! e) as [[]|]; by intros [= <- _]. }
  assert (h2 = h) as ->.
  { revert Hu. unfold read_floats. destruct (h !! u) as [[]|]; by intros [= <- _]. }
  assert (h3 = h) as ->.
  { revert Ha. unfold py_assert. case_bool_decide; by intros [= <-]. }
  unfold alloc in *. simplify_eq.
  exists money, (length h), (length (h ++ [PyListFloat us])).
  rewrite !length_app. simpl. split_and!; [|lia|lia].
  rewrite lookup_app_r by (rewrite !length_app; simpl; lia).
  rewrite !length_app. simpl.
  replace (_ - _)%nat with 0%nat by lia. done.
Qed.

Lemma fresh_agent_mono n n' h l :
  (n' ≤ n)%nat → fresh_agent n h l → fresh_agent n' h l.
Proof. intros Hle (b & up & hl & Hl & ? & ?). exists b, up, hl. split_and!; [done|lia|lia]. Qed.

Lemma __copy___fresh self h h' l :
  __copy__ self h = (h', Ok l) → fresh_agent (length h) h' l.
Proof.
  unfold __copy__.
  intros (h1 & b & Hb & Hk)%bind_Ok_inv.
  apply bind_Ok_inv in Hk as (h2 & ch & Hch & Hk).
  apply bind_Ok_inv in Hk as (h3 & up & Hup & Hk).
  apply __init___fresh in Hk.
  apply balance_prefix in Hb. apply current_holdings_prefix in Hch.
  apply utility_params_prefix in Hup.
  eapply fresh_agent_mono; [|exact Hk].
  apply prefix_length in Hb, Hch, Hup. lia.
Qed.

(** The loop of [update] writes to the holdings list only. *)
Lemma update_holdings_frame h0 self hl is_buyer qs good_id h h' r :
  update_holdings hl is_buyer good_id qs h = (h', r) →
  h0 `prefix_of` h → (length h0 ≤ hl)%nat →
  (∃ b up, h !! self = Some (PyAgentState b up hl)) →
  h0 `prefix_of` h' ∧ (∃ b up, h' !! self = Some (PyAgentState b up hl)).
Proof.
  revert good_id h. induction qs as [|q qs IH]; intros good_id h Hrun Hpre Hhl Hself; simpl in Hrun.
  { by injection Hrun as <- _. }
  apply bind_inv in Hrun as [(e & Hr & _)|(h1 & l & Hr & Hrun)].
  { revert Hr. unfold read_ints. destruct (h !! hl) as [[]|]; by intros [= <-]. }
  assert (h1 = h ∧ h !! hl = Some (PyListInt l)) as [-> Hl].
  { revert Hr. unfold read_ints. destruct (h !! hl) as [[]|]; intros [=]; by subst. }
  apply bind_inv in Hrun as [(e & Hr' & _)|(h2 & held & Hr' & Hrun)].
  { by injection Hr' as <- _. }
  injection Hr' as <- _.
  apply bind_inv in Hrun as [(e & [=] & _)|(h3 & [] & Hw & Hrun)].
  injection Hw as <-.
  eapply IH; [exact Hrun| | |].
  - by apply prefix_of_insert.
  - done.
  - destruct Hself as (b & up & Hself). exists b, up.
    rewrite list_lookup_insert_ne; [done|]. intros ->. congruence.
Qed.

(** [update] on an object that was allocated after the first objects of
    the store leaves those first objects as they are. *)
Lemma update_frame h0 self tx fee h h' r :
  update self tx fee h = (h', r) →
  h0 `prefix_of` h → fresh_agent (length h0) h self →
  h0 `prefix_of` h' ∧ fresh_agent (length h0) h' self.
Proof.
  intros Hrun Hpre (b & up & hl & Hself & Hl & Hhl). unfold update in Hrun.
  apply bind_inv in Hrun as [(e & Hr & _)|(h1 & [[b' up'] hl'] & Hr & Hrun)].
  { revert Hr. unfold read_agent. rewrite Hself. done. }
  assert (h1 = h ∧ b' = b ∧ up' = up ∧ hl' = hl) as (-> & -> & -> & ->).
  { revert Hr. unfold read_agent. rewrite Hself. by intros [=]. }
  apply bind_inv in Hrun as [(e & Hw & _)|(h2 & [] & Hw & Hrun)].
  { destruct (is_sender_buyer tx); by injection Hw. }
  assert (∃ b2, h2 = <[self := PyAgentState b2 up hl]> h) as [b2 ->].
  { destruct (is_sender_buyer tx); injection Hw as <-; by eexists. }
  assert (self < length h)%nat as Hlt by (by eapply lookup_lt_Some).
  destruct (update_holdings_frame h0 self hl _ _ _ _ _ _ Hrun) as [Hpre' (b3 & up3 & Hs3)].
  - by apply prefix_of_insert.
  - done.
  - exists b2, up. by rewrite list_lookup_insert_eq.
  - split; [done|]. by exists b3, up3, hl.
Qed.

Lemma update_all_frame h0 self txs fee h h' r :
  update_all self txs fee h = (h', r) →
  h0 `prefix_of` h → fresh_agent (length h0) h self →
  h0 `prefix_of` h' ∧ fresh_agent (length h0) h' self.
Proof.
  revert h. induction txs as [|tx txs IH]; intros h Hrun Hpre Hfresh; simpl in Hrun.
  { by injection Hrun as <- _. }
  apply bind_inv in Hrun as [(e & Hr & _)|(h1 & [] & Hr & Hrun)].
  - by eapply update_frame.
  - destruct (update_frame _ _ _ _ _ _ _ Hr Hpre Hfresh) as [Hpre1 Hfresh1].
    by eapply IH.
Qed.

(** [apply] copies the state and updates the copy: the objects that
    were in the store are as they were, whatever the outcome. *)
Lemma apply_prefix self txs fee : preserves prefix (apply self txs fee).
Proof.
  intros h h' r Hrun. unfold apply in Hrun.
  apply bind_inv in Hrun as [(e & Hr & _)|(h1 & l & Hr & Hrun)].
  { by eapply __copy___prefix. }
  pose proof (__copy___prefix _ _ _ _ Hr) as Hpre.
  pose proof (__copy___fresh _ _ _ _ Hr) as Hfresh.
  apply bind_inv in Hrun as [(e & Hu & _)|(h2 & [] & Hu & Hrun)].
  - by eapply update_all_frame.
  - injection Hrun as <- _. by eapply update_all_frame.
Qed.

Lemma get_score_diff_from_transaction_prefix self tx fee :
  preserves prefix (get_score_diff_from_transaction self tx fee).
Proof.
  unfold get_score_diff_from_transaction.
  prefix_step; [apply get_score_prefix|].
  prefix_step; [apply apply_prefix|].
  prefix_step; [apply get_score_prefix|]. prefix_step.
Qed.

End frame.

(** * Declining a proposal *)

Global Instance store_grows_preorder : PreOrder store_grows.
Proof.
  split.
  - intros gi. split; reflexivity.
  - intros gi1 gi2 gi3 [? ?] [? ?]. split; etrans; done.
Qed.

Lemma on_store_grows {A} (m : M heap A) :
  preserves prefix m → preserves store_grows (on_store m).
Proof.
  intros Hm gi gi' r Hrun. split; [by eapply on_store_store_only|].
  revert Hrun. unfold on_store. destruct (m (store gi)) as [h r'] eqn:E.
  intros [= <- _]. simpl. by eapply Hm.
Qed.

Section decline.

Context `{Helpers}.

(** The profitability check works on copies: whatever its outcome, the
    attributes of the game instance and every object of the store, the
    agent state and its lists among them, are as they were. *)
Lemma _is_profitable_transaction_store_grows tx dialogue :
  preserves store_grows (_is_profitable_transaction tx dialogue).
Proof.
  unfold _is_profitable_transaction, state_after_locks.
  apply preserves_bind; [apply _| |intros l].
  { apply preserves_bind; [apply _|apply preserves_get_state, _|intros gi].
    apply on_store_grows, apply_prefix. }
  apply preserves_bind; [apply _|apply preserves_get_state, _|intros gi].
  apply preserves_bind; [apply _| |intros consistent].
  { apply on_store_grows, check_transaction_is_consistent_prefix. }
  destruct consistent; simpl; [|apply preserves_ret, _].
  apply preserves_bind; [apply _| |intros d].
  { apply on_store_grows, get_score_diff_from_transaction_prefix. }
  apply preserves_ret, _.
Qed.

(** C9.  When the transaction implied by a [Propose] is evaluated as not
    profitable, [on_propose] answers with a [Decline] (next message id,
    same dialogue, target the proposal) and mutates nothing: the
    attributes of the game instance (agent state, lock manager, belief
    state) are the same, and every object that was in the store before
    the call, the live agent state with its balance and holdings among
    them, is unchanged; the evaluation has only allocated copies. *)
Theorem on_propose_decline_mutates_nothing (gi : GameInstance)
    (proposals : list Proposal) (proposal : Proposal) (propose : Message)
    (dialogue : Dialogue) :
  proposals !! 0%nat = Some proposal →
  let transaction :=
    Transaction_from_proposal proposal
      (generate_transaction_id (crypto_public_key gi) (destination propose)
         (dialogue_id propose) (is_seller dialogue))
      (negb (is_seller dialogue)) (destination propose) (crypto_public_key gi) in
  (_is_profitable_transaction transaction dialogue gi).2 = Ok false →
  ∃ gi',
    on_propose proposals propose dialogue gi
    = (gi', Ok (Decline (msg_id propose + 1) (dialogue_id propose)
                  (destination propose) (msg_id propose)))
    ∧ gi' = with_store gi (store gi')
    ∧ (∀ r o, store gi !! r = Some o → store gi' !! r = Some o).
Proof.
  intros Hproposal transaction Hprofit.
  destruct (_is_profitable_transaction transaction dialogue gi) as [gi' res] eqn:Hrun.
  simpl in Hprofit. subst res.
  destruct (_is_profitable_transaction_store_grows _ _ _ _ _ Hrun) as [Honly Hpre].
  exists gi'. split_and!.
  - unfold on_propose. erewrite bind_Ok; [|reflexivity].
    erewrite bind_Ok; [|unfold lift, list_getitem; by rewrite Hproposal].
    fold transaction. by erewrite bind_Ok; [|exact Hrun].
  - exact Honly.
  - intros r o. by apply prefix_of_lookup.
Qed.

End decline.

Lemma on_propose_decline_mutates_nothing_witness :
  ∃ gi',
    @on_propose Scenario.helpers [Scenario.bad_proposal] Scenario.propose
      Scenario.dialogue (Scenario.game_instance true)
    = (gi', Ok (Decline 3 8 "tac_agent_0_pbk" 2))
    ∧ gi' = with_store (Scenario.game_instance true) (store gi')
    ∧ (∀ r o, store (Scenario.game_instance true) !! r = Some o → store gi' !! r = Some o).
Proof.
  apply (@on_propose_decline_mutates_nothing Scenario.helpers
           (Scenario.game_instance true) [Scenario.bad_proposal]
           Scenario.bad_proposal Scenario.propose Scenario.dialogue).
  - reflexivity.
  - vm_compute. reflexivity.
Defined.

(** * The object store: what the methods of [AgentState] compute *)


Lemma read_agent_Ok h l b up hl :
  h !! l = Some (PyAgentState b up hl) → read_agent l h = (h, Ok (b, up, hl)).
Proof. unfold read_agent. by intros ->. Qed.

Lemma read_ints_Ok h l xs : h !! l = Some (PyListInt xs) → read_ints l h = (h, Ok xs).
Proof. unfold read_ints. by intros ->. Qed.






(** The loop of [check_transaction_is_consistent]. *)
Lemma holdings_cover_false l i qs : AgentStateObj.holdings_cover l false i qs = Ok false.
Proof. revert i. induction qs as [|q qs IH]; intros i; simpl; [done|apply IH]. Qed.

Lemma holdings_cover_true l qs i :
  AgentStateObj.holdings_cover l true i qs = Ok true ↔
  ∀ (j : nat) q, qs !! j = Some q → ∃ h, l !! (i + j)%nat = Some h ∧ q ≤ h.
Proof.
  revert i. induction qs as [|q qs IH]; intros i; simpl.
  { split; [|done]. intros _ j q Hj. by rewrite lookup_nil in Hj. }
  unfold list_getitem. destruct (l !! i) as [h|] eqn:Hi; simpl.
  - case_bool_decide as Hle.
    + rewrite IH. split.
      * intros Hall [|j] q' Hj; simpl in Hj.
        -- simplify_eq. rewrite Nat.add_0_r. by exists h.
        -- replace (i + S j)%nat with (S i + j)%nat by lia. by apply Hall.
      * intros Hall j q' Hj. replace (S i + j)%nat with (i + S j)%nat by lia.
        by apply Hall.
    + rewrite holdings_cover_false. split; [done|]. intros Hall.
      destruct (Hall 0%nat q eq_refl) as (h' & Hh' & ?).
      rewrite Nat.add_0_r, Hi in Hh'. simplify_eq. lia.
  - split; [done|]. intros Hall. destruct (Hall 0%nat q eq_refl) as (h' & Hh' & _).
    rewrite Nat.add_0_r, Hi in Hh'. done.
Qed.

Section values.

Context `{Helpers}.

Lemma balance_Ok h self st :
  repr h self st → AgentStateObj.balance self h = (h, Ok (balance st)).
Proof.
  intros (up & hl & Hl & _). unfold AgentStateObj.balance.
  by erewrite bind_Ok; [|by apply read_agent_Ok].
Qed.










(** [check_transaction_is_consistent] reads the object and writes
    nothing. *)
Lemma check_transaction_is_consistent_Ok h self st tx fee :
  repr h self st →
  AgentStateObj.check_transaction_is_consistent self tx fee h
  = (h, if is_sender_buyer tx
        then Ok (bool_decide (amount tx + share_of_tx_fee fee ≤ balance st)%Qc)
        else AgentStateObj.holdings_cover (_current_holdings st) true 0 (quantities tx)).
Proof.
  intros Hrepr. unfold AgentStateObj.check_transaction_is_consistent.
  destruct (is_sender_buyer tx).
  - by erewrite bind_Ok; [|by apply balance_Ok].
  - destruct Hrepr as (up & hl & Hl & _ & Hhl & _).
    erewrite bind_Ok; [|by apply read_agent_Ok]. simpl.
    by erewrite bind_Ok; [|by apply read_ints_Ok].
Qed.

End values.

(** * The profitability check *)

Section profitable.

Context `{Helpers}.



End profitable.


(** * Further properties of the ledger *)

(** ** The validity check, case by case *)









(** ** Settlement: failures after the validity check, and what every
    settlement that returns has done *)

(** Whatever happens after the validity check has passed, the
    transaction is in the log. *)
Lemma settle_transaction_log_any tx g g' r :
  (is_transaction_valid tx g).2 = Ok true →
  settle_transaction tx g = (g', r) →
  transactions g' = transactions g ++ [tx]
  ∧ configuration g' = configuration g
  ∧ initialization g' = initialization g.
Proof.
  intros Hvalid%is_transaction_valid_eq. unfold settle_transaction.
  rewrite (bind_Ok _ _ _ _ _ Hvalid).
  do 3 (erewrite bind_Ok; [|reflexivity]).
  set (g1 := set_transactions _ g). intros H.
  assert (same_static g1 g') as (Hc & Hi & _ & Ht).
  { eapply (preserves_bind same_static); [| |exact H].
    - apply preserves_lift, _.
    - intros ?. apply preserves_bind; [apply _|apply preserves_lift, _|intros ?].
      apply preserves_bind; [apply _|apply settle_goods_static|intros ?].
      apply preserves_bind; [apply _|apply balance_iadd_static|intros ?].
      apply balance_iadd_static. }
  by rewrite Hc, Hi, Ht.
Qed.

Lemma set_good_price_KeyError good_pbk p g :
  good_states g !! good_pbk = None →
  set_good_price good_pbk p g = (g, Raise KeyError).
Proof.
  intros Hk. unfold set_good_price. unfold_monad. simpl.
  unfold dict_getitem. by rewrite Hk.
Qed.

(** The loop stops with [KeyError] at the first good with a positive
    quantity that the game does not know. *)
Lemma settle_goods_KeyError tx nb items good_id g :
  holds_positions (agent_states g) (buyer_pbk tx) (good_id + length items) →
  holds_positions (agent_states g) (seller_pbk tx) (good_id + length items) →
  nb ≠ 0 →
  (∃ k q, (k, q) ∈ items ∧ 0 < q ∧ good_states g !! k = None) →
  ∃ g', settle_goods tx nb good_id items g = (g', Raise KeyError).
Proof.
  intros Hb Hs Hnb. revert good_id g Hb Hs.
  induction items as [|[k0 q0] items IH]; intros good_id g Hb Hs (k & q & Hin & Hq & Hk).
  { by apply elem_of_nil in Hin. }
  simpl in Hb, Hs. simpl.
  set (g0 := set_agent_states (alter (iadd_at good_id q0) (buyer_pbk tx)) g).
  set (g1 := set_agent_states (alter (iadd_at good_id (- q0)) (seller_pbk tx)) g0).
  assert (holdings_iadd (buyer_pbk tx) good_id q0 g = (g0, Ok tt)) as E0.
  { apply holdings_iadd_Ok. eapply holds_positions_le; [|exact Hb]. lia. }
  assert (holdings_iadd (seller_pbk tx) good_id (- q0) g0 = (g1, Ok tt)) as E1.
  { apply holdings_iadd_Ok. simpl. apply holds_positions_alter.
    eapply holds_positions_le; [|exact Hs]. lia. }
  rewrite (bind_Ok _ _ _ _ _ E0), (bind_Ok _ _ _ _ _ E1).
  assert (holds_positions (agent_states g1) (buyer_pbk tx) (S good_id + length items)) as Hb1.
  { subst g1 g0. simpl. do 2 apply holds_positions_alter.
    eapply holds_positions_le; [|exact Hb]. lia. }
  assert (holds_positions (agent_states g1) (seller_pbk tx) (S good_id + length items)) as Hs1.
  { subst g1 g0. simpl. do 2 apply holds_positions_alter.
    eapply holds_positions_le; [|exact Hs]. lia. }
  assert (Qc_of_Z nb ≠ 0%Qc) as Hnz by (by intros ?%Qc_of_Z_0).
  case_bool_decide as Hq0.
  - destruct (good_states g !! k0) as [gs|] eqn:Hk0.
    + erewrite bind_Ok.
      2:{ erewrite bind_Ok; [|unfold py_truediv, lift; by rewrite decide_False].
          apply set_good_price_Ok. simpl. by rewrite Hk0. }
      apply IH; [done|done|].
      exists k, q. apply elem_of_cons in Hin as [Heq|Hin]; [simplify_eq|].
      split_and!; try done. simpl. rewrite lookup_insert_ne; [done|]. congruence.
    + eexists. erewrite bind_Raise; [reflexivity|].
      erewrite bind_Ok; [|unfold py_truediv, lift; by rewrite decide_False].
      by apply set_good_price_KeyError.
  - erewrite bind_Ok; [|reflexivity].
    apply IH; [done|done|].
    exists k, q. apply elem_of_cons in Hin as [Heq|Hin]; [simplify_eq|].
    by split_and!.
Qed.

(** A seller that passed the validity check holds every listed
    position. *)
Lemma is_transaction_valid_seller_positions tx g :
  (is_transaction_valid tx g).2 = Ok true →
  holds_positions (agent_states g) (seller_pbk tx) (length (quantities tx)).
Proof.
  intros Hvalid.
  pose proof (proj1 (is_transaction_valid_true tx g)
    (is_transaction_valid_eq _ _ _ Hvalid)) as (b & s & _ & Hls & _ & Hall).
  exists s. split; [done|].
  destruct (quantities tx) as [|q qs _] using rev_ind; [simpl; lia|].
  destruct (Hall (length qs) q) as (h & Hh & _).
  { by rewrite lookup_app_r, Nat.sub_diag by lia. }
  apply lookup_lt_Some in Hh. rewrite length_app. simpl. lia.
Qed.

(** X5.  Only a failed validity check leaves the game untouched.  A
    valid transaction that gives a positive quantity of a good that the
    game does not know makes [settle_transaction] fail with [KeyError]
    after the transaction has been appended to the log (and the holdings
    of the goods listed before have been moved): the ledger is left with a
    logged transaction that was not settled. *)
Theorem settle_transaction_unknown_good (g : Game) (tx : Transaction) :
  (is_transaction_valid tx g).2 = Ok true →
  holds_positions (agent_states g) (buyer_pbk tx) (length (quantities tx)) →
  sum_list (quantities tx) ≠ 0 →
  (∃ k q, (k, q) ∈ quantities_by_good_pbk tx ∧ 0 < q ∧ good_states g !! k = None) →
  ∃ g', settle_transaction tx g = (g', Raise KeyError)
      ∧ transactions g' = transactions g ++ [tx].
Proof.
  intros Hvalid Hb Hnb Hunknown.
  pose proof (is_transaction_valid_seller_positions tx g Hvalid) as Hs.
  assert (∃ g', settle_transaction tx g = (g', Raise KeyError)) as [g' Hrun].
  { pose proof (is_transaction_valid_eq _ _ _ Hvalid) as Hv.
    pose proof (proj1 (is_transaction_valid_true tx g) Hv) as (b & s & Hlb & Hls & _).
    unfold settle_transaction.
    rewrite (bind_Ok _ _ _ _ _ Hv). simpl.
    do 3 (erewrite bind_Ok; [|reflexivity]).
    erewrite bind_Ok; [|unfold lift, dict_getitem; by rewrite Hlb].
    erewrite bind_Ok; [|unfold lift, dict_getitem; by rewrite Hls].
    unfold quantities in *. rewrite length_fmap in Hb, Hs.
    destruct (settle_goods_KeyError tx (sum_list (quantities_by_good_pbk tx).*2)
      (quantities_by_good_pbk tx) 0 (set_transactions (λ log, log ++ [tx]) g))
      as [g' Hloop]; try done.
    exists g'. by erewrite bind_Raise. }
  exists g'. split; [done|].
  by destruct (settle_transaction_log_any _ _ _ _ Hvalid Hrun) as (-> & _).
Qed.

Lemma settle_transaction_unknown_good_witness :
  ∃ g', settle_transaction Doctest.tx_unknown_good Doctest.game = (g', Raise KeyError)
      ∧ transactions g' = transactions Doctest.game ++ [Doctest.tx_unknown_good].
Proof.
  apply (settle_transaction_unknown_good Doctest.game Doctest.tx_unknown_good).
  - vm_compute. reflexivity.
  - eexists. split; [vm_compute; reflexivity|]. simpl. lia.
  - vm_compute. discriminate.
  - exists "tac_good_9"%string, 1. split_and!; [by left|lia|]. vm_compute. reflexivity.
Defined.

(** ** Every settlement that returns *)

Lemma holds_positions_alter_inv m pbk n k i d :
  holds_positions (alter (iadd_at i d) k m) pbk n → holds_positions m pbk n.
Proof.
  intros (st' & Hst' & Hn). destruct (decide (k = pbk)) as [->|Hne].
  - rewrite lookup_alter_eq in Hst'.
    destruct (m !! pbk) as [st|] eqn:Hst; [|done]. simpl in Hst'.
    exists st. split; [done|]. simplify_eq. simpl in Hn.
    by rewrite length_alter in Hn.
  - rewrite lookup_alter_ne in Hst' by done. by exists st'.
Qed.

Lemma holdings_iadd_Ok_inv pbk i d g g' :
  holdings_iadd pbk i d g = (g', Ok tt) →
  holds_positions (agent_states g) pbk (S i).
Proof.
  unfold holdings_iadd. unfold_monad. simpl. unfold dict_getitem.
  destruct (agent_states g !! pbk) as [st|] eqn:Hst; [|done]. simpl.
  unfold list_getitem.
  destruct (_current_holdings st !! i) as [h|] eqn:Hh; [|done]. intros _.
  exists st. split; [done|]. apply lookup_lt_Some in Hh. lia.
Qed.

Lemma set_good_price_Ok_inv k p g g' :
  set_good_price k p g = (g', Ok tt) → is_Some (good_states g !! k).
Proof.
  unfold set_good_price. unfold_monad. simpl. unfold dict_getitem.
  by destruct (good_states g !! k).
Qed.

(** The loop returns only if both agents hold every enumerated position,
    every good with a positive quantity is a good of the game, and the
    number of traded units is not zero when such a good exists. *)
Lemma settle_goods_Ok_inv tx nb items good_id g g' :
  settle_goods tx nb good_id items g = (g', Ok tt) →
  holds_positions (agent_states g) (buyer_pbk tx) good_id →
  holds_positions (agent_states g) (seller_pbk tx) good_id →
  holds_positions (agent_states g) (buyer_pbk tx) (good_id + length items)
  ∧ holds_positions (agent_states g) (seller_pbk tx) (good_id + length items)
  ∧ (∀ k q, (k, q) ∈ items → 0 < q → is_Some (good_states g !! k))
  ∧ (∀ k q, (k, q) ∈ items → 0 < q → nb ≠ 0).
Proof.
  revert good_id g. induction items as [|[k0 q0] items IH]; intros good_id g Hrun Hb Hs.
  { simpl. rewrite Nat.add_0_r. split_and!; try done; by intros ?? ?%elem_of_nil. }
  simpl in Hrun.
  apply bind_Ok_inv in Hrun as (g0 & [] & E0 & Hrun).
  pose proof (holdings_iadd_Ok_inv _ _ _ _ _ E0) as Hb0.
  rewrite (holdings_iadd_Ok _ _ _ _ Hb0) in E0. injection E0 as <-.
  apply bind_Ok_inv in Hrun as (g1 & [] & E1 & Hrun).
  pose proof (holdings_iadd_Ok_inv _ _ _ _ _ E1) as Hs0.
  rewrite (holdings_iadd_Ok _ _ _ _ Hs0) in E1. injection E1 as <-.
  simpl in Hs0. apply holds_positions_alter_inv in Hs0.
  apply bind_Ok_inv in Hrun as (g2 & [] & E2 & Hrun).
  set (g1 := set_agent_states (alter (iadd_at good_id (- q0)) (seller_pbk tx))
               (set_agent_states (alter (iadd_at good_id q0) (buyer_pbk tx)) g)) in *.
  assert (agent_states g2 = agent_states g1
          ∧ (∀ k, is_Some (good_states g2 !! k) → is_Some (good_states g !! k))
          ∧ (0 < q0 → is_Some (good_states g !! k0) ∧ nb ≠ 0)) as (Ha & Hg & Hhead).
  { case_bool_decide as Hq0.
    - apply bind_Ok_inv in E2 as (gd & p & Ediv & Eprice).
      unfold lift, py_truediv in Ediv. case_decide as Hnb; [done|].
      injection Ediv as <- <-.
      pose proof (set_good_price_Ok_inv _ _ _ _ Eprice) as Hk0.
      rewrite (set_good_price_Ok _ _ _ Hk0) in Eprice. injection Eprice as <-.
      split_and!; [done| |].
      + intros k. simpl. destruct (decide (k0 = k)) as [<-|Hne]; [done|].
        by rewrite lookup_insert_ne.
      + intros _. split; [done|]. intros ->. by apply Hnb.
    - injection E2 as <-. split_and!; [done|done|]. intros ?. lia. }
  destruct (IH (S good_id) g2 Hrun) as (Hb' & Hs' & Hgoods & Hnb).
  { rewrite Ha. subst g1. simpl. by do 2 apply holds_positions_alter. }
  { rewrite Ha. subst g1. simpl. by do 2 apply holds_positions_alter. }
  rewrite Ha in Hb', Hs'. subst g1. simpl in Hb', Hs'.
  do 2 apply holds_positions_alter_inv in Hb'.
  do 2 apply holds_positions_alter_inv in Hs'.
  simpl. rewrite <-Nat.add_succ_comm. split_and!; [done|done| |].
  - intros k q [Heq|Hin]%elem_of_cons Hq; [simplify_eq; by apply Hhead|].
    apply Hg. by eapply Hgoods.
  - intros k q [Heq|Hin]%elem_of_cons Hq; [simplify_eq; by apply Hhead|].
    by eapply Hnb.
Qed.

(** A settlement that returns has passed the validity check and has run
    to its end. *)
Lemma settle_transaction_Ok_inv tx g g' :
  settle_transaction tx g = (g', Ok tt) →
  (is_transaction_valid tx g).2 = Ok true
  ∧ g' = settled tx g
  ∧ holds_positions (agent_states g) (buyer_pbk tx) (length (quantities tx))
  ∧ holds_positions (agent_states g) (seller_pbk tx) (length (quantities tx))
  ∧ (∀ k q, (k, q) ∈ quantities_by_good_pbk tx → 0 < q → is_Some (good_states g !! k)).
Proof.
  intros Hrun. pose proof Hrun as Hrun0. unfold settle_transaction in Hrun.
  apply bind_Ok_inv in Hrun as (g0 & valid & Ev & Hrun).
  pose proof (is_transaction_valid_pure tx g) as Hpure.
  rewrite Ev in Hpure. simpl in Hpure. subst g0.
  apply bind_Ok_inv in Hrun as (g0 & [] & Ea & Hrun).
  destruct valid; [|done]. injection Ea as <-.
  assert ((is_transaction_valid tx g).2 = Ok true) as Hvalid by (by rewrite Ev).
  do 2 (erewrite bind_Ok in Hrun; [|reflexivity]).
  apply bind_Ok_inv in Hrun as (g0 & b & Eb & Hrun).
  apply bind_Ok_inv in Hrun as (g1 & s & Es & Hrun).
  unfold lift in Eb, Es. injection Eb as <- Eb. injection Es as <- Es.
  apply dict_getitem_Ok in Eb, Es.
  apply bind_Ok_inv in Hrun as (g2 & [] & Eloop & _).
  apply settle_goods_Ok_inv in Eloop as (Hb & Hs & Hgoods & Hnb).
  2:{ exists b. split; [done|lia]. }
  2:{ exists s. split; [done|lia]. }
  simpl in Hb, Hs, Hgoods. unfold quantities. rewrite length_fmap.
  split_and!; [done| |done|done|done].
  rewrite settle_transaction_Ok in Hrun0; [congruence|done| |done|done].
  unfold quantities. by rewrite length_fmap.
Qed.



(** ** A log of transactions, replayed *)




(** X8.  No agent of a game ever holds a negative number of units: the
    initialization asserts positive endowments, and for a transaction
    between two different agents with no negative quantity the validity
    check has compared what the seller gives with what it holds.  Stated
    for the games that [Game.from_dict] rebuilds, that is a new game and
    a log settled on it. *)
Theorem replay_holdings_nonneg (c : GameConfiguration) (i : GameInitialization)
    (ds : list TransactionDict) (g0 g : Game) :
  GameInitialization_check_consistency i = Ok tt →
  Game_init c i = Ok g0 →
  replay ds g0 = Ok g →
  (∀ d, d ∈ ds →
     buyer_pbk (Transaction_from_dict d) ≠ seller_pbk (Transaction_from_dict d)
     ∧ Forall (λ q, 0 ≤ q) (quantities (Transaction_from_dict d))) →
  holdings_nonneg g.
Proof.
  intros Hcheck Hinit Hrun Hds.
  pose proof (Game_init_holdings_nonneg _ _ _ Hcheck Hinit) as Hnonneg.
  clear Hcheck Hinit. revert g0 Hrun Hnonneg.
  induction ds as [|d ds IH]; intros g0 Hrun Hnonneg; simpl in Hrun.
  { by injection Hrun as <-. }
  destruct (settle_transaction (Transaction_from_dict d) g0) as [g1 [e|[]]] eqn:Hstep;
    [done|].
  destruct (Hds d) as [Hne Hqs]; [by left|].
  pose proof (settle_transaction_Ok_inv _ _ _ Hstep) as (Hvalid & _ & Hb & _ & Hgoods).
  destruct (settle_transaction_holdings_nonneg g0 (Transaction_from_dict d))
    as (g1' & Hstep' & Hnonneg1); [done|by split|done|].
  rewrite Hstep in Hstep'. injection Hstep' as <-.
  apply (IH (λ d' Hin, Hds d' (proj2 (elem_of_cons _ _ _) (or_intror Hin))) g1 Hrun Hnonneg1).
Qed.

Lemma replay_holdings_nonneg_witness : holdings_nonneg Doctest.game_after.
Proof.
  apply (replay_holdings_nonneg Doctest.game_configuration Doctest.game_initialization
           [Transaction_to_dict Doctest.tx] Doctest.game Doctest.game_after).
  - vm_compute. reflexivity.
  - vm_compute. reflexivity.
  - vm_compute. reflexivity.
  - intros d ->%list_elem_of_singleton. split; [done|].
    repeat constructor; simpl; lia.
Defined.

(** ** Construction of a game *)

(** A consistent initialization has, for every row of money, an
    endowment and utility parameters of the same length. *)
Lemma GameInitialization_rows i k :
  GameInitialization_check_consistency i = Ok tt →
  (k < length (initial_money_amounts i))%nat →
  ∃ money e u, initial_money_amounts i !! k = Some money
             ∧ endowments i !! k = Some e
             ∧ utility_params i !! k = Some u
             ∧ length e = length u.
Proof.
  unfold GameInitialization_check_consistency.
  destruct (forallb _ (initial_money_amounts i)); [|done]. simpl.
  destruct (forallb _ (endowments i)); [|done]. simpl.
  destruct (forallb _ (utility_params i)); [|done]. simpl.
  case_bool_decide as Hlen1; [|done]. simpl.
  case_bool_decide as Hlen2; [|done]. simpl.
  destruct (list_getitem (eq_good_holdings i) 0) as [|first_row]; [done|]. simpl.
  case_bool_decide; [|done]. simpl. case_bool_decide; [|done]. simpl.
  destruct (forallb _ (zip _ _)) eqn:Hrows; [|done]. intros _ Hk.
  destruct (lookup_lt_is_Some_2 (initial_money_amounts i) k) as [money Hm]; [done|].
  destruct (lookup_lt_is_Some_2 (endowments i) k) as [e He]; [lia|].
  destruct (lookup_lt_is_Some_2 (utility_params i) k) as [u Hu]; [lia|].
  exists money, e, u. split_and!; try done.
  rewrite forallb_forall in Hrows.
  assert ((e, u) ∈ zip (endowments i) (utility_params i)) as Hin.
  { apply list_elem_of_lookup. exists k. by apply lookup_zip_Some. }
  apply list_elem_of_In, Hrows, bool_decide_eq_true in Hin. done.
Qed.

Lemma build_agent_states_Ok i pairs acc :
  GameInitialization_check_consistency i = Ok tt →
  (∀ pbk k, (pbk, k) ∈ pairs → (k < length (initial_money_amounts i))%nat) →
  NoDup pairs.*1 →
  ∃ m, build_agent_states i pairs acc = Ok m
     ∧ (∀ pbk k, (pbk, k) ∈ pairs →
          ∃ st, initial_state i k = Some st ∧ m !! pbk = Some st)
     ∧ (∀ pbk, pbk ∉ pairs.*1 → m !! pbk = acc !! pbk).
Proof.
  intros Hcheck. revert acc. induction pairs as [|[p0 k0] pairs IH];
    intros acc Hrows Hnodup; simpl.
  { exists acc. split_and!; [done| |done]. by intros ?? ?%elem_of_nil. }
  destruct (GameInitialization_rows i k0 Hcheck) as (money & e & u & Hm & He & Hu & Hlen).
  { apply (Hrows p0). by left. }
  unfold mbind, result_bind, list_getitem. rewrite Hm, He, Hu.
  unfold AgentState_init. rewrite bool_decide_eq_true_2 by done.
  apply NoDup_cons in Hnodup as [Hp0 Hnodup].
  destruct (IH (<[p0 := {| balance := Qc_of_Z money; _utility_params := u;
                           _current_holdings := e |}]> acc))
    as (m & Hbuild & Hin & Hout); [|done|].
  { intros pbk k Hk. apply (Hrows pbk). by right. }
  exists m. split_and!; [done| |].
  - intros pbk k [Heq|Hk]%elem_of_cons; [|by apply Hin].
    simplify_eq. eexists. split.
    + unfold initial_state. rewrite Hm, He, Hu. reflexivity.
    + rewrite Hout by done. by rewrite lookup_insert_eq.
  - intros pbk Hpbk. simpl in Hpbk. apply not_elem_of_cons in Hpbk as [Hne Hpbk].
    rewrite Hout by done. by rewrite lookup_insert_ne.
Qed.

Lemma zip_fst_sublist {A B} (l : list A) (k : list B) : (zip l k).*1 `sublist_of` l.
Proof.
  revert k. induction l as [|x l IH]; intros [|y k]; simpl;
    [done|done|apply sublist_nil_l|]. by apply sublist_skip.
Qed.

Lemma good_states_lookup (d : GoodState) l (acc : gmap string GoodState) k :
  foldl (λ acc good_pbk, <[good_pbk := d]> acc) acc l !! k
  = if decide (k ∈ l) then Some d else acc !! k.
Proof.
  revert acc. induction l as [|x l IH]; intros acc.
  { destruct (decide (k ∈ [])) as [Hin|_]; [|done]. by apply elem_of_nil in Hin. }
  cbn [foldl]. rewrite IH.
  destruct (decide (k ∈ l)) as [Hin|Hout];
    destruct (decide (k ∈ x :: l)) as [Hin'|Hout']; try done.
  - exfalso. apply Hout'. by right.
  - apply elem_of_cons in Hin' as [->|?]; [|done]. by rewrite lookup_insert_eq.
  - rewrite lookup_insert_ne; [done|]. intros ->. apply Hout'. by left.
Qed.

(** X9.  The constructor of [Game] on a consistent initialization that
    has a row for every enumerated agent: it returns a game with an empty
    log, in which agent number [k] of the configuration has the money,
    the endowment and the utility parameters of row [k], nobody else has
    a state, the initial states are equal to the current ones, and
    exactly the goods of the configuration have a state, with the default
    price. *)
Theorem Game_init_returns (c : GameConfiguration) (i : GameInitialization) :
  GameInitialization_check_consistency i = Ok tt →
  NoDup (agent_pbks c) →
  (length (agent_pbks c) `min` Z.to_nat (nb_agents c)
     ≤ length (initial_money_amounts i))%nat →
  ∃ g, Game_init c i = Ok g
     ∧ transactions g = []
     ∧ initial_agent_states g = agent_states g
     ∧ (∀ k pbk, agent_pbks c !! k = Some pbk → Z.of_nat k < nb_agents c →
          ∃ st, initial_state i k = Some st ∧ agent_states g !! pbk = Some st)
     ∧ (∀ pbk, is_Some (agent_states g !! pbk) → pbk ∈ agent_pbks c)
     ∧ (∀ k, good_states g !! k
             = if decide (k ∈ good_pbks c) then Some {| price := DEFAULT_PRICE |}
               else None).
Proof.
  intros Hcheck Hnodup Hrows.
  destruct (build_agent_states_Ok i (zip (agent_pbks c) (py_range (nb_agents c))) ∅)
    as (m & Hbuild & Hin & Hout); [done| |..].
  { intros pbk k (j & Hj)%list_elem_of_lookup.
    apply lookup_zip_Some in Hj as [Hl Hr].
    apply lookup_lt_Some in Hl. unfold py_range in Hr.
    apply lookup_seq in Hr as [-> Hr]. simpl. lia. }
  { eapply sublist_NoDup; [exact Hnodup|apply zip_fst_sublist]. }
  unfold Game_init. rewrite Hbuild. simpl. eexists. split; [reflexivity|]. simpl.
  split_and!; try done.
  - intros k pbk Hk Hlt. apply (Hin pbk k), list_elem_of_lookup.
    exists k. apply lookup_zip_Some. split; [done|].
    unfold py_range. apply lookup_seq. split; [done|lia].
  - intros pbk Hsome.
    destruct (decide (pbk ∈ (zip (agent_pbks c) (py_range (nb_agents c))).*1))
      as [Hyes|Hno].
    + eapply elem_of_sublist; [exact Hyes|apply zip_fst_sublist].
    + rewrite Hout, lookup_empty in Hsome by done. by destruct Hsome.
  - intros k. by rewrite good_states_lookup, lookup_empty.
Qed.

Lemma Game_init_returns_witness :
  ∃ g, Game_init Doctest.game_configuration Doctest.game_initialization = Ok g
     ∧ transactions g = []
     ∧ initial_agent_states g = agent_states g
     ∧ (∀ k pbk, agent_pbks Doctest.game_configuration !! k = Some pbk →
          Z.of_nat k < nb_agents Doctest.game_configuration →
          ∃ st, initial_state Doctest.game_initialization k = Some st
              ∧ agent_states g !! pbk = Some st)
     ∧ (∀ pbk, is_Some (agent_states g !! pbk) →
          pbk ∈ agent_pbks Doctest.game_configuration)
     ∧ (∀ k, good_states g !! k
             = if decide (k ∈ good_pbks Doctest.game_configuration)
               then Some {| price := DEFAULT_PRICE |} else None).
Proof.
  apply (Game_init_returns Doctest.game_configuration Doctest.game_initialization).
  - vm_compute. reflexivity.
  - apply (bool_decide_unpack (NoDup (agent_pbks Doctest.game_configuration))).
    vm_compute. exact I.
  - vm_compute. lia.
Defined.

(** The enumeration of the agents runs past the rows of the
    initialization. *)
Lemma build_agent_states_IndexError i pbks j n acc :
  GameInitialization_check_consistency i = Ok tt →
  (j ≤ length (initial_money_amounts i))%nat →
  (length (initial_money_amounts i) < j + length pbks `min` n)%nat →
  build_agent_states i (zip pbks (seq j n)) acc = Raise IndexError.
Proof.
  intros Hcheck. revert j n acc.
  induction pbks as [|p pbks IH]; intros j [|n] acc Hj Hlen; simpl in Hlen; try lia.
  cbn [seq zip zip_with build_agent_states].
  destruct (decide (j = length (initial_money_amounts i))) as [->|Hne].
  - unfold mbind, result_bind, list_getitem.
    by rewrite (lookup_ge_None_2 (initial_money_amounts i)) by lia.
  - destruct (GameInitialization_rows i j Hcheck)
      as (money & e & u & Hm & He & Hu & Hrow); [lia|].
    unfold mbind, result_bind, list_getitem. rewrite Hm, He, Hu.
    unfold AgentState_init. rewrite bool_decide_eq_true_2 by done.
    apply IH; lia.
Qed.

(** X10.  The constructor of [Game] does not compare the number of
    agents with the number of rows of the initialization: on a consistent
    initialization with fewer rows than enumerated agents it fails with
    [IndexError], not with an assertion. *)
Theorem Game_init_too_few_rows (c : GameConfiguration) (i : GameInitialization) :
  GameInitialization_check_consistency i = Ok tt →
  (length (initial_money_amounts i) < length (agent_pbks c))%nat →
  Z.of_nat (length (initial_money_amounts i)) < nb_agents c →
  Game_init c i = Raise IndexError.
Proof.
  intros Hcheck Hpbks Hnb. unfold Game_init, py_range.
  rewrite build_agent_states_IndexError; [done|done|lia|lia].
Qed.

Lemma Game_init_too_few_rows_witness :
  Game_init
    {| nb_agents := 4; nb_goods := 3; tx_fee := Qc_of_Z 1;
       agent_pbk_to_name :=
         [("tac_agent_0_pbk", "tac_agent_0"); ("tac_agent_1_pbk", "tac_agent_1");
          ("tac_agent_2_pbk", "tac_agent_2"); ("tac_agent_3_pbk", "tac_agent_3")]%string;
       good_pbk_to_name := good_pbk_to_name Doctest.game_configuration |}
    Doctest.game_initialization
  = Raise IndexError.
Proof.
  apply Game_init_too_few_rows.
  - vm_compute. reflexivity.
  - vm_compute. lia.
  - vm_compute. reflexivity.
Defined.

Lemma remove_dups_length_le {A} `{EqDecision A} (l : list A) :
  (length (remove_dups l) ≤ length l)%nat.
Proof. induction l as [|x l IH]; simpl; [done|]. case_decide; simpl; lia. Qed.

(** A list has as many distinct elements as elements exactly when no
    element occurs twice. *)
Lemma remove_dups_length_NoDup {A} `{EqDecision A} (l : list A) :
  length (remove_dups l) = length l ↔ NoDup l.
Proof.
  induction l as [|x l IH]; simpl.
  { split; [constructor|done]. }
  pose proof (remove_dups_length_le l). rewrite NoDup_cons.
  case_decide as Hx; simpl.
  - split; [lia|]. by intros [? _].
  - split.
    + intros [= Hlen]. split; [done|]. by apply IH.
    + intros [_ Hl]. f_equal. by apply IH.
Qed.

(** X11.  The constructor of [GameConfiguration] returns the
    configuration exactly when the fee is not negative, there are at
    least two agents and two goods, the two dictionaries have that many
    keys, and no two agents and no two goods share a name; it raises
    [AssertionError] otherwise.  The assertion on
    [len(set(self.agent_names))] is uniqueness of the names because the
    names are the values of the dictionary whose keys were counted just
    before. *)
Theorem GameConfiguration_init_returns (n m : Z) (fee : Qc)
    (agents goods : list (string * string)) :
  let c := {| nb_agents := n; nb_goods := m; tx_fee := fee;
              agent_pbk_to_name := agents; good_pbk_to_name := goods |} in
  (GameConfiguration_init n m fee agents goods = Ok c
   ∨ GameConfiguration_init n m fee agents goods = Raise AssertionError)
  ∧ (GameConfiguration_init n m fee agents goods = Ok c ↔
       (0 ≤ fee)%Qc ∧ 1 < n ∧ 1 < m
       ∧ Z.of_nat (length agents) = n ∧ Z.of_nat (length goods) = m
       ∧ NoDup agents.*2 ∧ NoDup goods.*2).
Proof.
  intros c. unfold GameConfiguration_init. fold c.
  split; [destruct (GameConfiguration_check_consistency c); [by left|by right]|].
  assert (GameConfiguration_check_consistency c = true ↔
            (0 ≤ fee)%Qc ∧ 1 < n ∧ 1 < m
            ∧ Z.of_nat (length agents) = n ∧ Z.of_nat (length goods) = m
            ∧ NoDup agents.*2 ∧ NoDup goods.*2) as <-.
  { unfold GameConfiguration_check_consistency, agent_pbks, agent_names,
      good_pbks, good_names. simpl.
    rewrite !andb_true_iff, !bool_decide_eq_true, !length_fmap.
    rewrite <-(remove_dups_length_NoDup agents.*2), <-(remove_dups_length_NoDup goods.*2).
    rewrite !length_fmap. split.
    - intros ((((((? & ?) & ?) & ?) & ?) & ?) & ?). split_and!; try done; lia.
    - intros (? & ? & ? & ? & ? & ? & ?). split_and!; try done; lia. }
  destruct (GameConfiguration_check_consistency c); split; congruence.
Qed.

(** ** Equality of games *)

Lemma list_eq_with_Transaction_eq_refl (l : list Transaction) :
  list_eq_with Transaction_eq l l = true.
Proof.
  induction l as [|tx l IH]; simpl; [done|].
  unfold Transaction_eq at 1. by rewrite bool_decide_eq_true_2, IH.
Qed.

Lemma GameConfiguration_eq_refl c : GameConfiguration_eq c c = true.
Proof.
  unfold GameConfiguration_eq.
  by rewrite !bool_decide_eq_true_2, !dict_eq_refl by done.
Qed.

(** X12.  [Game.__eq__] compares the configurations and the logs, and
    neither the initializations nor the agent states: two games with the
    same configuration and the same log compare equal, so in particular
    two new games on the same configuration compare equal whatever their
    initializations are. *)
Theorem Game_eq_ignores_initialization (g1 g2 : Game) :
  configuration g1 = configuration g2 →
  transactions g1 = transactions g2 →
  Game_eq g1 g2 = true.
Proof.
  intros Hc Ht. unfold Game_eq. rewrite Hc, Ht.
  by rewrite GameConfiguration_eq_refl, list_eq_with_Transaction_eq_refl.
Qed.

Lemma Game_eq_ignores_initialization_witness :
  Game_eq Doctest.game DoubleMoney.game = true
  ∧ Doctest.observe Doctest.game "tac_agent_0_pbk"
    ≠ Doctest.observe DoubleMoney.game "tac_agent_0_pbk".
Proof.
  split.
  - apply (Game_eq_ignores_initialization Doctest.game DoubleMoney.game).
    + vm_compute. reflexivity.
    + vm_compute. reflexivity.
  - vm_compute. discriminate.
Defined.

(** ** Further properties of the belief state *)

Lemma WorldState_eq ws ws' :
  opponent_states ws' = opponent_states ws →
  good_price_models ws' = good_price_models ws →
  ws' = ws.
Proof. destruct ws, ws'. simpl. by intros -> ->. Qed.



(** X14.  The loop over [list(set(good_pbks))] visits the goods in an
    order that Python does not fix.  When every visited good has a price
    model the order does not matter: every enumeration without
    repetition of the positively traded goods leaves the same world
    state as the enumeration chosen in the embedding. *)
Theorem update_prices_any_order (items : list (string * Z)) (good_pbks : list string)
    (p : Qc) (is_accepted : bool) (ws : WorldState) :
  NoDup good_pbks →
  (∀ k, k ∈ good_pbks ↔ k ∈ traded_units items) →
  (∀ k, k ∈ good_pbks → is_Some (good_price_models ws !! k)) →
  update_prices good_pbks p is_accepted ws
  = update_prices (remove_dups (traded_units items)) p is_accepted ws.
Proof.
  intros Hnd Hsame Hall.
  destruct (update_prices_Ok good_pbks p is_accepted ws Hnd Hall)
    as (ws1 & -> & Hopp1 & Hmodels1).
  destruct (update_prices_Ok (remove_dups (traded_units items)) p is_accepted ws)
    as (ws2 & -> & Hopp2 & Hmodels2).
  { apply NoDup_remove_dups. }
  { intros k Hk. by apply Hall, Hsame, (proj1 (elem_of_remove_dups _ _)). }
  f_equal. apply WorldState_eq; [congruence|].
  apply map_eq. intros k. rewrite Hmodels1, Hmodels2.
  destruct (decide (k ∈ good_pbks)) as [Hin|Hout].
  - rewrite decide_True; [done|]. by apply elem_of_remove_dups, Hsame.
  - rewrite decide_False; [done|].
    intros Hk. by apply Hout, Hsame, (proj1 (elem_of_remove_dups _ _)).
Qed.

Lemma update_prices_any_order_witness :
  update_prices ["tac_good_2"; "tac_good_0"]%string (Qc_of_Z 5) true
    DoctestBeliefs.world_state
  = update_prices
      (remove_dups (traded_units [("tac_good_0", 2); ("tac_good_1", 0); ("tac_good_2", 1)]%string))
      (Qc_of_Z 5) true DoctestBeliefs.world_state.
Proof.
  apply (update_prices_any_order
           [("tac_good_0", 2); ("tac_good_1", 0); ("tac_good_2", 1)]%string).
  - apply (bool_decide_unpack (NoDup ["tac_good_2"; "tac_good_0"]%string)).
    vm_compute. exact I.
  - intros k. simpl. rewrite !elem_of_cons, !elem_of_nil. tauto.
  - intros k Hk.
    repeat (apply elem_of_cons in Hk as [->|Hk]; [vm_compute; by eexists|]).
    by apply elem_of_nil in Hk.
Defined.

Lemma _update_price_KeyError good_pbk p is_accepted ws :
  good_price_models ws !! good_pbk = None →
  _update_price good_pbk p is_accepted ws = (ws, Raise KeyError).
Proof.
  intros Hm. unfold _update_price. unfold_monad. simpl.
  unfold dict_getitem. by rewrite Hm.
Qed.

Lemma update_prices_KeyError good_pbks p is_accepted ws k :
  k ∈ good_pbks →
  good_price_models ws !! k = None →
  ∃ ws', update_prices good_pbks p is_accepted ws = (ws', Raise KeyError)
       ∧ opponent_states ws' = opponent_states ws
       ∧ good_price_models ws' !! k = None.
Proof.
  revert ws. induction good_pbks as [|k0 ks IH]; intros ws Hin Hk; simpl.
  { by apply elem_of_nil in Hin. }
  destruct (good_price_models ws !! k0) as [model|] eqn:Hm.
  - erewrite bind_Ok; [|by apply _update_price_Ok].
    apply elem_of_cons in Hin as [->|Hin]; [congruence|].
    destruct (IH (set_good_price_models
      (insert k0 (GoodPriceModel_update is_accepted (py_round p 1) model)) ws))
      as (ws' & Hrun & Hopp & Hk'); [done| |].
    { simpl. rewrite lookup_insert_ne; [done|]. congruence. }
    by exists ws'.
  - exists ws. split_and!; [|done|done].
    erewrite bind_Raise; [reflexivity|]. by apply _update_price_KeyError.
Qed.

(** X15.  A positively traded good without a price model makes both
    updates fail with [KeyError]; the models of the goods visited before
    it have been fed already, the opponent states are untouched. *)
Theorem world_state_update_unknown_good (tx : Transaction) (ws : WorldState)
    (is_accepted : bool) (k : string) :
  traded_positive tx k →
  good_price_models ws !! k = None →
  ∃ ws', (if is_accepted then update_on_initial_accept tx
          else update_on_declined_propose tx) ws = (ws', Raise KeyError)
       ∧ opponent_states ws' = opponent_states ws.
Proof.
  intros Hk Hnone.
  assert (∃ ws', _from_transaction_update_price tx is_accepted ws = (ws', Raise KeyError)
               ∧ opponent_states ws' = opponent_states ws) as (ws' & Hrun & Hopp).
  { unfold _from_transaction_update_price, py_truediv.
    rewrite traded_units_length. fold (quantities tx).
    assert (0 < sum_positive (quantities tx)) as Hpos.
    { unfold quantities. rewrite <-traded_units_length.
      apply traded_units_elem in Hk. apply list_elem_of_lookup in Hk as [i Hi].
      apply lookup_lt_Some in Hi. lia. }
    rewrite decide_False by (intros ?%Qc_of_Z_0; lia).
    erewrite bind_Ok; [|reflexivity].
    destruct (update_prices_KeyError
      (remove_dups (traded_units (quantities_by_good_pbk tx)))
      (amount tx / Qc_of_Z (sum_positive (quantities tx)))%Qc is_accepted ws k)
      as (ws' & Hrun & Hopp & _); [|done|by exists ws'].
    by apply elem_of_remove_dups, traded_units_elem. }
  exists ws'. split; [by destruct is_accepted|done].
Qed.

Lemma world_state_update_unknown_good_witness :
  ∃ ws', update_on_declined_propose Doctest.tx_unknown_good DoctestBeliefs.world_state
         = (ws', Raise KeyError)
       ∧ opponent_states ws' = opponent_states DoctestBeliefs.world_state.
Proof.
  apply (world_state_update_unknown_good Doctest.tx_unknown_good
           DoctestBeliefs.world_state false "tac_good_9").
  - exists 1. split; [by left|lia].
  - vm_compute. reflexivity.
Defined.

(** ** Further properties of the agent-state objects *)

Section agent_state_objects.

Context `{Helpers}.





(** X18.  The ledger and the agents check the same conditions: a
    transaction that [Game.is_transaction_valid] accepts passes
    [AgentState.check_transaction_is_consistent] of its sender (the
    balance check if the sender buys, the holdings check if it sells)
    whenever the sender's own state is the state that the ledger has for
    it; the check writes nothing. *)
Theorem valid_implies_sender_consistent (g : Game) (tx : Transaction) (h : heap)
    (self : ref) (st : AgentState) :
  agent_states g !! sender tx = Some st →
  repr h self st →
  (is_transaction_valid tx g).2 = Ok true →
  AgentStateObj.check_transaction_is_consistent self tx (tx_fee (configuration g)) h
  = (h, Ok true).
Proof.
  intros Hst Hrepr Hvalid.
  pose proof (proj1 (is_transaction_valid_true tx g)
    (is_transaction_valid_eq _ _ _ Hvalid)) as (b & s & Hlb & Hls & Hbal & Hall).
  rewrite (check_transaction_is_consistent_Ok h self st) by done. f_equal.
  unfold buyer_pbk, seller_pbk in Hlb, Hls. destruct (is_sender_buyer tx).
  - rewrite Hst in Hlb. injection Hlb as <-. by rewrite bool_decide_eq_true_2.
  - rewrite Hst in Hls. injection Hls as <-. by apply holdings_cover_true.
Qed.





End agent_state_objects.

Lemma scenario_store_repr (world_modeling : bool) :
  repr (store (Scenario.game_instance world_modeling)) 2 Doctest.agent_state_1.
Proof. exists 0%nat, 1%nat. split_and!; reflexivity. Qed.




Lemma valid_implies_sender_consistent_witness :
  AgentStateObj.check_transaction_is_consistent 2 Scenario.transaction
    (tx_fee (configuration Doctest.game)) (store (Scenario.game_instance true))
  = (store (Scenario.game_instance true), Ok true).
Proof.
  apply (valid_implies_sender_consistent Doctest.game Scenario.transaction
           (store (Scenario.game_instance true)) 2 Doctest.agent_state_1).
  - vm_compute. reflexivity.
  - apply scenario_store_repr.
  - vm_compute. reflexivity.
Defined.


(** ** Further properties of the negotiation handlers *)

Lemma with_lock_manager_id gi : with_lock_manager gi (lock_manager gi) = gi.
Proof. by destruct gi. Qed.

Lemma is_pending_store_pending d dialogue t tx :
  is_pending (store_pending d dialogue t tx) dialogue t = true
  ∧ ∃ d', pop_pending (store_pending d dialogue t tx) dialogue t = Ok (tx, d').
Proof.
  unfold is_pending, pop_pending, store_pending.
  rewrite lookup_insert_eq, lookup_insert_eq. split; [|by eexists].
  by apply bool_decide_eq_true_2.
Qed.

Lemma filter_locks_absent transaction_id (l : list (string * (bool * Transaction))) :
  transaction_id ∉ l.*1 → filter (λ kv, kv.1 ≠ transaction_id) l = l.
Proof.
  induction l as [|kv l IH]; [done|]. simpl.
  intros [Hne Hl]%not_elem_of_cons. rewrite filter_cons_True by done.
  by rewrite IH.
Qed.

Section handlers_more.

Context `{Helpers}.

(** [on_propose] for a proposal evaluated as profitable, step by
    step. *)
Lemma on_propose_accept_run gi gi1 proposals proposal propose dialogue :
  proposals !! 0%nat = Some proposal →
  let transaction :=
    Transaction_from_proposal proposal
      (generate_transaction_id (crypto_public_key gi) (destination propose)
         (dialogue_id propose) (is_seller dialogue))
      (negb (is_seller dialogue)) (destination propose) (crypto_public_key gi) in
  _is_profitable_transaction transaction dialogue gi = (gi1, Ok true) →
  has_lock (transaction_id transaction) (lock_manager gi) = false →
  on_propose proposals propose dialogue gi
  = (with_lock_manager gi1
       {| locks := locks (lock_manager gi)
                   ++ [(transaction_id transaction, (is_seller dialogue, transaction))];
          pending_tx_proposals := pending_tx_proposals (lock_manager gi);
          pending_tx_acceptances :=
            store_pending (pending_tx_acceptances (lock_manager gi)) dialogue
              (msg_id propose + 1) transaction |},
     Ok (Accept (msg_id propose + 1) (dialogue_id propose) (destination propose)
           (msg_id propose))).
Proof.
  intros Hproposal transaction Hprofit Hlock.
  pose proof (_is_profitable_transaction_store_only _ _ _ _ _ Hprofit) as Hso.
  destruct (store_only_fields _ _ Hso) as (_ & _ & _ & _ & _ & Hlm & _).
  unfold on_propose. erewrite bind_Ok; [|reflexivity].
  erewrite bind_Ok; [|unfold lift, list_getitem; by rewrite Hproposal].
  fold transaction. erewrite bind_Ok; [|exact Hprofit]. cbv beta iota.
  erewrite bind_Ok.
  2:{ unfold on_lock_manager, LockManager_add_lock. unfold_monad. simpl.
      rewrite Hlm, Hlock. reflexivity. }
  erewrite bind_Ok; [|reflexivity]. reflexivity.
Qed.

(** X21.  [on_propose] for a proposal evaluated as profitable, when no
    lock is held under the id of the implied transaction: the answer is
    an [Accept] (next message id, same dialogue, target the proposal),
    the transaction is locked in the role of the dialogue after the locks
    already held, it is kept as a pending acceptance under the id of the
    answer, and nothing else changes: the pending proposals and the
    belief state are the same and every object that was in the store is
    as it was. *)
Theorem on_propose_accepts (gi : GameInstance) (proposals : list Proposal)
    (proposal : Proposal) (propose : Message) (dialogue : Dialogue) :
  proposals !! 0%nat = Some proposal →
  let transaction :=
    Transaction_from_proposal proposal
      (generate_transaction_id (crypto_public_key gi) (destination propose)
         (dialogue_id propose) (is_seller dialogue))
      (negb (is_seller dialogue)) (destination propose) (crypto_public_key gi) in
  (_is_profitable_transaction transaction dialogue gi).2 = Ok true →
  has_lock (transaction_id transaction) (lock_manager gi) = false →
  ∃ gi',
    on_propose proposals propose dialogue gi
    = (gi', Ok (Accept (msg_id propose + 1) (dialogue_id propose)
                  (destination propose) (msg_id propose)))
    ∧ locks (lock_manager gi')
      = locks (lock_manager gi)
        ++ [(transaction_id transaction, (is_seller dialogue, transaction))]
    ∧ is_pending (pending_tx_acceptances (lock_manager gi')) dialogue
        (msg_id propose + 1) = true
    ∧ pending_tx_proposals (lock_manager gi') = pending_tx_proposals (lock_manager gi)
    ∧ world_state gi' = world_state gi
    ∧ (∀ r o, store gi !! r = Some o → store gi' !! r = Some o).
Proof.
  intros Hproposal transaction Hprofit Hlock.
  destruct (_is_profitable_transaction transaction dialogue gi) as [gi1 res] eqn:Hrun.
  simpl in Hprofit. subst res.
  destruct (_is_profitable_transaction_store_grows _ _ _ _ _ Hrun) as [Honly Hpre].
  destruct (store_only_fields _ _ Honly) as (_ & _ & _ & _ & _ & _ & Hws).
  eexists. split; [by apply on_propose_accept_run|]. simpl.
  split_and!; [done|apply is_pending_store_pending|done|done|].
  intros r o. by apply prefix_of_lookup.
Qed.

(** X22.  The handshake: after [on_propose] has answered a profitable
    proposal with an [Accept], an [Accept] of the counterparty that
    targets that answer is handled by [on_accept] as the match case: the
    transaction of the proposal, serialized, is returned as one message
    to the controller; the lock stays and the pending acceptance is
    consumed. *)
Theorem on_propose_then_on_accept (gi : GameInstance) (proposals : list Proposal)
    (proposal : Proposal) (propose accept : Message) (dialogue : Dialogue) :
  proposals !! 0%nat = Some proposal →
  let transaction :=
    Transaction_from_proposal proposal
      (generate_transaction_id (crypto_public_key gi) (destination propose)
         (dialogue_id propose) (is_seller dialogue))
      (negb (is_seller dialogue)) (destination propose) (crypto_public_key gi) in
  (_is_profitable_transaction transaction dialogue gi).2 = Ok true →
  has_lock (transaction_id transaction) (lock_manager gi) = false →
  target accept = msg_id propose + 1 →
  ∃ gi1 gi2,
    on_propose proposals propose dialogue gi
    = (gi1, Ok (Accept (msg_id propose + 1) (dialogue_id propose)
                  (destination propose) (msg_id propose)))
    ∧ on_accept accept dialogue gi1
      = (gi2, Ok (One (ByteMessage (msg_id accept + 1) (dialogue_id accept)
                         (controller_pbk gi) (Transaction_serialize transaction))))
    ∧ locks (lock_manager gi2)
      = locks (lock_manager gi)
        ++ [(transaction_id transaction, (is_seller dialogue, transaction))]
    ∧ is_pending (pending_tx_acceptances (lock_manager gi2)) dialogue (target accept)
      = false.
Proof.
  intros Hproposal transaction Hprofit Hlock Htarget.
  destruct (_is_profitable_transaction transaction dialogue gi) as [gi0 res] eqn:Hrun.
  simpl in Hprofit. subst res.
  pose proof (_is_profitable_transaction_store_only _ _ _ _ _ Hrun) as Hso.
  destruct (store_only_fields _ _ Hso) as (_ & _ & _ & Hc & _ & _ & _).
  pose proof (on_propose_accept_run gi gi0 proposals proposal propose dialogue
                Hproposal Hrun Hlock) as Hpropose.
  fold transaction in Hpropose.
  set (gi1 := with_lock_manager gi0 _) in Hpropose.
  destruct (is_pending_store_pending (pending_tx_acceptances (lock_manager gi)) dialogue
              (msg_id propose + 1) transaction) as [Hpending [d' Hpop]].
  destruct (on_accept_match gi1 accept dialogue) as (tx & d & Hpop' & Haccept).
  { subst gi1. simpl. by rewrite Htarget. }
  assert (tx = transaction ∧ d = d') as [-> ->].
  { subst gi1. simpl in Hpop'. rewrite Htarget, Hpop in Hpop'. by injection Hpop' as <- <-. }
  eexists gi1, _. split; [exact Hpropose|]. split.
  { rewrite Haccept. subst gi1. simpl. rewrite Hc. reflexivity. }
  split; [reflexivity|].
  simpl. rewrite Htarget. eapply not_pending_after_pop. exact Hpop.
Qed.

(** X23.  [on_decline] when no belief update is due (the agent keeps no
    belief state, or no proposal is pending under the target of the
    [Decline]): it never fails, it releases the lock held under the
    transaction id of the dialogue, if there is one, and changes nothing
    else. *)
Theorem on_decline_releases_lock (gi : GameInstance) (decline : Message)
    (dialogue : Dialogue) :
  is_world_modeling gi = false
  ∨ is_pending (pending_tx_proposals (lock_manager gi)) dialogue (target decline) = false →
  let transaction_id :=
    generate_transaction_id (crypto_public_key gi) (destination decline)
      (dialogue_id decline) (is_seller dialogue) in
  on_decline decline dialogue gi
  = (with_lock_manager gi
       {| locks := filter (λ kv, kv.1 ≠ transaction_id) (locks (lock_manager gi));
          pending_tx_proposals := pending_tx_proposals (lock_manager gi);
          pending_tx_acceptances := pending_tx_acceptances (lock_manager gi) |},
     Ok tt).
Proof.
  intros Hquiet transaction_id. unfold on_decline.
  erewrite bind_Ok; [|reflexivity].
  erewrite (bind_Ok _ _ gi gi tt).
  2:{ destruct Hquiet as [->| ->]; [done|]. by destruct (is_world_modeling gi). }
  erewrite bind_Ok; [|reflexivity]. fold transaction_id.
  destruct (has_lock transaction_id (lock_manager gi)) eqn:Hlock.
  - reflexivity.
  - unfold has_lock in Hlock. apply bool_decide_eq_false in Hlock.
    rewrite filter_locks_absent by done.
    unfold mret, M_ret. f_equal. destruct gi as [? ? ? ? ? ? [? ? ?] ?]. reflexivity.
Qed.

(** X24.  [on_accept], initial case, for a pending proposal that is no
    longer profitable: the answer is one [Decline] (next message id,
    target the [Accept]); the pending proposal has been consumed, no lock
    has been taken, the pending acceptances and the belief state are the
    same and every object that was in the store is as it was. *)
Theorem on_accept_initial_declines (gi : GameInstance) (accept : Message)
    (dialogue : Dialogue) (tx : Transaction)
    (d : gmap DialogueLabel (gmap Z Transaction)) :
  is_pending (pending_tx_acceptances (lock_manager gi)) dialogue (target accept) = false →
  pop_pending (pending_tx_proposals (lock_manager gi)) dialogue (target accept)
    = Ok (tx, d) →
  let popped :=
    with_lock_manager gi
      {| locks := locks (lock_manager gi); pending_tx_proposals := d;
         pending_tx_acceptances := pending_tx_acceptances (lock_manager gi) |} in
  (_is_profitable_transaction tx dialogue popped).2 = Ok false →
  ∃ gi',
    on_accept accept dialogue gi
    = (gi', Ok (One (Decline (msg_id accept + 1) (dialogue_id accept)
                       (destination accept) (msg_id accept))))
    ∧ lock_manager gi' = lock_manager popped
    ∧ is_pending (pending_tx_proposals (lock_manager gi')) dialogue (target accept)
      = false
    ∧ world_state gi' = world_state gi
    ∧ (∀ r o, store gi !! r = Some o → store gi' !! r = Some o).
Proof.
  intros Hpending Hpop popped Hprofit.
  destruct (_is_profitable_transaction tx dialogue popped) as [gi' res] eqn:Hrun.
  simpl in Hprofit. subst res.
  destruct (_is_profitable_transaction_store_grows _ _ _ _ _ Hrun) as [Honly Hpre].
  destruct (store_only_fields _ _ Honly) as (_ & _ & _ & _ & _ & Hlm & Hws).
  exists gi'. split_and!.
  - eapply on_accept_initial_decline; [done| |exact Hrun].
    by apply pop_pending_proposal_Ok.
  - done.
  - rewrite Hlm. simpl. by eapply not_pending_after_pop.
  - by rewrite Hws.
  - intros r o. by apply prefix_of_lookup.
Qed.

(** X25.  [on_accept], initial case, for a pending proposal that is
    still profitable, when the agent keeps no belief state and holds no
    lock under the id of the transaction: two messages are returned, the
    serialized transaction for the controller and an [Accept] for the
    counterparty, both with the next message id; the transaction is
    locked in the role of the dialogue and the pending proposal is
    consumed. *)
Theorem on_accept_initial_accepts (gi : GameInstance) (accept : Message)
    (dialogue : Dialogue) (tx : Transaction)
    (d : gmap DialogueLabel (gmap Z Transaction)) :
  is_world_modeling gi = false →
  is_pending (pending_tx_acceptances (lock_manager gi)) dialogue (target accept) = false →
  pop_pending (pending_tx_proposals (lock_manager gi)) dialogue (target accept)
    = Ok (tx, d) →
  let popped :=
    with_lock_manager gi
      {| locks := locks (lock_manager gi); pending_tx_proposals := d;
         pending_tx_acceptances := pending_tx_acceptances (lock_manager gi) |} in
  (_is_profitable_transaction tx dialogue popped).2 = Ok true →
  has_lock (transaction_id tx) (lock_manager gi) = false →
  ∃ gi',
    on_accept accept dialogue gi
    = (gi', Ok (Several
         [ByteMessage (msg_id accept + 1) (dialogue_id accept) (controller_pbk gi)
            (Transaction_serialize tx);
          Accept (msg_id accept + 1) (dialogue_id accept) (destination accept)
            (msg_id accept)]))
    ∧ locks (lock_manager gi')
      = locks (lock_manager gi) ++ [(transaction_id tx, (is_seller dialogue, tx))].
Proof.
  intros Hwm Hpending Hpop popped Hprofit Hlock.
  destruct (_is_profitable_transaction tx dialogue popped) as [gi2 res] eqn:Hrun.
  simpl in Hprofit. subst res.
  eapply on_accept_initial_accept; [done|done| |exact Hrun|done].
  by apply pop_pending_proposal_Ok.
Qed.

End handlers_more.

Lemma on_propose_accepts_witness :
  ∃ gi',
    @on_propose Scenario.helpers [Scenario.good_proposal] Scenario.propose
      Scenario.dialogue (Scenario.game_instance false)
    = (gi', Ok (Accept 3 8 "tac_agent_0_pbk" 2))
    ∧ locks (lock_manager gi')
      = [("tac_agent_1_pbk_tac_agent_0_pbk_seller"%string, (true, Scenario.transaction))]
    ∧ is_pending (pending_tx_acceptances (lock_manager gi')) Scenario.dialogue 3 = true.
Proof.
  destruct (@on_propose_accepts Scenario.helpers (Scenario.game_instance false)
              [Scenario.good_proposal] Scenario.good_proposal Scenario.propose
              Scenario.dialogue) as (gi' & Hrun & Hlocks & Hpending & _).
  - reflexivity.
  - vm_compute. reflexivity.
  - vm_compute. reflexivity.
  - exists gi'. split_and!; [exact Hrun|exact Hlocks|exact Hpending].
Defined.

Lemma on_propose_then_on_accept_witness :
  ∃ gi1 gi2,
    @on_propose Scenario.helpers [Scenario.good_proposal] Scenario.propose
      Scenario.dialogue (Scenario.game_instance false)
    = (gi1, Ok (Accept 3 8 "tac_agent_0_pbk" 2))
    ∧ @on_accept Scenario.helpers Scenario.match_accept Scenario.dialogue gi1
      = (gi2, Ok (One (ByteMessage 5 8 "tac_controller_pbk"
                         "tac_agent_1_pbk_tac_agent_0_pbk_seller"))).
Proof.
  destruct (@on_propose_then_on_accept Scenario.helpers (Scenario.game_instance false)
              [Scenario.good_proposal] Scenario.good_proposal Scenario.propose
              Scenario.match_accept Scenario.dialogue)
    as (gi1 & gi2 & Hpropose & Haccept & _).
  - reflexivity.
  - vm_compute. reflexivity.
  - vm_compute. reflexivity.
  - reflexivity.
  - exists gi1, gi2. split; [exact Hpropose|exact Haccept].
Defined.

Lemma on_decline_releases_lock_witness :
  let gi := Scenario.game_instance false in
  @on_decline Scenario.helpers Scenario.decline Scenario.dialogue gi
  = (with_lock_manager gi
       {| locks := filter (λ kv, kv.1 ≠ "tac_agent_1_pbk_tac_agent_0_pbk_seller"%string)
                     (locks (lock_manager gi));
          pending_tx_proposals := pending_tx_proposals (lock_manager gi);
          pending_tx_acceptances := pending_tx_acceptances (lock_manager gi) |},
     Ok tt).
Proof.
  apply (@on_decline_releases_lock Scenario.helpers (Scenario.game_instance false)
           Scenario.decline Scenario.dialogue).
  left. reflexivity.
Defined.

Lemma on_accept_initial_declines_witness :
  ∃ gi',
    @on_accept Scenario.helpers Scenario.accept Scenario.dialogue
      Scenario.game_instance_bad
    = (gi', Ok (One (Decline 4 7 "tac_agent_0_pbk" 3)))
    ∧ locks (lock_manager gi') = []
    ∧ is_pending (pending_tx_proposals (lock_manager gi')) Scenario.dialogue 2 = false.
Proof.
  edestruct (@on_accept_initial_declines Scenario.helpers Scenario.game_instance_bad
               Scenario.accept Scenario.dialogue Scenario.bad_transaction)
    as (gi' & Hrun & Hlm & Hpending & _).
  - vm_compute. reflexivity.
  - reflexivity.
  - vm_compute. reflexivity.
  - exists gi'. split_and!; [exact Hrun|by rewrite Hlm|exact Hpending].
Defined.

Lemma on_accept_initial_accepts_witness :
  ∃ gi',
    @on_accept Scenario.helpers Scenario.accept Scenario.dialogue
      (Scenario.game_instance false)
    = (gi', Ok (Several
         [ByteMessage 4 7 "tac_controller_pbk" "tac_agent_1_pbk_tac_agent_0_pbk_seller";
          Accept 4 7 "tac_agent_0_pbk" 3]))
    ∧ locks (lock_manager gi')
      = [("tac_agent_1_pbk_tac_agent_0_pbk_seller"%string, (true, Scenario.transaction))].
Proof.
  eapply (@on_accept_initial_accepts Scenario.helpers (Scenario.game_instance false)
            Scenario.accept Scenario.dialogue Scenario.transaction).
  - reflexivity.
  - vm_compute. reflexivity.
  - reflexivity.
  - vm_compute. reflexivity.
  - vm_compute. reflexivity.
Defined.

(** ** Reconstruction from a log with an invalid transaction *)

(** X26.  The replay loop of [Game.from_dict] stops at the first logged
    transaction that is not valid in the game reached by the
    transactions before it: the reconstruction fails with
    [AssertionError], whatever follows in the log. *)
Theorem replay_stops_at_invalid (ds1 ds2 : list TransactionDict) (d : TransactionDict)
    (g g1 : Game) :
  replay ds1 g = Ok g1 →
  (is_transaction_valid (Transaction_from_dict d) g1).2 = Ok false →
  replay (ds1 ++ d :: ds2) g = Raise AssertionError.
Proof.
  intros Hrun Hinvalid%is_transaction_valid_eq.
  rewrite replay_app, Hrun. simpl.
  unfold settle_transaction. by rewrite (bind_Ok _ _ _ _ _ Hinvalid).
Qed.

Lemma replay_stops_at_invalid_witness :
  replay ([Transaction_to_dict Doctest.tx]
          ++ Transaction_to_dict Doctest.tx_too_expensive :: [Transaction_to_dict Doctest.tx])
    Doctest.game
  = Raise AssertionError.
Proof.
  apply (replay_stops_at_invalid [Transaction_to_dict Doctest.tx]
           [Transaction_to_dict Doctest.tx] (Transaction_to_dict Doctest.tx_too_expensive)
           Doctest.game Doctest.game_after).
  - vm_compute. reflexivity.
  - vm_compute. reflexivity.
Defined.

(** ** Consistency of an initialization *)

(** X27.  [GameInitialization._check_consistency] fails with
    [AssertionError] or with [IndexError] or returns, and it fails with
    [IndexError] exactly when the first five assertions hold and
    [eq_good_holdings] is empty: [self.eq_good_holdings[0]] is evaluated
    inside the sixth assertion. *)
Theorem GameInitialization_check_consistency_outcomes (i : GameInitialization) :
  (GameInitialization_check_consistency i = Ok tt
   ∨ GameInitialization_check_consistency i = Raise AssertionError
   ∨ GameInitialization_check_consistency i = Raise IndexError)
  ∧ (GameInitialization_check_consistency i = Raise IndexError ↔
       Forall (λ money, 0 ≤ money) (initial_money_amounts i)
       ∧ Forall (Forall (λ e, 0 < e)) (endowments i)
       ∧ Forall (Forall (λ e, 0 < e)%Qc) (utility_params i)
       ∧ length (endowments i) = length (initial_money_amounts i)
       ∧ length (endowments i) = length (utility_params i)
       ∧ eq_good_holdings i = []).
Proof.
  unfold GameInitialization_check_consistency.
  destruct (forallb _ (initial_money_amounts i)) eqn:H1; simpl.
  2:{ split; [tauto|]. split; [done|]. intros (Hm & _).
      apply not_true_iff_false in H1. destruct H1. apply forallb_forall.
      intros x Hx%list_elem_of_In. apply bool_decide_eq_true_2.
      by eapply (proj1 (Forall_forall _ _)) in Hm. }
  destruct (forallb _ (endowments i)) eqn:H2; simpl.
  2:{ split; [tauto|]. split; [done|]. intros (_ & He & _).
      apply not_true_iff_false in H2. destruct H2. apply forallb_forall.
      intros row Hrow%list_elem_of_In. apply forallb_forall.
      intros x Hx%list_elem_of_In. apply bool_decide_eq_true_2.
      eapply (proj1 (Forall_forall _ _)) in He; [|exact Hrow].
      by eapply (proj1 (Forall_forall _ _)) in He. }
  destruct (forallb _ (utility_params i)) eqn:H3; simpl.
  2:{ split; [tauto|]. split; [done|]. intros (_ & _ & Hu & _).
      apply not_true_iff_false in H3. destruct H3. apply forallb_forall.
      intros row Hrow%list_elem_of_In. apply forallb_forall.
      intros x Hx%list_elem_of_In. apply bool_decide_eq_true_2.
      eapply (proj1 (Forall_forall _ _)) in Hu; [|exact Hrow].
      by eapply (proj1 (Forall_forall _ _)) in Hu. }
  case_bool_decide as H4; simpl; [|split; [tauto|]; split; [done|]; tauto].
  case_bool_decide as H5; simpl; [|split; [tauto|]; split; [done|]; tauto].
  assert (Forall (λ money, 0 ≤ money) (initial_money_amounts i)) as F1.
  { apply Forall_forall. intros x Hx%list_elem_of_In.
    rewrite forallb_forall in H1. by apply H1, bool_decide_eq_true in Hx. }
  assert (Forall (Forall (λ e, 0 < e)) (endowments i)) as F2.
  { apply Forall_forall. intros row Hrow%list_elem_of_In.
    apply Forall_forall. intros x Hx%list_elem_of_In.
    rewrite forallb_forall in H2. apply H2 in Hrow. rewrite forallb_forall in Hrow.
    by apply Hrow, bool_decide_eq_true in Hx. }
  assert (Forall (Forall (λ e, 0 < e)%Qc) (utility_params i)) as F3.
  { apply Forall_forall. intros row Hrow%list_elem_of_In.
    apply Forall_forall. intros x Hx%list_elem_of_In.
    rewrite forallb_forall in H3. apply H3 in Hrow. rewrite forallb_forall in Hrow.
    by apply Hrow, bool_decide_eq_true in Hx. }
  unfold list_getitem. destruct (eq_good_holdings i) as [|first_row rows]; simpl.
  { split; [tauto|]. split; [done|]. by intros _. }
  unfold mbind, result_bind.
  repeat (case_bool_decide; simpl; [|split; [tauto|]; split; [done|]; by intros (_ & _ & _ & _ & _ & ?)]).
  destruct (forallb _ (zip _ _)); simpl;
    (split; [tauto|]; split; [done|]; by intros (_ & _ & _ & _ & _ & ?)).
Qed.

(** ** The life cycle of an agent *)

(** X28.  [Agent.agent_state] never raises [ValueError]: the last
    branch of the property is not reachable.  The state is [INITIATED]
    when there is no mailbox or the mailbox is not connected, otherwise
    [CONNECTED] when the liveness is stopped and [RUNNING] when it is
    not; a new agent is [INITIATED]. *)
Theorem agent_state_never_raises (self : Lifecycle.Agent) :
  Lifecycle.agent_state self
  = inr (match Lifecycle.mailbox self with
         | None => Lifecycle.INITIATED
         | Some mail =>
             if Lifecycle.is_connected mail
             then if Lifecycle.is_stopped (Lifecycle.liveness self)
                  then Lifecycle.CONNECTED else Lifecycle.RUNNING
             else Lifecycle.INITIATED
         end)
  ∧ Lifecycle.agent_state Lifecycle.__init__ = inr Lifecycle.INITIATED.
Proof.
  split; [|done]. unfold Lifecycle.agent_state.
  destruct (Lifecycle.mailbox self) as [[connected]|]; [|done]. simpl.
  by destruct connected, (Lifecycle.is_stopped (Lifecycle.liveness self)).
Qed.
